(** * Skill matching and knowledge-graph layout: a shallow embedding

    The development follows three source files of the repository:
    - the embedding providers ([hashString], [seededRandom],
      [MockProvider.generate], [cosineSimilarity]);
    - the hybrid candidate search ([useCandidateSearch]);
    - the force simulation of the knowledge graph ([simulateStep]).

    JavaScript numbers are read as real numbers: rounding of the
    arithmetic on fractions is idealised away.  Two places keep the machine
    behaviour because the code depends on it: the 32-bit integer
    operations of the hash and of the linear congruential generator (with
    the 53-bit rounding of its product), and division by zero in the
    simulation, which yields the non-finite values of [JSNum]. *)

From Stdlib Require Import Reals Lra Lia ZArith List String Ascii Bool.
From Stdlib Require Import Permutation Sorted.
Import ListNotations.

Set Implicit Arguments.

(** ** Exceptions *)

(** What the code can throw: the error of [cosineSimilarity], and the
    failures of the collaborators (store, embedding provider). *)
Inductive Error : Type :=
| DimensionMismatch (la lb : nat)
| StoreFailure (msg : string)
| ProviderFailure (msg : string).

Inductive Exc (A : Type) : Type :=
| Ok (a : A)
| Throw (e : Error).

Arguments Ok {A} a.
Arguments Throw {A} e.

(** ** Embeddings *)

Module Embedding.

Open Scope R_scope.

(** The body of the [for] loop of [cosineSimilarity], with its three
    accumulators.  The loop runs over the indices of [a]; it is entered
    only when both arrays have the same length. *)
Fixpoint cosineLoop (a b : list R) (dotProduct normA normB : R) : R * R * R :=
  match a, b with
  | x :: a', y :: b' =>
      cosineLoop a' b' (dotProduct + x * y) (normA + x * x) (normB + y * y)
  | _, _ => (dotProduct, normA, normB)
  end.

Definition cosineSimilarity (a b : list R) : Exc R :=
  if negb (Nat.eqb (List.length a) (List.length b)) then
    Throw (DimensionMismatch (List.length a) (List.length b))
  else
    let '(dotProduct, normA, normB) := cosineLoop a b 0 0 0 in
    let magnitude := sqrt normA * sqrt normB in
    Ok (if Req_dec_T magnitude 0 then 0 else dotProduct / magnitude).

(** The mathematical notions the specification uses. *)
Fixpoint dot (a b : list R) : R :=
  match a, b with
  | x :: a', y :: b' => x * y + dot a' b'
  | _, _ => 0
  end.

Definition norm (a : list R) : R := sqrt (dot a a).

(** *** The mock provider *)

(** A JavaScript string is its sequence of UTF-16 code units, which is
    what [charCodeAt] reads. *)
Definition jsstring : Type := list Z.

(** [ToInt32]: the value modulo 2^32, read as a signed 32-bit integer. *)
Definition toInt32 (z : Z) : Z :=
  ((z + 2147483648) mod 4294967296 - 2147483648)%Z.

(** One iteration of the loop of [hashString]:
    [hash = ((hash << 5) - hash) + char; hash = hash & hash].  The shift
    gives a 32-bit result, the subtraction and the addition are exact, and
    [hash & hash] converts back to 32 bits. *)
Definition hashStep (hash char : Z) : Z :=
  toInt32 (toInt32 (Z.shiftl hash 5) - hash + char)%Z.

Definition hashString (str : jsstring) : Z :=
  fold_left hashStep str 0%Z.

(** A product of two 32-bit integers can need more than the 53 bits of a
    double's significand: round to nearest, ties to even. *)
Definition roundToDouble (z : Z) : Z :=
  let m := Z.abs z in
  if (m <? 9007199254740992)%Z then z
  else
    let e := (Z.log2 m - 52)%Z in
    let q := Z.shiftr m e in
    let r := (m - Z.shiftl q e)%Z in
    let half := Z.shiftl 1 (e - 1) in
    let q' := if (r <? half)%Z then q
              else if (half <? r)%Z then (q + 1)%Z
              else if Z.even q then q else (q + 1)%Z in
    (Z.sgn z * Z.shiftl q' e)%Z.

(** [state = (state * 1103515245 + 12345) & 0x7fffffff] *)
Definition nextState (state : Z) : Z :=
  Z.land
    (toInt32 (roundToDouble (roundToDouble (state * 1103515245) + 12345)))
    2147483647.

(** The closure returned by [seededRandom] owns the variable [state]; a
    call returns the number drawn and the new state. *)
Definition random (state : Z) : R * Z :=
  let state' := nextState state in
  (IZR state' / 2147483647, state').

Definition dimensions : nat := 384.

(** The loop [for (i = 0; i < dimensions; i++) embedding.push(random() * 2 - 1)],
    [n] iterations from the current state. *)
Fixpoint fillEmbedding (n : nat) (state : Z) (embedding : list R) : list R :=
  match n with
  | O => embedding
  | S n' =>
      let '(r, state') := random state in
      fillEmbedding n' state' (embedding ++ [r * 2 - 1])
  end.

(** [String.prototype.trim] removes the white space and line terminator
    code units at both ends. *)
Definition isWhiteSpace (c : Z) : bool :=
  ((9 <=? c) && (c <=? 13) || (c =? 32) || (c =? 160) || (c =? 5760)
   || (8192 <=? c) && (c <=? 8202) || (c =? 8232) || (c =? 8233)
   || (c =? 8239) || (c =? 8287) || (c =? 12288) || (c =? 65279))%Z.

Fixpoint trimStart (s : jsstring) : jsstring :=
  match s with
  | c :: s' => if isWhiteSpace c then trimStart s' else s
  | [] => []
  end.

Definition trim (s : jsstring) : jsstring :=
  rev (trimStart (rev (trimStart s))).

(** [toLowerCase] on the code units of ASCII letters, where it agrees
    with the Unicode case mapping of the language. *)
Definition asciiToLowerCase (s : jsstring) : jsstring :=
  map (fun c => if ((65 <=? c) && (c <=? 90))%Z then (c + 32)%Z else c) s.

Section MockProvider.

(** The case mapping of the host, [String.prototype.toLowerCase]. *)
Variable toLowerCase : jsstring -> jsstring.

Definition generate (text : jsstring) : list R :=
  let seed := hashString (trim (toLowerCase text)) in
  let embedding := fillEmbedding dimensions seed [] in
  let magnitude :=
    sqrt (fold_left (fun sum val => sum + val * val) embedding 0) in
  map (fun val => val / magnitude) embedding.

Definition generateBatch (texts : list jsstring) : list (list R) :=
  map generate texts.

End MockProvider.

End Embedding.

(** ** Array primitives of the language *)

Module JSArray.

Open Scope R_scope.

Section Sort.

Variable A : Type.

(** [compare a b] is the number the comparison callback returns:
    negative when [a] goes first, positive when [b] goes first. *)
Variable compare : A -> A -> R.

Fixpoint insertSorted (x : A) (l : list A) : list A :=
  match l with
  | [] => [x]
  | y :: l' =>
      if Rle_dec (compare x y) 0 then x :: y :: l'
      else y :: insertSorted x l'
  end.

(** [Array.prototype.sort] is a stable sort.  Each element is inserted
    in front of the part already sorted, which held the elements after
    it: it stays before those it compares equal to. *)
Definition sort (l : list A) : list A :=
  fold_right insertSorted [] l.

End Sort.

(** The comparison callbacks of the search all have the form
    [(a, b) => key(b) - key(a)]. *)
Definition byKey (A : Type) (key : A -> R) (a b : A) : R := key b - key a.

(** [a] may stand before [b] in the descending order of the keys. *)
Definition descending (A : Type) (key : A -> R) (a b : A) : Prop :=
  key b <= key a.

Definition hasKey (A : Type) (key : A -> R) (k : R) (a : A) : bool :=
  if Req_dec_T (key a) k then true else false.

(** [l.slice(0, stop)]: a negative [stop] counts from the end. *)
Definition slice0 (A : Type) (l : list A) (stop : Z) : list A :=
  let len := Z.of_nat (List.length l) in
  let final := if (stop <? 0)%Z then Z.max (len + stop) 0 else Z.min stop len in
  firstn (Z.to_nat final) l.

(** [l.find(p)] *)
Definition find (A : Type) (p : A -> bool) (l : list A) : option A :=
  List.find p l.

End JSArray.

(** ** The hybrid candidate search *)

Module Search.

Import Embedding.
Open Scope R_scope.

(** The fields of the records that the search reads.  [processRecord]
    rewrites only the two date fields, which are left out here. *)
Record Skill : Type := {
  skill_id : string;
  skill_name : string;
  skill_embedding : option (list R)
}.

Record Employee : Type := {
  employee_id : string;
  department : string;
  employee_embedding : option (list R)
}.

Record HasSkillEdge : Type := {
  edge_in : string;
  edge_out : string;
  proficiency : R;
  certified : bool
}.

Record Filters : Type := {
  filter_department : option string;
  filter_minProficiency : option R;
  filter_skills : option (list string);
  filter_certified : option bool
}.

Record SemanticSearchQuery : Type := {
  query : jsstring;
  filters : option Filters;
  limit : option Z
}.

Record RelevantSkill : Type := {
  rs_skill : Skill;
  relevance : R
}.

Record MatchedSkill : Type := {
  ms_skill : Skill;
  ms_proficiency : R;
  ms_relevance : R
}.

Record CandidateMatch : Type := {
  employee : Employee;
  matchScore : R;
  matchedSkills : list MatchedSkill;
  semanticScore : R;
  graphScore : R
}.

(** [processingTimeMs], a difference of two readings of the wall clock,
    is not part of the model. *)
Record SearchResult : Type := {
  candidates : list CandidateMatch;
  queryEmbedding : option (list R);
  totalMatches : nat
}.

(** *** The store *)

(** The shapes of a query response that [extractQueryResult] tells apart. *)
Inductive ResponseItem (T : Type) : Type :=
| WithResult (result : option (list T))
| Rows (rows : list T)
| Single (row : T)
| Other.

Arguments WithResult {T} result.
Arguments Rows {T} rows.
Arguments Single {T} row.
Arguments Other {T}.

Inductive Response (T : Type) : Type :=
| NotAnArray
| Items (items : list (ResponseItem T)).

Arguments NotAnArray {T}.
Arguments Items {T} items.

Definition extractQueryResult (T : Type) (result : Response T) : list T :=
  match result with
  | Items (first :: _) =>
      match first with
      | WithResult (Some rows) => rows
      | WithResult None => []
      | Rows rows => rows
      | Single row => [row]
      | Other => []
      end
  | _ => []
  end.

(** The three queries the search sends. *)
Inductive Query : Type :=
| SelectSkills
| SelectEmployees (departmentParam : option string)
| SelectHasSkill (empId : string).

(** A store answers a query or fails. *)
Record Store : Type := {
  skillTable : Exc (Response Skill);
  employeeTable : option string -> Exc (Response Employee);
  hasSkillTable : string -> Exc (Response HasSkillEdge)
}.

(** *** Computations that query the store and may throw *)

(** What a run leaves behind: the queries sent to the store and the
    errors written to the console, the last one first in both. *)
Record Trace : Type := {
  sent : list Query;
  logged : list Error
}.

Definition M (A : Type) : Type := Trace -> Exc A * Trace.

Definition ret (A : Type) (a : A) : M A := fun t => (Ok a, t).

Definition bind (A B : Type) (m : M A) (k : A -> M B) : M B :=
  fun t =>
    match m t with
    | (Ok a, t') => k a t'
    | (Throw e, t') => (Throw e, t')
    end.

Definition lift (A : Type) (r : Exc A) : M A := fun t => (r, t).

Definition tryCatch (A : Type) (body : M A) (handler : Error -> M A) : M A :=
  fun t =>
    match body t with
    | (Ok a, t') => (Ok a, t')
    | (Throw e, t') => handler e t'
    end.

Definition send (q : Query) (t : Trace) : Trace :=
  {| sent := q :: sent t; logged := logged t |}.

Definition consoleError (e : Error) : M unit :=
  fun t => (Ok tt, {| sent := sent t; logged := e :: logged t |}).

Notation "x <- m ;; k" := (bind m (fun x => k))
  (at level 61, m at next level, right associativity).

Definition querySkills (db : Store) : M (Response Skill) :=
  fun t => (skillTable db, send SelectSkills t).

Definition queryEmployees (db : Store) (dep : option string) : M (Response Employee) :=
  fun t => (employeeTable db dep, send (SelectEmployees dep) t).

Definition queryHasSkill (db : Store) (empId : string) : M (Response HasSkillEdge) :=
  fun t => (hasSkillTable db empId, send (SelectHasSkill empId) t).

(** [allSkills.map(f)] where the callback may throw. *)
Fixpoint mapExc (A B : Type) (f : A -> Exc B) (l : list A) : Exc (list B) :=
  match l with
  | [] => Ok []
  | a :: l' =>
      match f a with
      | Throw e => Throw e
      | Ok b =>
          match mapExc f l' with
          | Throw e => Throw e
          | Ok bs => Ok (b :: bs)
          end
      end
  end.

Definition Rgtb (a b : R) : bool := if Rlt_dec b a then true else false.

Definition defaultRelevance : R := 0.3.
Definition relevanceFloor : R := 0.4.
Definition defaultSemanticScore : R := 0.5.

Section CandidateSearch.

(** The configured provider, [generateEmbedding]. *)
Variable generateEmbedding : jsstring -> Exc (list R).

Variable db : Store.

(** The callback of [allSkills.map]. *)
Definition skillRelevance (queryEmbedding : list R) (skill : Skill)
  : Exc RelevantSkill :=
  match skill_embedding skill with
  | Some e =>
      match cosineSimilarity queryEmbedding e with
      | Ok r => Ok {| rs_skill := skill; relevance := r |}
      | Throw err => Throw err
      end
  | None => Ok {| rs_skill := skill; relevance := defaultRelevance |}
  end.

Definition byRelevance (a b : RelevantSkill) : R := relevance b - relevance a.

Definition relevantSkillsOf (queryEmbedding : list R) (allSkills : list Skill)
  : Exc (list RelevantSkill) :=
  match mapExc (skillRelevance queryEmbedding) allSkills with
  | Throw err => Throw err
  | Ok scored =>
      Ok (JSArray.slice0
            (JSArray.sort byRelevance
               (filter (fun s => Rgtb (relevance s) relevanceFloor) scored))
            15)
  end.

(** The condition pushed for [filters?.department]: an absent or empty
    department adds none. *)
Definition departmentParam (f : option Filters) : option string :=
  match f with
  | Some f' =>
      match filter_department f' with
      | Some d => if String.eqb d EmptyString then None else Some d
      | None => None
      end
  | None => None
  end.

(** The loop over the edges of one employee. *)
Fixpoint matchLoop (relevantSkills : list RelevantSkill)
    (empSkills : list HasSkillEdge)
    (matched : list MatchedSkill) (graphScore : R)
  : list MatchedSkill * R :=
  match empSkills with
  | [] => (matched, graphScore)
  | empSkill :: rest =>
      match JSArray.find
              (fun rs => String.eqb (skill_id (rs_skill rs)) (edge_out empSkill))
              relevantSkills with
      | Some relevantSkill =>
          let matched' :=
            matched ++ [ {| ms_skill := rs_skill relevantSkill;
                            ms_proficiency := proficiency empSkill;
                            ms_relevance := relevance relevantSkill |} ] in
          let graphScore' :=
            graphScore + (proficiency empSkill / 5) * relevance relevantSkill in
          let graphScore'' :=
            if certified empSkill then graphScore' + 0.1 else graphScore' in
          matchLoop relevantSkills rest matched' graphScore''
      | None => matchLoop relevantSkills rest matched graphScore
      end
  end.

Definition byMatchedRelevance (a b : MatchedSkill) : R :=
  ms_relevance b - ms_relevance a.

Definition byMatchScore (a b : CandidateMatch) : R :=
  matchScore b - matchScore a.

(** The loop over the employees; [acc] is the array [candidates]. *)
Fixpoint scoreEmployees (queryEmbedding : list R)
    (relevantSkills : list RelevantSkill)
    (employees : list Employee) (acc : list CandidateMatch)
  : M (list CandidateMatch) :=
  match employees with
  | [] => ret acc
  | emp :: rest =>
      skillsResult <- queryHasSkill db (employee_id emp) ;;
      let empSkills := extractQueryResult skillsResult in
      let '(matched, graphScore) := matchLoop relevantSkills empSkills [] 0 in
      if (0 <? List.length matched)%nat then
        semanticScore <-
          lift (match employee_embedding emp with
                | Some e => cosineSimilarity queryEmbedding e
                | None => Ok defaultSemanticScore
                end) ;;
        let matchScore := graphScore * 0.6 + semanticScore * 0.4 in
        scoreEmployees queryEmbedding relevantSkills rest
          (acc ++ [ {| employee := emp;
                       matchScore := matchScore;
                       matchedSkills := JSArray.sort byMatchedRelevance matched;
                       semanticScore := semanticScore;
                       graphScore := graphScore |} ])
      else
        scoreEmployees queryEmbedding relevantSkills rest acc
  end.

(** The [try] block of [mutationFn]. *)
Definition searchBody (searchQuery : SemanticSearchQuery) : M SearchResult :=
  let limit := match limit searchQuery with Some n => n | None => 10%Z end in
  queryEmbedding <- lift (generateEmbedding (query searchQuery)) ;;
  skillResult <- querySkills db ;;
  let allSkills := extractQueryResult skillResult in
  relevantSkills <- lift (relevantSkillsOf queryEmbedding allSkills) ;;
  if (List.length relevantSkills =? 0)%nat then
    ret {| candidates := [];
           queryEmbedding := Some queryEmbedding;
           totalMatches := 0 |}
  else
    employeeResult <- queryEmployees db (departmentParam (filters searchQuery)) ;;
    let employees := extractQueryResult employeeResult in
    found <- scoreEmployees queryEmbedding relevantSkills employees [] ;;
    let sorted := JSArray.sort byMatchScore found in
    ret {| candidates := JSArray.slice0 sorted limit;
           queryEmbedding := Some queryEmbedding;
           totalMatches := List.length sorted |}.

Definition emptyResult : SearchResult :=
  {| candidates := []; queryEmbedding := None; totalMatches := 0 |}.

Definition mutationFn (searchQuery : SemanticSearchQuery) : M SearchResult :=
  tryCatch (searchBody searchQuery)
    (fun error => _ <- consoleError error ;; ret emptyResult).

End CandidateSearch.

(** *** The notions of the specification *)

(** The skill of an edge is in the relevant set. *)
Definition inRelevantSet (rel : list RelevantSkill) (e : HasSkillEdge) : bool :=
  existsb (fun rs => String.eqb (skill_id (rs_skill rs)) (edge_out e)) rel.

(** The entry of a skill in the relevant set. *)
Definition relevantEntry (rel : list RelevantSkill) (skillId : string)
  : option RelevantSkill :=
  List.find (fun rs => String.eqb (skill_id (rs_skill rs)) skillId) rel.

Definition relevanceOfSkill (rel : list RelevantSkill) (skillId : string) : R :=
  match relevantEntry rel skillId with
  | Some rs => relevance rs
  | None => 0
  end.

Definition sumR (l : list R) : R := fold_right Rplus 0 l.

(** Proficiency over five times relevance, and a tenth when certified. *)
Definition edgeScore (rel : list RelevantSkill) (e : HasSkillEdge) : R :=
  proficiency e / 5 * relevanceOfSkill rel (edge_out e)
  + (if certified e then 0.1 else 0).

(** The sum over the edges whose skill is in the relevant set. *)
Definition specGraphScore (rel : list RelevantSkill) (edges : list HasSkillEdge) : R :=
  sumR (map (edgeScore rel) (filter (inRelevantSet rel) edges)).

(** The detail records of the matched edges, in the order of the edges. *)
Definition matchedOf (rel : list RelevantSkill) (edges : list HasSkillEdge)
  : list MatchedSkill :=
  flat_map
    (fun e =>
       match relevantEntry rel (edge_out e) with
       | Some rs => [ {| ms_skill := rs_skill rs;
                         ms_proficiency := proficiency e;
                         ms_relevance := relevance rs |} ]
       | None => []
       end)
    edges.

(** The edges the store holds for an employee. *)
Definition edgesOf (db : Store) (emp : Employee) : list HasSkillEdge :=
  match hasSkillTable db (employee_id emp) with
  | Ok resp => extractQueryResult resp
  | Throw _ => []
  end.

(** The employee has at least one edge whose skill is in the relevant set. *)
Definition hasMatch (db : Store) (rel : list RelevantSkill) (emp : Employee) : bool :=
  existsb (inRelevantSet rel) (edgesOf db emp).

(** [c] is the candidate record of the employee [emp]. *)
Definition candidateFor (db : Store) (queryEmbedding : list R)
    (rel : list RelevantSkill) (emp : Employee) (c : CandidateMatch) : Prop :=
  employee c = emp /\
  graphScore c = specGraphScore rel (edgesOf db emp) /\
  matchedSkills c = JSArray.sort byMatchedRelevance (matchedOf rel (edgesOf db emp)) /\
  match employee_embedding emp with
  | Some e => cosineSimilarity queryEmbedding e = Ok (semanticScore c)
  | None => semanticScore c = defaultSemanticScore
  end /\
  matchScore c = graphScore c * 0.6 + semanticScore c * 0.4.

End Search.

(** ** Numbers with the non-finite values *)

Module JSNum.

Open Scope R_scope.

(** A number of the language: a real, an infinity, or not-a-number.  The
    sign of zero is not tracked: the only zero the simulation divides by
    is a sum of squares, a positive zero. *)
Inductive num : Type :=
| Fin (r : R)
| PInf
| NInf
| NaN.

Definition neg (a : num) : num :=
  match a with
  | Fin r => Fin (- r)
  | PInf => NInf
  | NInf => PInf
  | NaN => NaN
  end.

Definition add (a b : num) : num :=
  match a, b with
  | Fin x, Fin y => Fin (x + y)
  | NaN, _ | _, NaN => NaN
  | PInf, NInf | NInf, PInf => NaN
  | PInf, _ | _, PInf => PInf
  | NInf, _ | _, NInf => NInf
  end.

Definition sub (a b : num) : num := add a (neg b).

(** The infinity of the sign of [r], not-a-number for zero. *)
Definition infTimes (positive : bool) (r : R) : num :=
  if Req_dec_T r 0 then NaN
  else if Rlt_dec 0 r then (if positive then PInf else NInf)
  else (if positive then NInf else PInf).

Definition mul (a b : num) : num :=
  match a, b with
  | Fin x, Fin y => Fin (x * y)
  | NaN, _ | _, NaN => NaN
  | PInf, Fin y => infTimes true y
  | NInf, Fin y => infTimes false y
  | Fin x, PInf => infTimes true x
  | Fin x, NInf => infTimes false x
  | PInf, PInf | NInf, NInf => PInf
  | PInf, NInf | NInf, PInf => NInf
  end.

Definition div (a b : num) : num :=
  match a, b with
  | Fin x, Fin y =>
      if Req_dec_T y 0 then infTimes true x else Fin (x / y)
  | NaN, _ | _, NaN => NaN
  | Fin _, PInf | Fin _, NInf => Fin 0
  | PInf, Fin y => if Rlt_dec y 0 then NInf else PInf
  | NInf, Fin y => if Rlt_dec y 0 then PInf else NInf
  | PInf, _ | NInf, _ => NaN
  end.

(** [Math.sqrt] *)
Definition sqrt (a : num) : num :=
  match a with
  | Fin x => if Rlt_dec x 0 then NaN else Fin (R_sqrt.sqrt x)
  | PInf => PInf
  | NInf => NaN
  | NaN => NaN
  end.

(** [a < b]; a comparison with not-a-number is false. *)
Definition ltb (a b : num) : bool :=
  match a, b with
  | Fin x, Fin y => if Rlt_dec x y then true else false
  | NaN, _ | _, NaN => false
  | NInf, NInf | PInf, _ => false
  | NInf, _ => true
  | Fin _, PInf => true
  | Fin _, NInf => false
  end.

Definition gtb (a b : num) : bool := ltb b a.

(** Zero and not-a-number are the falsy numbers. *)
Definition truthy (a : num) : bool :=
  match a with
  | Fin x => if Req_dec_T x 0 then false else true
  | NaN => false
  | _ => true
  end.

(** [a || b] *)
Definition orElse (a b : num) : num := if truthy a then a else b.

Definition isFinite (a : num) : Prop :=
  match a with
  | Fin _ => True
  | _ => False
  end.

End JSNum.

(** ** The force simulation of the knowledge graph *)

Module Graph.

Import JSNum.
Open Scope R_scope.

Inductive NodeType : Type := employee | skill.

Definition sameType (a b : NodeType) : bool :=
  match a, b with
  | employee, employee | skill, skill => true
  | _, _ => false
  end.

(** The fields the simulation reads and writes; label, colour, radius and
    data serve the rendering only. *)
Record GraphNode : Type := {
  id : string;
  type : NodeType;
  x : num;
  y : num;
  vx : num;
  vy : num
}.

Record GraphEdge : Type := {
  source : string;
  target : string;
  proficiency : option num
}.

(** The canvas, when the reference holds one, with its pixel size. *)
Definition Canvas : Type := option (R * R).

Definition canvasWidth (canvas : Canvas) : num :=
  match canvas with
  | Some (w, _) => orElse (Fin w) (Fin 800)
  | None => Fin 800
  end.

Definition canvasHeight (canvas : Canvas) : num :=
  match canvas with
  | Some (_, h) => orElse (Fin h) (Fin 600)
  | None => Fin 600
  end.

Definition margin : num := Fin 40.
Definition maxVel : num := Fin 5.

(** [node.type === other.type ? 2500 : 1500] *)
Definition repulsionStrength (node other : GraphNode) : num :=
  if sameType (type node) (type other) then Fin 2500 else Fin 1500.

Definition distSq (node other : GraphNode) : num :=
  let dx := sub (x node) (x other) in
  let dy := sub (y node) (y other) in
  add (mul dx dx) (mul dy dy).

(** [const force = repulsionStrength / distSq] *)
Definition repulsionForce (node other : GraphNode) : num :=
  div (repulsionStrength node other) (distSq node other).

(** The body of the inner loop over the other nodes. *)
Definition repulsion (node other : GraphNode) (f : num * num) : num * num :=
  let dx := sub (x node) (x other) in
  let dy := sub (y node) (y other) in
  let dist := orElse (sqrt (distSq node other)) (Fin 1) in
  let force := repulsionForce node other in
  (add (fst f) (mul (div dx dist) force),
   add (snd f) (mul (div dy dist) force)).

(** [for (j = 0; j < nodes.length; j++) { if (i === j) continue; ... }],
    from index [j] on the rest [others] of the array. *)
Fixpoint repulsionLoop (i j : nat) (node : GraphNode) (others : list GraphNode)
    (f : num * num) : num * num :=
  match others with
  | [] => f
  | other :: rest =>
      repulsionLoop i (S j) node rest
        (if Nat.eqb i j then f else repulsion node other f)
  end.

Definition findNode (nodes : list GraphNode) (nodeId : string) : option GraphNode :=
  JSArray.find (fun n => String.eqb (id n) nodeId) nodes.

(** The body of the loop over the edges. *)
Definition attraction (nodes : list GraphNode) (node : GraphNode)
    (edge : GraphEdge) (f : num * num) : num * num :=
  if String.eqb (source edge) (id node) || String.eqb (target edge) (id node) then
    let otherId :=
      if String.eqb (source edge) (id node) then target edge else source edge in
    match findNode nodes otherId with
    | Some other =>
        let dx := sub (x other) (x node) in
        let dy := sub (y other) (y node) in
        let dist := orElse (sqrt (add (mul dx dx) (mul dy dy))) (Fin 1) in
        let prof :=
          match proficiency edge with
          | Some p => orElse p (Fin 3)
          | None => Fin 3
          end in
        let targetDist := sub (Fin 120) (mul prof (Fin 10)) in
        let force := mul (sub dist targetDist) (Fin 0.02) in
        (add (fst f) (mul (div dx dist) force),
         add (snd f) (mul (div dy dist) force))
    | None => f
    end
  else f.

(** One boundary test: [if (c < lo) { c = lo; v *= -0.5 }] and the
    symmetric one on the upper side. *)
Definition bounceLow (lo : num) (cv : num * num) : num * num :=
  if ltb (fst cv) lo then (lo, mul (snd cv) (Fin (-0.5))) else cv.

Definition bounceHigh (hi : num) (cv : num * num) : num * num :=
  if gtb (fst cv) hi then (hi, mul (snd cv) (Fin (-0.5))) else cv.

(** The body of the outer loop for a node that is not dragged. *)
Definition stepNode (canvas : Canvas) (nodes : list GraphNode)
    (edges : list GraphEdge) (i : nat) (node : GraphNode) : GraphNode :=
  let width := canvasWidth canvas in
  let height := canvasHeight canvas in
  let centerX := div width (Fin 2) in
  let centerY := div height (Fin 2) in
  let f0 := (mul (sub centerX (x node)) (Fin 0.0005),
             mul (sub centerY (y node)) (Fin 0.0005)) in
  let f1 := repulsionLoop i 0 node nodes f0 in
  let f2 := fold_left (fun f edge => attraction nodes node edge f) edges f1 in
  let vx1 := mul (add (vx node) (fst f2)) (Fin 0.85) in
  let vy1 := mul (add (vy node) (snd f2)) (Fin 0.85) in
  let vel := sqrt (add (mul vx1 vx1) (mul vy1 vy1)) in
  let vx2 := if gtb vel maxVel then mul (div vx1 vel) maxVel else vx1 in
  let vy2 := if gtb vel maxVel then mul (div vy1 vel) maxVel else vy1 in
  let x1 := add (x node) vx2 in
  let y1 := add (y node) vy2 in
  let '(x3, vx3) := bounceHigh (sub width margin) (bounceLow margin (x1, vx2)) in
  let '(y3, vy3) := bounceHigh (sub height margin) (bounceLow margin (y1, vy2)) in
  {| id := id node; type := type node; x := x3; y := y3; vx := vx3; vy := vy3 |}.

(** [nodes[i] = v] on an index inside the array. *)
Fixpoint update (i : nat) (v : GraphNode) (nodes : list GraphNode) : list GraphNode :=
  match nodes, i with
  | [], _ => []
  | _ :: rest, O => v :: rest
  | n :: rest, S i' => n :: update i' v rest
  end.

Definition isDragged (draggingNode : option string) (node : GraphNode) : bool :=
  match draggingNode with
  | Some d => String.eqb (id node) d
  | None => false
  end.

(** One turn of the outer loop.  The nodes are objects changed in place:
    the nodes after [i] see the new position of node [i]. *)
Definition stepAt (canvas : Canvas) (draggingNode : option string)
    (edges : list GraphEdge) (nodes : list GraphNode) (i : nat) : list GraphNode :=
  match nth_error nodes i with
  | Some node =>
      if isDragged draggingNode node then nodes
      else update i (stepNode canvas nodes edges i node) nodes
  | None => nodes
  end.

Definition simulateStep (canvas : Canvas) (draggingNode : option string)
    (edges : list GraphEdge) (nodes : list GraphNode) : list GraphNode :=
  match nodes with
  | [] => nodes
  | _ :: _ =>
      fold_left (stepAt canvas draggingNode edges) (seq 0 (List.length nodes)) nodes
  end.

(** The rectangle of the canvas inset by the margin. *)
Definition inBounds (canvas : Canvas) (node : GraphNode) : Prop :=
  match x node, y node, canvasWidth canvas, canvasHeight canvas with
  | Fin px, Fin py, Fin w, Fin h =>
      40 <= px <= w - 40 /\ 40 <= py <= h - 40
  | _, _, _, _ => False
  end.

End Graph.

(** ** A small store *)

Module Example.

Import Search.
Open Scope R_scope.
Open Scope string_scope.

(** Two skills along the query, one across it, one without embedding. *)
Definition python : Skill :=
  {| skill_id := "skill:python"; skill_name := "Python";
     skill_embedding := Some [1; 0] |}.
Definition ml : Skill :=
  {| skill_id := "skill:ml"; skill_name := "Machine Learning";
     skill_embedding := Some [1; 0] |}.
Definition sql : Skill :=
  {| skill_id := "skill:sql"; skill_name := "SQL";
     skill_embedding := Some [0; 1] |}.
Definition cooking : Skill :=
  {| skill_id := "skill:cooking"; skill_name := "Cooking";
     skill_embedding := None |}.

Definition alice : Employee :=
  {| employee_id := "employee:alice"; department := "Engineering";
     employee_embedding := None |}.
Definition bob : Employee :=
  {| employee_id := "employee:bob"; department := "Engineering";
     employee_embedding := Some [-1; 0] |}.
Definition carol : Employee :=
  {| employee_id := "employee:carol"; department := "Kitchen";
     employee_embedding := None |}.
Definition dave : Employee :=
  {| employee_id := "employee:dave"; department := "Engineering";
     employee_embedding := Some [1; 0; 0] |}.

Definition edge (emp : Employee) (s : Skill) (p : R) (cert : bool) : HasSkillEdge :=
  {| edge_in := employee_id emp; edge_out := skill_id s;
     proficiency := p; certified := cert |}.

Definition edgesFor (empId : string) : list HasSkillEdge :=
  if String.eqb empId "employee:alice" then
    [edge alice python 5 true; edge alice ml 5 false]
  else if String.eqb empId "employee:bob" then
    [edge bob sql 3 false; edge bob python 1 false]
  else if String.eqb empId "employee:carol" then
    [edge carol cooking 5 true]
  else if String.eqb empId "employee:dave" then
    [edge dave python 4 false]
  else [].

Definition store (skills : list Skill) (employees : list Employee) : Store :=
  {| skillTable := Ok (Items [Rows skills]);
     employeeTable := fun _ => Ok (Items [Rows employees]);
     hasSkillTable := fun empId => Ok (Items [Rows (edgesFor empId)]) |}.

(** A store whose employee and edge tables are out of reach. *)
Definition skillsOnly (skills : list Skill) : Store :=
  {| skillTable := Ok (Items [Rows skills]);
     employeeTable := fun _ => Throw (StoreFailure "employee");
     hasSkillTable := fun _ => Throw (StoreFailure "has_skill") |}.

Definition db : Store := store [sql; python; cooking; ml] [bob; carol; alice].

(** The same store with an employee whose embedding has another dimension. *)
Definition dbMixed : Store := store [sql; python; cooking; ml] [bob; dave; alice].

Definition provider (text : Embedding.jsstring) : Exc (list R) := Ok [1; 0].

Definition failingProvider (text : Embedding.jsstring) : Exc (list R) :=
  Throw (ProviderFailure "embedding").

Definition request : SemanticSearchQuery :=
  {| query := [112; 121]%Z; filters := None; limit := None |}.

Definition start : Trace := {| sent := []; logged := [] |}.

Definition relevantExample : list RelevantSkill :=
  [ {| rs_skill := python; relevance := 1 |};
    {| rs_skill := ml; relevance := 1 |} ].

Definition aliceMatch : CandidateMatch :=
  {| employee := alice;
     matchScore := 1.46;
     matchedSkills :=
       [ {| ms_skill := python; ms_proficiency := 5; ms_relevance := 1 |};
         {| ms_skill := ml; ms_proficiency := 5; ms_relevance := 1 |} ];
     semanticScore := 0.5;
     graphScore := 2.1 |}.

Definition bobMatch : CandidateMatch :=
  {| employee := bob;
     matchScore := -0.28;
     matchedSkills :=
       [ {| ms_skill := python; ms_proficiency := 1; ms_relevance := 1 |} ];
     semanticScore := -1;
     graphScore := 0.2 |}.

Definition result : SearchResult :=
  {| candidates := [aliceMatch; bobMatch];
     queryEmbedding := Some [1; 0];
     totalMatches := 2 |}.

Definition finish : Trace :=
  {| sent := [ SelectHasSkill "employee:alice"; SelectHasSkill "employee:carol";
               SelectHasSkill "employee:bob"; SelectEmployees None; SelectSkills ];
     logged := [] |}.

End Example.

(** ** A few nodes *)

Module GraphExample.

Import JSNum Graph.
Open Scope R_scope.
Open Scope string_scope.

Definition viewport : Canvas := Some (800, 600).

Definition place (name : string) (kind : NodeType) (px py : R) : GraphNode :=
  {| id := name; type := kind; x := Fin px; y := Fin py; vx := Fin 0; vy := Fin 0 |}.

(** Two employees a tenth of a unit apart. *)
Definition nearA : GraphNode := place "employee:a" employee 100.1 100.
Definition nearB : GraphNode := place "employee:b" employee 100 100.

(** An employee and a skill five units apart. *)
Definition farA : GraphNode := place "employee:a" employee 103 104.
Definition farB : GraphNode := place "skill:b" skill 100 100.

(** Two nodes on the corner of the margins, where the boundary rule
    puts every node that crosses both margins. *)
Definition cornerA : GraphNode := place "employee:a" employee 40 40.
Definition cornerB : GraphNode := place "skill:b" skill 40 40.

End GraphExample.

(** ** The embedding providers *)

Module Providers.

Import Embedding.
Open Scope string_scope.

(** [currentConfig]; an absent key and a key holding [undefined] read
    alike. *)
Record EmbeddingConfig : Type := {
  provider : option string;
  openaiApiKey : option string;
  openaiModel : option string;
  localModelPath : option string;
  ollamaHost : option string;
  ollamaModel : option string;
  ollamaDimensions : option R;
  ollamaTimeout : option R
}.

(** A [Partial<EmbeddingConfig>]: each key is absent, or present with a
    value that may be [undefined]. *)
Record PartialConfig : Type := {
  set_provider : option (option string);
  set_openaiApiKey : option (option string);
  set_openaiModel : option (option string);
  set_localModelPath : option (option string);
  set_ollamaHost : option (option string);
  set_ollamaModel : option (option string);
  set_ollamaDimensions : option (option R);
  set_ollamaTimeout : option (option R)
}.

(** One key of [{ ...currentConfig, ...config }]. *)
Definition spread (T : Type) (current : option T) (update : option (option T))
  : option T :=
  match update with
  | Some v => v
  | None => current
  end.

Definition setEmbeddingConfig (currentConfig : EmbeddingConfig)
    (config : PartialConfig) : EmbeddingConfig :=
  {| provider := spread (provider currentConfig) (set_provider config);
     openaiApiKey := spread (openaiApiKey currentConfig) (set_openaiApiKey config);
     openaiModel := spread (openaiModel currentConfig) (set_openaiModel config);
     localModelPath :=
       spread (localModelPath currentConfig) (set_localModelPath config);
     ollamaHost := spread (ollamaHost currentConfig) (set_ollamaHost config);
     ollamaModel := spread (ollamaModel currentConfig) (set_ollamaModel config);
     ollamaDimensions :=
       spread (ollamaDimensions currentConfig) (set_ollamaDimensions config);
     ollamaTimeout :=
       spread (ollamaTimeout currentConfig) (set_ollamaTimeout config) |}.

Definition getEmbeddingConfig (currentConfig : EmbeddingConfig) : EmbeddingConfig :=
  currentConfig.

(** [process.env.EMBEDDING_BINDING] selects the provider at load time. *)
Definition getDefaultProvider (binding : option string) : string :=
  match binding with
  | Some b =>
      if String.eqb b "ollama" then "ollama"
      else if String.eqb b "openai" then "openai"
      else if String.eqb b "local" then "local"
      else "mock"
  | None => "mock"
  end.

(** [a || b] on strings that may be [undefined]: the empty string is
    falsy. *)
Definition orString (a : option string) (b : string) : string :=
  match a with
  | Some s => if String.eqb s "" then b else s
  | None => b
  end.

Definition orOption (a b : option string) : option string :=
  match a with
  | Some s => if String.eqb s "" then b else a
  | None => b
  end.

(** What [fetch] resolves to, with the parsed body of the response. *)
Record HttpResponse (Body : Type) : Type := {
  ok : bool;
  statusText : string;
  json : Exc Body
}.

(** The input of the embeddings endpoint: one text or an array. *)
Inductive Input : Type :=
| One (text : jsstring)
| Many (texts : list jsstring).

(** What is read under the key [embedding] of a reply, and what a call
    typed [number[]] returns: a vector, or [undefined] when the reply
    holds no such key. *)
Definition Embedded : Type := option (list R).

(** The host: the case mapping of strings, the environment, and the two
    remote services.  [EMBEDDING_TIMEOUT] is the number that [parseInt]
    reads in the variable, or in ['300'] without it.  A service is asked
    with the key or host, the model and the input, the second one with
    the delay of its abort signal too; it fails (no network, abort) or
    answers.  The body of an answer parses or not; a body on which the
    reads of the code throw (no object, no list of items) counts with
    those that do not parse.  A parsed answer of the first service lists
    items with an index, each with its embedding or none; a parsed answer
    of the second one holds an embedding or none. *)
Record Host : Type := {
  toLowerCase : jsstring -> jsstring;
  EMBEDDING_BINDING_HOST : option string;
  EMBEDDING_MODEL : option string;
  EMBEDDING_TIMEOUT : R;
  openaiFetch : string -> string -> Input -> Exc (HttpResponse (list (Z * Embedded)));
  ollamaFetch : string -> string -> R -> jsstring -> Exc (HttpResponse Embedded)
}.

(** A value with the lines written to the console. *)
Definition Logged (A : Type) : Type := A * list string.

Record EmbeddingProvider : Type := {
  name : string;
  dimensions : nat;
  generate : Host -> EmbeddingConfig -> jsstring -> Logged Embedded;
  generateBatch : Host -> EmbeddingConfig -> list jsstring -> Logged (list Embedded)
}.

Definition MockProvider : EmbeddingProvider :=
  {| name := "Mock Embeddings";
     dimensions := Embedding.dimensions;
     generate :=
       fun host _ text => (Some (Embedding.generate (toLowerCase host) text), []);
     generateBatch :=
       fun host _ texts =>
         (map Some (Embedding.generateBatch (toLowerCase host) texts), []) |}.

Definition LocalProvider : EmbeddingProvider :=
  {| name := "Local Embeddings (transformers.js)";
     dimensions := 384;
     generate :=
       fun host config text =>
         (fst (generate MockProvider host config text),
          ["Local embeddings: @xenova/transformers not installed, using mock"]);
     generateBatch := fun host config texts => generateBatch MockProvider host config texts |}.

(** The [try] block of the single call: the response must be [ok], and
    what is returned is [data.data[0].embedding], the embedding of the
    first item or [undefined] when that item holds none. *)
Definition openaiSingle (host : Host) (key model : string) (text : jsstring)
  : Exc Embedded :=
  match openaiFetch host key model (One text) with
  | Throw e => Throw e
  | Ok response =>
      if negb (ok response) then
        Throw (ProviderFailure ("OpenAI API error: " ++ statusText response))
      else
        match json response with
        | Throw e => Throw e
        | Ok data =>
            match data with
            | item :: _ => Ok (snd item)
            | [] => Throw (ProviderFailure "TypeError")
            end
        end
  end.

(** The [try] block of the batch call: the items are sorted by index. *)
Definition openaiBatch (host : Host) (key model : string) (texts : list jsstring)
  : Exc (list Embedded) :=
  match openaiFetch host key model (Many texts) with
  | Throw e => Throw e
  | Ok response =>
      if negb (ok response) then
        Throw (ProviderFailure ("OpenAI API error: " ++ statusText response))
      else
        match json response with
        | Throw e => Throw e
        | Ok data =>
            Ok (map (fun item => snd item)
                  (JSArray.sort (fun a b => (IZR (fst a) - IZR (fst b))%R) data))
        end
  end.

(** The sort by [a.index - b.index] is a descending sort on the opposite
    of the index. *)
Definition indexKey (item : Z * Embedded) : R := (- IZR (fst item))%R.

Definition hasKey (config : EmbeddingConfig) : option string :=
  match openaiApiKey config with
  | Some k => if String.eqb k "" then None else Some k
  | None => None
  end.

Definition OpenAIProvider : EmbeddingProvider :=
  {| name := "OpenAI Embeddings";
     dimensions := 1536;
     generate :=
       fun host config text =>
         match hasKey config with
         | None =>
             (fst (generate MockProvider host config text),
              ["OpenAI API key not configured, falling back to mock"])
         | Some key =>
             match openaiSingle host key
                     (orString (openaiModel config) "text-embedding-3-small") text with
             | Ok v => (v, [])
             | Throw _ =>
                 (fst (generate MockProvider host config text),
                  ["OpenAI embedding generation failed:"])
             end
         end;
     generateBatch :=
       fun host config texts =>
         match hasKey config with
         | None =>
             (fst (generateBatch MockProvider host config texts),
              ["OpenAI API key not configured, falling back to mock"])
         | Some key =>
             match openaiBatch host key
                     (orString (openaiModel config) "text-embedding-3-small") texts with
             | Ok vs => (vs, [])
             | Throw _ =>
                 (fst (generateBatch MockProvider host config texts),
                  ["OpenAI batch embedding generation failed:"])
             end
         end |}.

(** The [try] block of the call to the second service: what is returned
    is [data.embedding]. *)
Definition ollamaSingle (host : Host) (config : EmbeddingConfig) (text : jsstring)
  : Exc Embedded :=
  let address :=
    orString (orOption (ollamaHost config) (EMBEDDING_BINDING_HOST host))
      "http://localhost:11434" in
  let model :=
    orString (orOption (ollamaModel config) (EMBEDDING_MODEL host)) "bge-m3:latest" in
  let timeout :=
    match ollamaTimeout config with
    | Some t => if Req_dec_T t 0 then (EMBEDDING_TIMEOUT host * 1000)%R else t
    | None => (EMBEDDING_TIMEOUT host * 1000)%R
    end in
  match ollamaFetch host address model timeout text with
  | Throw e => Throw e
  | Ok response =>
      if negb (ok response) then
        Throw (ProviderFailure ("Ollama API error: " ++ statusText response))
      else json response
  end.

Definition ollamaGenerate (host : Host) (config : EmbeddingConfig) (text : jsstring)
  : Logged Embedded :=
  match ollamaSingle host config text with
  | Ok v => (v, [])
  | Throw _ =>
      (fst (generate MockProvider host config text),
       ["Ollama embedding generation failed:"])
  end.

(** No batch endpoint: the texts are processed one after the other. *)
Fixpoint ollamaBatch (host : Host) (config : EmbeddingConfig) (texts : list jsstring)
    (embeddings : list Embedded) (log : list string) : Logged (list Embedded) :=
  match texts with
  | [] => (embeddings, log)
  | text :: rest =>
      let '(embedding, lines) := ollamaGenerate host config text in
      ollamaBatch host config rest (embeddings ++ [embedding]) (log ++ lines)
  end.

Definition OllamaProvider : EmbeddingProvider :=
  {| name := "Ollama Embeddings";
     dimensions := 1024;
     generate := ollamaGenerate;
     generateBatch := fun host config texts => ollamaBatch host config texts [] [] |}.

(** The keys of the object [providers]. *)
Definition knownProviders : list string := ["mock"; "local"; "openai"; "ollama"].

(** The members that the object [providers], a plain object, inherits
    from [Object.prototype]. *)
Definition inheritedMembers : list string :=
  ["constructor"; "__defineGetter__"; "__defineSetter__"; "hasOwnProperty";
   "__lookupGetter__"; "__lookupSetter__"; "isPrototypeOf";
   "propertyIsEnumerable"; "toString"; "valueOf"; "__proto__"; "toLocaleString"].

(** The property [name] of an inherited member: the functions carry
    theirs, [Object] for the constructor; the prototype that [__proto__]
    reads has none. *)
Definition memberName (member : string) : option string :=
  if String.eqb member "__proto__" then None
  else if String.eqb member "constructor" then Some "Object"
  else Some member.

(** What [providers[key]] reads: one of the four providers, a member
    inherited from the prototype, or [undefined]. *)
Inductive Looked : Type :=
| Own (p : EmbeddingProvider)
| Inherited (member : string)
| Absent.

(** [providers[currentConfig.provider]] *)
Definition getEmbeddingProvider (currentConfig : EmbeddingConfig) : Looked :=
  match provider currentConfig with
  | Some p =>
      if String.eqb p "mock" then Own MockProvider
      else if String.eqb p "local" then Own LocalProvider
      else if String.eqb p "openai" then Own OpenAIProvider
      else if String.eqb p "ollama" then Own OllamaProvider
      else if existsb (String.eqb p) inheritedMembers then Inherited p
      else Absent
  | None => Absent
  end.

(** A call on what is no provider throws: [undefined] has no property to
    read, and an inherited member has no method [generate] to call. *)
Definition generateEmbedding (host : Host) (currentConfig : EmbeddingConfig)
    (text : jsstring) : Exc (Logged Embedded) :=
  match getEmbeddingProvider currentConfig with
  | Own p => Ok (generate p host currentConfig text)
  | Inherited _ | Absent => Throw (ProviderFailure "TypeError")
  end.

Definition generateEmbeddings (host : Host) (currentConfig : EmbeddingConfig)
    (texts : list jsstring) : Exc (Logged (list Embedded)) :=
  match getEmbeddingProvider currentConfig with
  | Own p => Ok (generateBatch p host currentConfig texts)
  | Inherited _ | Absent => Throw (ProviderFailure "TypeError")
  end.

(** The property [dimensions] of what the lookup found: an inherited
    member has none and the read gives [undefined]. *)
Definition getEmbeddingDimensions (currentConfig : EmbeddingConfig)
  : Exc (option nat) :=
  match getEmbeddingProvider currentConfig with
  | Own p => Ok (Some (dimensions p))
  | Inherited _ => Ok None
  | Absent => Throw (ProviderFailure "TypeError")
  end.

End Providers.

(** ** A host without network *)

Module ProviderExample.

Import Embedding Providers.
Open Scope string_scope.

Definition offline : Host :=
  {| toLowerCase := asciiToLowerCase;
     EMBEDDING_BINDING_HOST := None;
     EMBEDDING_MODEL := None;
     EMBEDDING_TIMEOUT := 300;
     openaiFetch := fun _ _ _ => Throw (ProviderFailure "fetch failed");
     ollamaFetch := fun _ _ _ _ => Throw (ProviderFailure "fetch failed") |}.

Definition configOf (p : string) (key : option string) : EmbeddingConfig :=
  {| provider := Some p;
     openaiApiKey := key;
     openaiModel := None;
     localModelPath := None;
     ollamaHost := None;
     ollamaModel := None;
     ollamaDimensions := None;
     ollamaTimeout := None |}.

Definition rust : jsstring := [114; 117; 115; 116]%Z.

(** A service that lists the second item first. *)
Definition shuffled : Host :=
  {| toLowerCase := asciiToLowerCase;
     EMBEDDING_BINDING_HOST := None;
     EMBEDDING_MODEL := None;
     EMBEDDING_TIMEOUT := 300;
     openaiFetch :=
       fun _ _ _ =>
         Ok {| ok := true; statusText := "OK";
               json := Ok [ (1%Z, Some [0%R; 1%R]); (0%Z, Some [1%R; 0%R]) ] |};
     ollamaFetch := fun _ _ _ _ => Throw (ProviderFailure "fetch failed") |}.

(** A second service that answers without an embedding. *)
Definition bare : Host :=
  {| toLowerCase := asciiToLowerCase;
     EMBEDDING_BINDING_HOST := None;
     EMBEDDING_MODEL := None;
     EMBEDDING_TIMEOUT := 300;
     openaiFetch := fun _ _ _ => Throw (ProviderFailure "fetch failed");
     ollamaFetch :=
       fun _ _ _ _ => Ok {| ok := true; statusText := "OK"; json := Ok None |} |}.

End ProviderExample.

(** ** The route that serves embeddings *)

Module EmbedApi.

Import Embedding Providers.
Open Scope string_scope.

(** The body of a request, with its optional keys. *)
Record EmbedRequest : Type := {
  text : option jsstring;
  texts : option (list jsstring);
  req_provider : option string;
  req_openaiApiKey : option string
}.

Record Request : Type := {
  method : string;
  body : EmbedRequest
}.

(** The text of the key [error]: a literal, or the message of what was
    caught. *)
Inductive ErrorText : Type :=
| Literal (s : string)
| MessageOf (e : Error).

(** The status with the object sent as JSON.  A key whose value is
    [undefined] is left out of the JSON. *)
Record EmbedResponse : Type := {
  status : nat;
  embeddings : option (list Embedded);
  res_provider : option string;
  res_dimensions : option nat;
  error : option ErrorText
}.

(** The double quote, and the message that holds it. *)
Definition quote : string := String (Ascii.ascii_of_nat 34) EmptyString.

Definition noTextProvided : string :=
  "No text provided. Send " ++ quote ++ "text" ++ quote ++ " or " ++ quote
  ++ "texts" ++ quote ++ " in request body.".

(** [if (provider) { setEmbeddingConfig({ provider, openaiApiKey:
    openaiApiKey || process.env.OPENAI_API_KEY }) }]: the update holds the
    key [openaiApiKey] whatever its value is. *)
Definition configure (OPENAI_API_KEY : option string) (b : EmbedRequest)
    (currentConfig : EmbeddingConfig) : EmbeddingConfig :=
  match req_provider b with
  | Some p =>
      if String.eqb p "" then currentConfig
      else
        setEmbeddingConfig currentConfig
          {| set_provider := Some (Some p);
             set_openaiApiKey := Some (orOption (req_openaiApiKey b) OPENAI_API_KEY);
             set_openaiModel := None;
             set_localModelPath := None;
             set_ollamaHost := None;
             set_ollamaModel := None;
             set_ollamaDimensions := None;
             set_ollamaTimeout := None |}
  | None => currentConfig
  end.

(** [texts || (text ? [text] : [])]: an array is truthy, also an empty
    one; the empty string is not. *)
Definition inputTexts (b : EmbedRequest) : list jsstring :=
  match texts b with
  | Some l => l
  | None =>
      match text b with
      | Some t => if (List.length t =? 0)%nat then [] else [t]
      | None => []
      end
  end.

(** [currentProvider.name] and [currentProvider.dimensions]: the read
    throws on [undefined]; an inherited member has its own name, if any,
    and no dimensions. *)
Definition nameOf (currentProvider : Looked) : Exc (option string) :=
  match currentProvider with
  | Own p => Ok (Some (name p))
  | Inherited member => Ok (memberName member)
  | Absent => Throw (ProviderFailure "TypeError")
  end.

Definition dimensionsOf (currentProvider : Looked) : Exc (option nat) :=
  match currentProvider with
  | Own p => Ok (Some (dimensions p))
  | Inherited _ => Ok None
  | Absent => Throw (ProviderFailure "TypeError")
  end.

(** The [try] block, after the configuration.  The lines written to the
    console by the providers are left out: the calls run concurrently
    and the order of their lines is the host's. *)
Definition respond (host : Host) (currentConfig : EmbeddingConfig) (b : EmbedRequest)
  : Exc EmbedResponse :=
  let currentProvider := getEmbeddingProvider currentConfig in
  let inputs := inputTexts b in
  if (List.length inputs =? 0)%nat then
    match nameOf currentProvider with
    | Throw e => Throw e
    | Ok providerName =>
        match dimensionsOf currentProvider with
        | Throw e => Throw e
        | Ok dims =>
            Ok {| status := 400;
                  embeddings := None;
                  res_provider := providerName;
                  res_dimensions := dims;
                  error := Some (Literal noTextProvided) |}
        end
    end
  else
    match Search.mapExc (fun t => generateEmbedding host currentConfig t) inputs with
    | Throw e => Throw e
    | Ok results =>
        match nameOf currentProvider with
        | Throw e => Throw e
        | Ok providerName =>
            match dimensionsOf currentProvider with
            | Throw e => Throw e
            | Ok dims =>
                Ok {| status := 200;
                      embeddings := Some (map fst results);
                      res_provider := providerName;
                      res_dimensions := dims;
                      error := None |}
            end
        end
    end.

(** The handler: the response, and the configuration it leaves to the
    next request. *)
Definition handler (host : Host) (OPENAI_API_KEY : option string) (req : Request)
    (currentConfig : EmbeddingConfig) : EmbedResponse * EmbeddingConfig :=
  if negb (String.eqb (method req) "POST") then
    ({| status := 405; embeddings := None; res_provider := Some "";
        res_dimensions := Some 0%nat;
        error := Some (Literal "Method not allowed") |},
     currentConfig)
  else
    let config := configure OPENAI_API_KEY (body req) currentConfig in
    match respond host config (body req) with
    | Ok response => (response, config)
    | Throw e =>
        ({| status := 500; embeddings := None; res_provider := Some "";
            res_dimensions := Some 0%nat; error := Some (MessageOf e) |},
         config)
    end.

End EmbedApi.

(** ** Requests for embeddings *)

Module EmbedApiExample.

Import Embedding Providers EmbedApi.
Open Scope string_scope.

(** A request that names a provider and brings a text. *)
Definition naming (p : string) : Request :=
  {| method := "POST";
     body := {| text := Some ProviderExample.rust; texts := None;
                req_provider := Some p; req_openaiApiKey := None |} |}.

(** A request that brings the same text and names no provider. *)
Definition plain : Request :=
  {| method := "POST";
     body := {| text := Some ProviderExample.rust; texts := None;
                req_provider := None; req_openaiApiKey := None |} |}.

(** A request that brings nothing. *)
Definition silent : Request :=
  {| method := "POST";
     body := {| text := None; texts := None;
                req_provider := None; req_openaiApiKey := None |} |}.

End EmbedApiExample.

(** ** The settings of the embeddings *)

Module EmbeddingSettings.

Import Embedding Providers.
Open Scope string_scope.

(** The state of the form: the provider and the key typed in. *)
Record Form : Type := {
  provider : option string;
  apiKey : string
}.

(** The effect that fills the form when it mounts:
    [setProvider(config.provider); setApiKey(config.openaiApiKey || '')]. *)
Definition load (currentConfig : EmbeddingConfig) : Form :=
  let config := getEmbeddingConfig currentConfig in
  {| provider := Providers.provider config;
     apiKey := orString (openaiApiKey config) "" |}.

(** [setEmbeddingConfig({ provider, openaiApiKey: apiKey || undefined })] *)
Definition handleSave (form : Form) (currentConfig : EmbeddingConfig)
  : EmbeddingConfig :=
  setEmbeddingConfig currentConfig
    {| set_provider := Some (provider form);
       set_openaiApiKey :=
         Some (if String.eqb (apiKey form) "" then None else Some (apiKey form));
       set_openaiModel := None;
       set_localModelPath := None;
       set_ollamaHost := None;
       set_ollamaModel := None;
       set_ollamaDimensions := None;
       set_ollamaTimeout := None |}.

End EmbeddingSettings.

(** ** The other queries on skills and candidates *)

Module Hooks.

Import Embedding Search.
Open Scope R_scope.

(** The statements these functions send. *)
Inductive Statement : Type :=
| SkillsWithEmbedding
| CandidatesForProject (projectId : string).

(** A row of the grouped query on the candidates of a project. *)
Record ProjectRow : Type := {
  row_employee : Employee;
  matched_skill_ids : list string;
  total_proficiency : R;
  matched_count : R
}.

Record Db : Type := {
  skillsWithEmbedding : Exc (Response Skill);
  candidatesForProject : string -> Exc (Response ProjectRow)
}.

(** What a run leaves behind: the texts given to the provider, the
    statements sent and the errors written to the console, the last one
    first. *)
Record Log : Type := {
  embedded : list jsstring;
  asked : list Statement;
  errors : list Error
}.

Definition H (A : Type) : Type := Log -> Exc A * Log.

Definition pure (A : Type) (a : A) : H A := fun l => (Ok a, l).

Definition andThen (A B : Type) (m : H A) (k : A -> H B) : H B :=
  fun l =>
    match m l with
    | (Ok a, l') => k a l'
    | (Throw e, l') => (Throw e, l')
    end.

Definition fromExc (A : Type) (r : Exc A) : H A := fun l => (r, l).

Definition catch (A : Type) (body : H A) (handler : Error -> H A) : H A :=
  fun l =>
    match body l with
    | (Ok a, l') => (Ok a, l')
    | (Throw e, l') => handler e l'
    end.

(** The three writes to the log. *)
Definition logError (e : Error) (l : Log) : Log :=
  {| embedded := embedded l; asked := asked l; errors := e :: errors l |}.

Definition logEmbed (text : jsstring) (l : Log) : Log :=
  {| embedded := text :: embedded l; asked := asked l; errors := errors l |}.

Definition logAsk (s : Statement) (l : Log) : Log :=
  {| embedded := embedded l; asked := s :: asked l; errors := errors l |}.

Definition consoleError (e : Error) : H unit :=
  fun l => (Ok tt, logError e l).

Definition embed (generateEmbedding : jsstring -> Exc (list R)) (text : jsstring)
  : H (list R) :=
  fun l => (generateEmbedding text, logEmbed text l).

Definition ask (A : Type) (s : Statement) (answer : Exc A) : H A :=
  fun l => (answer, logAsk s l).

Notation "x <~ m ;; k" := (andThen m (fun x => k))
  (at level 61, m at next level, right associativity).

(** [skill.embedding && skill.embedding.length > 0] *)
Definition hasEmbedding (s : Skill) : bool :=
  match skill_embedding s with
  | Some (_ :: _) => true
  | _ => false
  end.

(** The callback of [map]: the skill with its score.  It is applied to
    skills that passed the test above. *)
Definition scoreSkill (queryEmbedding : list R) (s : Skill) : Exc (Skill * R) :=
  match skill_embedding s with
  | Some e =>
      match cosineSimilarity queryEmbedding e with
      | Ok r => Ok (s, r)
      | Throw err => Throw err
      end
  | None => Throw (ProviderFailure "TypeError")
  end.

Definition byScore (a b : Skill * R) : R := snd b - snd a.

Section SemanticSkillSearch.

Variable generateEmbedding : jsstring -> Exc (list R).
Variable db : Db.

(** The [queryFn] of [useSemanticSkillSearch]; [limit] is 10 when the
    caller gives none. *)
Definition semanticSkillSearch (query : option jsstring) (limit : option Z)
  : H (list (Skill * R)) :=
  let limit := match limit with Some n => n | None => 10%Z end in
  match query with
  | None | Some [] => pure []
  | Some text =>
      catch
        (queryEmbedding <~ embed generateEmbedding text ;;
         result <~ ask SkillsWithEmbedding (skillsWithEmbedding db) ;;
         let skills := extractQueryResult result in
         scored <~ fromExc (mapExc (scoreSkill queryEmbedding)
                              (filter hasEmbedding skills)) ;;
         pure (JSArray.slice0
                 (JSArray.sort byScore
                    (filter (fun s => Rgtb (snd s) 0.5) scored))
                 limit))
        (fun error => _ <~ consoleError error ;; pure [])
  end.



End SemanticSkillSearch.

End Hooks.

(** ** A store with a skill not embedded yet *)

Module HookExample.

Import Search Example Hooks.
Open Scope R_scope.
Open Scope string_scope.

(** A skill whose embedding is the empty array. *)
Definition blank : Skill :=
  {| skill_id := "skill:blank"; skill_name := "Blank";
     skill_embedding := Some [] |}.

Definition rows : Response Skill := Items [Rows [python; blank; sql]].

Definition db : Db :=
  {| skillsWithEmbedding := Ok rows;
     candidatesForProject :=
       fun _ =>
         Ok (Items [Rows [ {| row_employee := alice;
                              matched_skill_ids := ["skill:python"; "skill:ml"];
                              total_proficiency := 10;
                              matched_count := 2 |};
                           {| row_employee := bob;
                              matched_skill_ids := ["skill:python"];
                              total_proficiency := 1;
                              matched_count := 1 |} ]]) |}.

Definition blankStore : Store := store [python; blank; ml] [bob; carol; alice].

Definition empty : Log := {| embedded := []; asked := []; errors := [] |}.

End HookExample.

(** ** The view of the knowledge graph *)

Module Viewer.

Import JSNum Graph.
Open Scope R_scope.

(** *** Edges and the nodes they name *)

(** Some node carries the identifier. *)
Definition present (nodes : list GraphNode) (nodeId : string) : bool :=
  existsb (fun n => String.eqb (id n) nodeId) nodes.

(** Both ends of the edge are among the nodes. *)
Definition attached (nodes : list GraphNode) (edge : GraphEdge) : bool :=
  present nodes (source edge) && present nodes (target edge).

(** *** The state of the component *)

(** The values of [useState] and of [isSimulatingRef].  A handler reads
    the state of the render that bound it; here each update of the state
    is in place before the next event. *)
Record View : Type := {
  zoom : R;
  pan : R * R;
  selectedNode : option GraphNode;
  draggingNode : option string;
  isSimulating : bool
}.

(** The state at the first render. *)
Definition initialView : View :=
  {| zoom := 1; pan := (0, 0); selectedNode := None; draggingNode := None;
     isSimulating := true |}.

(** The buttons. *)
Definition zoomIn (v : View) : View :=
  {| zoom := Rmin (zoom v * 1.2) 3; pan := pan v; selectedNode := selectedNode v;
     draggingNode := draggingNode v; isSimulating := isSimulating v |}.

Definition zoomOut (v : View) : View :=
  {| zoom := Rmax (zoom v / 1.2) 0.5; pan := pan v; selectedNode := selectedNode v;
     draggingNode := draggingNode v; isSimulating := isSimulating v |}.

Definition resetView (v : View) : View :=
  {| zoom := 1; pan := (0, 0); selectedNode := selectedNode v;
     draggingNode := draggingNode v; isSimulating := isSimulating v |}.

Definition toggleSimulation (v : View) : View :=
  {| zoom := zoom v; pan := pan v; selectedNode := selectedNode v;
     draggingNode := draggingNode v; isSimulating := negb (isSimulating v) |}.

Definition handleMouseUp (v : View) : View :=
  {| zoom := zoom v; pan := pan v; selectedNode := selectedNode v;
     draggingNode := None; isSimulating := isSimulating v |}.

(** *** The transform of the drawing context *)

(** The current transform of a 2D context that was only translated and
    scaled: the point [(x, y)] is drawn at [(sx * x + tx, sy * y + ty)]. *)
Record Transform : Type := {
  sx : R;
  sy : R;
  tx : R;
  ty : R
}.

Definition identity : Transform := {| sx := 1; sy := 1; tx := 0; ty := 0 |}.

(** [ctx.translate(dx, dy)] and [ctx.scale(kx, ky)] multiply the current
    transform on the right. *)
Definition translate (dx dy : R) (m : Transform) : Transform :=
  {| sx := sx m; sy := sy m; tx := tx m + sx m * dx; ty := ty m + sy m * dy |}.

Definition scale (kx ky : R) (m : Transform) : Transform :=
  {| sx := sx m * kx; sy := sy m * ky; tx := tx m; ty := ty m |}.

Definition draw (m : Transform) (p : R * R) : R * R :=
  (sx m * fst p + tx m, sy m * snd p + ty m).

(** The three calls of [render] after [ctx.save()]. *)
Definition renderTransform (v : View) (width height : R) : Transform :=
  translate (- width / 2) (- height / 2)
    (scale (zoom v) (zoom v)
       (translate (fst (pan v) + width / 2) (snd (pan v) + height / 2) identity)).

(** *** The pointer *)

(** The rectangle of the canvas on the page, and the position of a mouse
    event. *)
Record Rect : Type := {
  left : R;
  top : R;
  rectWidth : R;
  rectHeight : R
}.

Record MouseEvent : Type := {
  clientX : R;
  clientY : R
}.

(** The position of the event on the canvas. *)
Definition canvasPoint (width height : R) (rect : Rect) (e : MouseEvent) : num * num :=
  let scaleX := div (Fin width) (Fin (rectWidth rect)) in
  let scaleY := div (Fin height) (Fin (rectHeight rect)) in
  (mul (sub (Fin (clientX e)) (Fin (left rect))) scaleX,
   mul (sub (Fin (clientY e)) (Fin (top rect))) scaleY).

(** [(canvasX - pan.x - canvas.width / 2) / zoom + canvas.width / 2] *)
Definition worldPoint (v : View) (width height : R) (c : num * num) : num * num :=
  (add (div (sub (sub (fst c) (Fin (fst (pan v)))) (div (Fin width) (Fin 2)))
          (Fin (zoom v)))
       (div (Fin width) (Fin 2)),
   add (div (sub (sub (snd c) (Fin (snd (pan v)))) (div (Fin height) (Fin 2)))
          (Fin (zoom v)))
       (div (Fin height) (Fin 2))).

(** The field [radius] of a node: the component gives 28 to the nodes of
    employees and 22 to the nodes of skills, and never changes it. *)
Definition radius (node : GraphNode) : R :=
  match type node with
  | employee => 28
  | skill => 22
  end.

(** [dx * dx + dy * dy < node.radius * node.radius] *)
Definition hit (world : num * num) (node : GraphNode) : bool :=
  let dx := sub (fst world) (x node) in
  let dy := sub (snd world) (y node) in
  ltb (add (mul dx dx) (mul dy dy)) (Fin (radius node * radius node)).

Definition handleMouseDown (canvas : Canvas) (rect : Rect) (nodes : list GraphNode)
    (e : MouseEvent) (v : View) : View :=
  match canvas with
  | None => v
  | Some (width, height) =>
      let world := worldPoint v width height (canvasPoint width height rect e) in
      match JSArray.find (hit world) nodes with
      | Some node =>
          {| zoom := zoom v; pan := pan v; selectedNode := Some node;
             draggingNode := Some (id node); isSimulating := isSimulating v |}
      | None =>
          {| zoom := zoom v; pan := pan v; selectedNode := None;
             draggingNode := draggingNode v; isSimulating := isSimulating v |}
      end
  end.

(** The assignment to the first node that carries the identifier. *)
Fixpoint moveNode (nodeId : string) (world : num * num) (nodes : list GraphNode)
  : list GraphNode :=
  match nodes with
  | [] => []
  | n :: rest =>
      if String.eqb (id n) nodeId then
        {| id := id n; type := type n; x := fst world; y := snd world;
           vx := Fin 0; vy := Fin 0 |} :: rest
      else n :: moveNode nodeId world rest
  end.

Definition handleMouseMove (canvas : Canvas) (rect : Rect) (e : MouseEvent)
    (v : View) (nodes : list GraphNode) : list GraphNode :=
  match draggingNode v with
  | None => nodes
  | Some dragged =>
      if String.eqb dragged EmptyString then nodes
      else
        match canvas with
        | None => nodes
        | Some (width, height) =>
            moveNode dragged
              (worldPoint v width height (canvasPoint width height rect e)) nodes
        end
  end.

(** *** The animation loop *)

(** The variable [lastTime] of the effect, with the times of the frames
    drawn so far (the last one first) and the nodes. *)
Record Loop : Type := {
  lastTime : R;
  frames : list R;
  world : list GraphNode
}.

(** The effect starts with [lastTime = 0]. *)
Definition startLoop (nodes : list GraphNode) : Loop :=
  {| lastTime := 0; frames := []; world := nodes |}.

(** One call of [animate] by the host, at [time]; [simulating] is the
    value of [isSimulatingRef] at the call.  The dragged identifier is the
    one of the render that started the effect. *)
Definition animate (canvas : Canvas) (draggingNode : option string)
    (edges : list GraphEdge) (l : Loop) (call : R * bool) : Loop :=
  let '(time, simulating) := call in
  if Rle_dec 16 (time - lastTime l) then
    {| lastTime := time;
       frames := time :: frames l;
       world := if simulating
                then simulateStep canvas draggingNode edges (world l)
                else world l |}
  else l.

(** The calls of one run of the effect, in order. *)
Definition runLoop (canvas : Canvas) (draggingNode : option string)
    (edges : list GraphEdge) (calls : list (R * bool)) (nodes : list GraphNode)
  : Loop :=
  fold_left (animate canvas draggingNode edges) calls (startLoop nodes).

(** A frame is at least 16 after a frame before it. *)
Definition spaced (later earlier : R) : Prop := earlier + 16 <= later.

(** *** The first layout *)

(** [employees.forEach((emp, i) => ...)] and [skills.forEach(...)]: the
    node of the element at index [i] of [n], placed around
    [(centerX + shift, centerY)] at a distance of [base] to
    [base + extra].  [random k] is the [k]-th number drawn from
    [Math.random()]; a node takes four, from [first] on. *)
Definition placeNode (width height : R) (random : nat -> R) (kind : NodeType)
    (shift base extra : R) (n i first : nat) (nodeId : string) : GraphNode :=
  let centerX := width / 2 in
  let centerY := height / 2 in
  let angle := INR i / INR n * PI * 2 + random first * 0.5 in
  let radius := base + random (first + 1)%nat * extra in
  {| id := nodeId; type := kind;
     x := Fin (centerX + shift + cos angle * radius);
     y := Fin (centerY + sin angle * radius);
     vx := Fin ((random (first + 2)%nat - 0.5) * 2);
     vy := Fin ((random (first + 3)%nat - 0.5) * 2) |}.

Fixpoint placeNodes (width height : R) (random : nat -> R) (kind : NodeType)
    (shift base extra : R) (n i first : nat) (ids : list string)
  : list GraphNode :=
  match ids with
  | [] => []
  | nodeId :: rest =>
      placeNode width height random kind shift base extra n i first nodeId
      :: placeNodes width height random kind shift base extra n (S i)
           (first + 4)%nat rest
  end.

(** The effect that creates the nodes; [current] is the array before it. *)
Definition createNodes (canvas : Canvas) (random : nat -> R)
    (employees : list Search.Employee) (skills : list Search.Skill)
    (current : list GraphNode) : list GraphNode :=
  if ((List.length employees =? 0) && (List.length skills =? 0))%nat then current
  else
    match canvas with
    | None => current
    | Some (width, height) =>
        placeNodes width height random employee (-100) 100 80
          (List.length employees) 0 0 (map Search.employee_id employees)
        ++ placeNodes width height random skill 100 120 100
             (List.length skills) 0 (4 * List.length employees)
             (map Search.skill_id skills)
    end.

(** *** The views the handlers lead to *)

Inductive reachable : View -> Prop :=
| reach_initial : reachable initialView
| reach_toggle (v : View) : reachable v -> reachable (toggleSimulation v)
| reach_zoomIn (v : View) : reachable v -> reachable (zoomIn v)
| reach_zoomOut (v : View) : reachable v -> reachable (zoomOut v)
| reach_reset (v : View) : reachable v -> reachable (resetView v)
| reach_up (v : View) : reachable v -> reachable (handleMouseUp v)
| reach_down (canvas : Canvas) (rect : Rect) (nodes : list GraphNode)
    (e : MouseEvent) (v : View) :
    reachable v -> reachable (handleMouseDown canvas rect nodes e v).

(** *** The label of a node *)

(** The label drawn in a node: names over 10 code units for an employee,
    over 8 for a skill, are cut and followed by two dots. *)
Definition drawnLabel (kind : NodeType) (label : Embedding.jsstring)
  : Embedding.jsstring :=
  let maxLen := match kind with employee => 10%nat | skill => 8%nat end in
  if (maxLen <? List.length label)%nat then firstn maxLen label ++ [46%Z; 46%Z]
  else label.

End Viewer.

(** ** A pointer on the page *)

Module ViewerExample.

Import JSNum Graph Viewer.
Open Scope R_scope.

(** The canvas shown at its own size in the corner of the page. *)
Definition page : Rect :=
  {| left := 0; top := 0; rectWidth := 800; rectHeight := 600 |}.

Definition pointer (px py : R) : MouseEvent := {| clientX := px; clientY := py |}.

Definition scene : list GraphNode := [GraphExample.farA; GraphExample.farB].

(** The calls of the host at these times, the simulation running. *)
Definition calls : list (R * bool) :=
  [(10, true); (20, true); (30, true); (36, true); (52, false)].

End ViewerExample.

(** Decide the comparisons of real constants met by a computation. *)
Ltac decide_reals :=
  repeat
    (match goal with
     | |- context [Rlt_dec ?a ?b] =>
         destruct (Rlt_dec a b); [try (exfalso; lra) | try (exfalso; lra)]
     | |- context [Rle_dec ?a ?b] =>
         destruct (Rle_dec a b); [try (exfalso; lra) | try (exfalso; lra)]
     | |- context [Req_dec_T ?a ?b] =>
         destruct (Req_dec_T a b); [try (exfalso; lra) | try (exfalso; lra)]
     end; cbv iota beta).

(** * Properties *)

(** ** Cosine similarity *)

Section CosineSimilarity.

Import Embedding.
Open Scope R_scope.

Lemma cosineLoop_dot (a : list R) :
  forall (b : list R) (d na nb : R),
    List.length a = List.length b ->
    cosineLoop a b d na nb = (d + dot a b, na + dot a a, nb + dot b b).
Proof.
  induction a as [|x a IH]; intros [|y b] d na nb Hlen; simpl in *;
    try discriminate.
  - f_equal; [f_equal|]; lra.
  - rewrite IH by lia. f_equal; [f_equal|]; lra.
Qed.

Lemma dot_self_nonneg (a : list R) : 0 <= dot a a.
Proof.
  induction a as [|x a IH]; simpl; [lra|].
  pose proof (Rle_0_sqr x) as Hx. unfold Rsqr in Hx. lra.
Qed.

(** Cauchy-Schwarz on arrays. *)
Lemma dot_sqr_le (a : list R) :
  forall b : list R, dot a b * dot a b <= dot a a * dot b b.
Proof.
  induction a as [|x a IH]; intros [|y b]; simpl; try lra.
  specialize (IH b).
  pose proof (dot_self_nonneg a) as HA.
  pose proof (dot_self_nonneg b) as HB.
  set (d := dot a b) in *. set (A := dot a a) in *. set (B := dot b b) in *.
  assert (Hmix : 2 * (x * y * d) <= x * x * B + A * (y * y)).
  { destruct (Req_dec_T A 0) as [HA0|HA0].
    - assert (Hdd : d * d = 0).
      { pose proof (Rle_0_sqr d) as Hd0. unfold Rsqr in Hd0.
        rewrite HA0 in IH. lra. }
      assert (Hd : d = 0).
      { apply Rmult_integral in Hdd. tauto. }
      rewrite Hd, HA0. nra.
    - assert (HApos : 0 < A) by lra.
      pose proof (Rle_0_sqr (A * y - d * x)) as Hsq. unfold Rsqr in Hsq.
      assert (Hmul : A * (2 * (x * y * d)) <= A * (x * x * B + A * (y * y))).
      { nra. }
      apply Rmult_le_reg_l with (r := A); assumption. }
  nra.
Qed.

Lemma norm_nonneg (a : list R) : 0 <= norm a.
Proof. apply sqrt_pos. Qed.

Lemma norm_zero_iff (a : list R) : norm a = 0 <-> dot a a = 0.
Proof.
  unfold norm. split; intros H.
  - apply sqrt_eq_0; [apply dot_self_nonneg | exact H].
  - rewrite H. apply sqrt_0.
Qed.

Lemma abs_dot_le_norms (a b : list R) : Rabs (dot a b) <= norm a * norm b.
Proof.
  unfold norm. rewrite <- sqrt_mult_alt by apply dot_self_nonneg.
  rewrite <- sqrt_Rsqr_abs. apply sqrt_le_1_alt. unfold Rsqr.
  apply dot_sqr_le.
Qed.

Lemma cosineSimilarity_equal_length (a b : list R) :
  List.length a = List.length b ->
  cosineSimilarity a b =
    Ok (if Req_dec_T (norm a * norm b) 0 then 0
        else dot a b / (norm a * norm b)).
Proof.
  intros Hlen. unfold cosineSimilarity.
  rewrite Hlen, Nat.eqb_refl. simpl.
  rewrite cosineLoop_dot by exact Hlen.
  rewrite !Rplus_0_l. reflexivity.
Qed.

Lemma cosineSimilarity_range (a b : list R) (r : R) :
  cosineSimilarity a b = Ok r -> -1 <= r <= 1.
Proof.
  unfold cosineSimilarity.
  destruct (Nat.eqb (List.length a) (List.length b)) eqn:Hlen; simpl;
    [|discriminate].
  apply Nat.eqb_eq in Hlen.
  rewrite cosineLoop_dot by exact Hlen. rewrite !Rplus_0_l.
  fold (norm a) (norm b).
  intros H. injection H as <-.
  destruct (Req_dec_T (norm a * norm b) 0) as [_|Hm]; [lra|].
  pose proof (abs_dot_le_norms a b) as Habs.
  pose proof (norm_nonneg a) as Hna. pose proof (norm_nonneg b) as Hnb.
  assert (Hpos : 0 < norm a * norm b) by nra.
  assert (Hdot : - (norm a * norm b) <= dot a b <= norm a * norm b).
  { unfold Rabs in Habs. destruct (Rcase_abs (dot a b)); lra. }
  clear Habs. rename Hdot into Habs.
  split.
  - apply Rmult_le_reg_r with (r := norm a * norm b); [exact Hpos|].
    unfold Rdiv. rewrite Rmult_assoc, Rinv_l by exact Hm. lra.
  - apply Rmult_le_reg_r with (r := norm a * norm b); [exact Hpos|].
    unfold Rdiv. rewrite Rmult_assoc, Rinv_l by exact Hm. lra.
Qed.

(** C6. [cosineSimilarity] throws the dimension error exactly when the
    two arrays differ in length.  On arrays of one length it returns
    the dot product divided by the product of the norms, and it returns
    0 as soon as one norm is zero: no division by zero takes place. *)
Theorem cosineSimilarity_correct (a b : list R) :
  ((exists e, cosineSimilarity a b = Throw e) <->
     List.length a <> List.length b) /\
  (List.length a <> List.length b ->
     cosineSimilarity a b =
       Throw (DimensionMismatch (List.length a) (List.length b))) /\
  (List.length a = List.length b -> norm a <> 0 -> norm b <> 0 ->
     cosineSimilarity a b = Ok (dot a b / (norm a * norm b))) /\
  (List.length a = List.length b -> norm a = 0 \/ norm b = 0 ->
     cosineSimilarity a b = Ok 0).
Proof.
  assert (Hthrow : List.length a <> List.length b ->
            cosineSimilarity a b =
              Throw (DimensionMismatch (List.length a) (List.length b))).
  { intros Hne. unfold cosineSimilarity.
    apply Nat.eqb_neq in Hne. rewrite Hne. reflexivity. }
  split; [|split; [exact Hthrow|split]].
  - split.
    + intros [e He] Heq.
      rewrite (cosineSimilarity_equal_length _ _ Heq) in He. discriminate.
    + intros Hne. eexists. apply Hthrow, Hne.
  - intros Hlen Ha Hb. rewrite (cosineSimilarity_equal_length _ _ Hlen).
    destruct (Req_dec_T (norm a * norm b) 0) as [Hz|_]; [|reflexivity].
    apply Rmult_integral in Hz. tauto.
  - intros Hlen Hz. rewrite (cosineSimilarity_equal_length _ _ Hlen).
    destruct (Req_dec_T (norm a * norm b) 0) as [_|Hnz]; [reflexivity|].
    exfalso. apply Hnz. destruct Hz as [-> | ->]; lra.
Qed.

Lemma cosineSimilarity_correct_witness :
  cosineSimilarity [3; 4] [4; 3] = Ok (dot [3; 4] [4; 3] / (norm [3; 4] * norm [4; 3]))
  /\ cosineSimilarity [0; 0] [4; 3] = Ok 0
  /\ cosineSimilarity [3; 4] [4] = Throw (DimensionMismatch 2 1).
Proof.
  assert (Hpos : forall u v : R, 0 < u * u + (v * v + 0) ->
                   R_sqrt.sqrt (u * u + (v * v + 0)) <> 0).
  { intros u v H. apply Rgt_not_eq, sqrt_lt_R0, H. }
  split; [|split].
  - apply (proj1 (proj2 (proj2 (cosineSimilarity_correct [3; 4] [4; 3])))).
    + reflexivity.
    + unfold norm; simpl. apply Hpos. lra.
    + unfold norm; simpl. apply Hpos. lra.
  - apply (proj2 (proj2 (proj2 (cosineSimilarity_correct [0; 0] [4; 3])))).
    + reflexivity.
    + left. unfold norm; simpl.
      replace (0 * 0 + (0 * 0 + 0)) with 0 by lra. apply sqrt_0.
  - apply (proj1 (proj2 (cosineSimilarity_correct [3; 4] [4]))).
    simpl. lia.
Defined.

End CosineSimilarity.

(** ** Sorting and slicing *)

Section SortFacts.

Open Scope R_scope.

Variable A : Type.
Variable key : A -> R.

Lemma insertSorted_perm (x : A) (l : list A) :
  Permutation (JSArray.insertSorted (JSArray.byKey key) x l) (x :: l).
Proof.
  induction l as [|y l IH]; simpl; [reflexivity|].
  destruct (Rle_dec (JSArray.byKey key x y) 0); [reflexivity|].
  rewrite IH. apply perm_swap.
Qed.

Lemma sort_perm (l : list A) :
  Permutation (JSArray.sort (JSArray.byKey key) l) l.
Proof.
  induction l as [|x l IH]; simpl; [reflexivity|].
  unfold JSArray.sort in IH. rewrite insertSorted_perm. now constructor.
Qed.

Lemma sort_length (l : list A) :
  List.length (JSArray.sort (JSArray.byKey key) l) = List.length l.
Proof. apply Permutation_length, sort_perm. Qed.

Lemma insertSorted_sorted (x : A) (l : list A) :
  StronglySorted (JSArray.descending key) l ->
  StronglySorted (JSArray.descending key)
    (JSArray.insertSorted (JSArray.byKey key) x l).
Proof.
  induction 1 as [|y l Hs IH Hy]; simpl.
  - repeat constructor.
  - destruct (Rle_dec (JSArray.byKey key x y) 0) as [Hle|Hgt];
      unfold JSArray.byKey in *.
    + constructor; [now constructor|].
      constructor; [unfold JSArray.descending; lra|].
      eapply Forall_impl; [|exact Hy].
      unfold JSArray.descending. intros z Hz. lra.
    + constructor; [exact IH|].
      eapply Permutation_Forall; [symmetry; apply insertSorted_perm|].
      constructor; [unfold JSArray.descending; lra | exact Hy].
Qed.

Lemma sort_sorted (l : list A) :
  StronglySorted (JSArray.descending key) (JSArray.sort (JSArray.byKey key) l).
Proof.
  induction l as [|x l IH]; simpl; [constructor|].
  apply insertSorted_sorted, IH.
Qed.

Lemma insertSorted_hasKey (k : R) (x : A) (l : list A) :
  filter (JSArray.hasKey key k) (JSArray.insertSorted (JSArray.byKey key) x l)
  = filter (JSArray.hasKey key k) (x :: l).
Proof.
  induction l as [|y l IH]; [reflexivity|].
  simpl JSArray.insertSorted.
  destruct (Rle_dec (JSArray.byKey key x y) 0) as [Hle|Hgt]; [reflexivity|].
  unfold JSArray.byKey in Hgt.
  set (rest := JSArray.insertSorted (JSArray.byKey key) x l) in *.
  change (filter (JSArray.hasKey key k) (y :: rest))
    with (if JSArray.hasKey key k y
          then y :: filter (JSArray.hasKey key k) rest
          else filter (JSArray.hasKey key k) rest).
  rewrite IH. simpl. unfold JSArray.hasKey.
  destruct (Req_dec_T (key x) k), (Req_dec_T (key y) k); try reflexivity.
  exfalso. lra.
Qed.

(** A stable sort: the elements of one key keep their order. *)
Lemma sort_stable (k : R) (l : list A) :
  filter (JSArray.hasKey key k) (JSArray.sort (JSArray.byKey key) l)
  = filter (JSArray.hasKey key k) l.
Proof.
  induction l as [|x l IH]; [reflexivity|].
  change (JSArray.sort (JSArray.byKey key) (x :: l))
    with (JSArray.insertSorted (JSArray.byKey key) x
            (JSArray.sort (JSArray.byKey key) l)).
  rewrite insertSorted_hasKey. simpl. rewrite IH. reflexivity.
Qed.

Lemma sort_In (a : A) (l : list A) : In a (JSArray.sort (JSArray.byKey key) l) <-> In a l.
Proof.
  split; apply Permutation_in; [|symmetry]; apply sort_perm.
Qed.

End SortFacts.

Lemma slice0_firstn (A : Type) (l : list A) (stop : Z) :
  (0 <= stop)%Z -> JSArray.slice0 l stop = firstn (Z.to_nat stop) l.
Proof.
  intros Hstop. unfold JSArray.slice0.
  destruct (stop <? 0)%Z eqn:Hneg; [apply Z.ltb_lt in Hneg; lia|].
  destruct (Z.le_ge_cases stop (Z.of_nat (List.length l))) as [Hle|Hge].
  - rewrite Z.min_l by exact Hle. reflexivity.
  - rewrite Z.min_r by exact Hge. rewrite Nat2Z.id.
    rewrite firstn_all. symmetry. apply firstn_all2. lia.
Qed.

Lemma slice0_incl (A : Type) (l : list A) (stop : Z) (a : A) :
  In a (JSArray.slice0 l stop) -> In a l.
Proof.
  unfold JSArray.slice0. intros Hin.
  rewrite <- (firstn_skipn
                (Z.to_nat (if (stop <? 0)%Z
                           then Z.max (Z.of_nat (List.length l) + stop) 0
                           else Z.min stop (Z.of_nat (List.length l)))) l).
  apply in_or_app. now left.
Qed.

Lemma slice0_length (A : Type) (l : list A) (stop : Z) :
  (0 <= stop)%Z ->
  List.length (JSArray.slice0 l stop) = Nat.min (Z.to_nat stop) (List.length l).
Proof.
  intros Hstop. rewrite slice0_firstn by exact Hstop. apply length_firstn.
Qed.

(** ** The scoring loops *)

Section ScoringFacts.

Import Embedding Search.
Open Scope R_scope.

Lemma find_existsb (A : Type) (p : A -> bool) (l : list A) :
  existsb p l = match List.find p l with Some _ => true | None => false end.
Proof.
  induction l as [|a l IH]; simpl; [reflexivity|].
  destruct (p a); simpl; [reflexivity | exact IH].
Qed.

Lemma sumR_app (l1 l2 : list R) : sumR (l1 ++ l2) = sumR l1 + sumR l2.
Proof.
  induction l1 as [|a l1 IH]; simpl; [lra|]. rewrite IH. lra.
Qed.

Lemma inRelevantSet_entry (rel : list RelevantSkill) (e : HasSkillEdge) :
  inRelevantSet rel e =
    match relevantEntry rel (edge_out e) with Some _ => true | None => false end.
Proof. apply find_existsb. Qed.

Lemma specGraphScore_cons (rel : list RelevantSkill) (e : HasSkillEdge)
    (edges : list HasSkillEdge) :
  specGraphScore rel (e :: edges) =
    (if inRelevantSet rel e then edgeScore rel e else 0)
    + specGraphScore rel edges.
Proof.
  unfold specGraphScore. simpl.
  destruct (inRelevantSet rel e); simpl; lra.
Qed.

Lemma matchedOf_cons (rel : list RelevantSkill) (e : HasSkillEdge)
    (edges : list HasSkillEdge) :
  matchedOf rel (e :: edges) =
    match relevantEntry rel (edge_out e) with
    | Some rs => [ {| ms_skill := rs_skill rs;
                      ms_proficiency := proficiency e;
                      ms_relevance := relevance rs |} ]
    | None => []
    end ++ matchedOf rel edges.
Proof. reflexivity. Qed.

(** The two accumulators of the loop over the edges. *)
Lemma matchLoop_spec (rel : list RelevantSkill) (edges : list HasSkillEdge) :
  forall (matched : list MatchedSkill) (g : R),
    matchLoop rel edges matched g =
      (matched ++ matchedOf rel edges, g + specGraphScore rel edges).
Proof.
  induction edges as [|e edges IH]; intros matched g.
  - simpl. rewrite app_nil_r. unfold specGraphScore. simpl.
    f_equal. lra.
  - simpl matchLoop. unfold JSArray.find.
    change (List.find
              (fun rs => String.eqb (skill_id (rs_skill rs)) (edge_out e)) rel)
      with (relevantEntry rel (edge_out e)).
    rewrite specGraphScore_cons, matchedOf_cons, inRelevantSet_entry.
    unfold edgeScore, relevanceOfSkill.
    destruct (relevantEntry rel (edge_out e)) as [rs|].
    + rewrite IH. rewrite <- app_assoc. f_equal.
      destruct (certified e); lra.
    + rewrite IH. simpl. f_equal. lra.
Qed.

Lemma matchedOf_length (rel : list RelevantSkill) (edges : list HasSkillEdge) :
  List.length (matchedOf rel edges) =
  List.length (filter (inRelevantSet rel) edges).
Proof.
  induction edges as [|e edges IH]; [reflexivity|].
  rewrite matchedOf_cons. simpl filter. rewrite inRelevantSet_entry.
  destruct (relevantEntry rel (edge_out e)); simpl; [f_equal|]; exact IH.
Qed.

Lemma matchedOf_nonempty (rel : list RelevantSkill) (edges : list HasSkillEdge) :
  (0 <? List.length (matchedOf rel edges))%nat = existsb (inRelevantSet rel) edges.
Proof.
  induction edges as [|e edges IH]; [reflexivity|].
  rewrite matchedOf_cons. simpl existsb. rewrite inRelevantSet_entry.
  destruct (relevantEntry rel (edge_out e)); simpl; [reflexivity | exact IH].
Qed.

End ScoringFacts.

(** ** The search as a whole *)

Section SearchFacts.

Import Embedding Search.
Open Scope R_scope.

Variable generateEmbedding : jsstring -> Exc (list R).
Variable db : Store.

Lemma edgesOf_ok (emp : Employee) (resp : Response HasSkillEdge) :
  hasSkillTable db (employee_id emp) = Ok resp ->
  edgesOf db emp = extractQueryResult resp.
Proof. intros H. unfold edgesOf. rewrite H. reflexivity. Qed.

(** A run of the loop over the employees that does not throw appends
    one record for each employee with a matched skill, in the order of
    the employees. *)
Lemma scoreEmployees_ok (qe : list R) (rel : list RelevantSkill)
    (emps : list Employee) :
  forall (acc found : list CandidateMatch) (t t' : Trace),
    scoreEmployees db qe rel emps acc t = (Ok found, t') ->
    exists new,
      found = acc ++ new /\
      Forall2 (candidateFor db qe rel) (filter (hasMatch db rel) emps) new.
Proof.
  induction emps as [|emp emps IH]; intros acc found t t' Hrun.
  - simpl in Hrun. unfold ret in Hrun. injection Hrun as <- _.
    exists []. rewrite app_nil_r. split; [reflexivity | constructor].
  - simpl in Hrun. unfold bind at 1, queryHasSkill in Hrun.
    destruct (hasSkillTable db (employee_id emp)) as [resp|err] eqn:Hq;
      [|discriminate].
    rewrite matchLoop_spec in Hrun. cbv iota beta in Hrun.
    rewrite !app_nil_l in Hrun.
    rewrite matchedOf_nonempty in Hrun.
    simpl filter. unfold hasMatch at 1.
    rewrite (edgesOf_ok _ Hq).
    destruct (existsb (inRelevantSet rel) (extractQueryResult resp)) eqn:Hex.
    + unfold bind at 1, lift in Hrun.
      destruct (match employee_embedding emp with
                | Some e => cosineSimilarity qe e
                | None => Ok defaultSemanticScore
                end) as [s|err] eqn:Hsem; [|discriminate].
      apply IH in Hrun. destruct Hrun as (new & -> & Hall).
      eexists (_ :: new). rewrite <- app_assoc. split; [reflexivity|].
      constructor; [|exact Hall].
      unfold candidateFor. simpl. rewrite (edgesOf_ok _ Hq).
      repeat split; try reflexivity; try lra.
      destruct (employee_embedding emp) as [e|].
      * exact Hsem.
      * injection Hsem as <-. reflexivity.
    + apply IH in Hrun. exact Hrun.
Qed.

(** One turn of the loop over the employees. *)
Lemma scoreEmployees_step (qe : list R) (rel : list RelevantSkill)
    (emp : Employee) (rest : list Employee) (acc : list CandidateMatch)
    (t : Trace) (resp : Response HasSkillEdge) :
  hasSkillTable db (employee_id emp) = Ok resp ->
  scoreEmployees db qe rel (emp :: rest) acc t =
    (if existsb (inRelevantSet rel) (extractQueryResult resp) then
       s <- lift (match employee_embedding emp with
                  | Some e => cosineSimilarity qe e
                  | None => Ok defaultSemanticScore
                  end) ;;
       scoreEmployees db qe rel rest
         (acc ++ [ {| employee := emp;
                      matchScore :=
                        specGraphScore rel (extractQueryResult resp) * 0.6
                        + s * 0.4;
                      matchedSkills :=
                        JSArray.sort byMatchedRelevance
                          (matchedOf rel (extractQueryResult resp));
                      semanticScore := s;
                      graphScore := specGraphScore rel (extractQueryResult resp) |} ])
     else scoreEmployees db qe rel rest acc)
      (send (SelectHasSkill (employee_id emp)) t).
Proof.
  intros Hq. simpl scoreEmployees. unfold bind at 1, queryHasSkill.
  rewrite Hq. rewrite matchLoop_spec. cbv iota beta.
  rewrite !app_nil_l, matchedOf_nonempty, !Rplus_0_l. reflexivity.
Qed.

Lemma mapExc_ok (A B : Type) (f : A -> Exc B) (l : list A) :
  forall bs, mapExc f l = Ok bs -> Forall2 (fun a b => f a = Ok b) l bs.
Proof.
  induction l as [|a l IH]; simpl; intros bs H.
  - injection H as <-. constructor.
  - destruct (f a) as [b|e] eqn:Hfa; [|discriminate].
    destruct (mapExc f l) as [bs'|e]; [|discriminate].
    injection H as <-. constructor; [exact Hfa | apply IH; reflexivity].
Qed.

Lemma skillRelevance_ok (qe : list R) (s : Skill) (rs : RelevantSkill) :
  skillRelevance qe s = Ok rs ->
  rs_skill rs = s /\
  match skill_embedding s with
  | Some e => cosineSimilarity qe e = Ok (relevance rs)
  | None => relevance rs = defaultRelevance
  end.
Proof.
  unfold skillRelevance. destruct (skill_embedding s) as [e|].
  - destruct (cosineSimilarity qe e) as [r|err]; [|discriminate].
    intros H. injection H as <-. split; reflexivity.
  - intros H. injection H as <-. split; reflexivity.
Qed.

(** What a completed [try] block has done. *)
Lemma searchBody_ok (sq : SemanticSearchQuery) (t t' : Trace) (res : SearchResult) :
  searchBody generateEmbedding db sq t = (Ok res, t') ->
  exists qe sr rel,
    generateEmbedding (query sq) = Ok qe /\
    skillTable db = Ok sr /\
    relevantSkillsOf qe (extractQueryResult sr) = Ok rel /\
    ((rel = [] /\
      res = {| candidates := []; queryEmbedding := Some qe; totalMatches := 0 |} /\
      t' = send SelectSkills t)
     \/
     (rel <> [] /\
      exists er found,
        employeeTable db (departmentParam (filters sq)) = Ok er /\
        Forall2 (candidateFor db qe rel)
          (filter (hasMatch db rel) (extractQueryResult er)) found /\
        res = {| candidates :=
                   JSArray.slice0 (JSArray.sort byMatchScore found)
                     (match limit sq with Some n => n | None => 10%Z end);
                 queryEmbedding := Some qe;
                 totalMatches := List.length (JSArray.sort byMatchScore found) |})).
Proof.
  unfold searchBody. intros Hrun.
  unfold bind at 1, lift at 1 in Hrun.
  destruct (generateEmbedding (query sq)) as [qe|err] eqn:Hgen; [|discriminate].
  unfold bind at 1, querySkills in Hrun.
  destruct (skillTable db) as [sr|err] eqn:Hsk; [|discriminate].
  unfold bind at 1, lift at 1 in Hrun.
  destruct (relevantSkillsOf qe (extractQueryResult sr)) as [rel|err] eqn:Hrel;
    [|discriminate].
  exists qe, sr, rel.
  split; [reflexivity|]. split; [reflexivity|]. split; [exact Hrel|].
  clear Hrel. destruct rel as [|rs rel].
  - left. simpl in Hrun. unfold ret in Hrun. injection Hrun as <- <-.
    repeat split.
  - right. split; [discriminate|].
    change (List.length (rs :: rel) =? 0)%nat with false in Hrun.
    cbv iota in Hrun.
    unfold bind at 1, queryEmployees in Hrun.
    destruct (employeeTable db (departmentParam (filters sq))) as [er|err] eqn:Hemp;
      [|discriminate].
    unfold bind at 1 in Hrun.
    destruct (scoreEmployees db qe (rs :: rel) (extractQueryResult er) []
                (send (SelectEmployees (departmentParam (filters sq)))
                   (send SelectSkills t))) as [[found|err] t1] eqn:Hscore;
      cbv iota beta in Hrun; [|discriminate].
    apply scoreEmployees_ok in Hscore. destruct Hscore as (new & -> & Hall).
    unfold ret in Hrun. injection Hrun as <- _.
    exists er, new. repeat split; [exact Hall].
Qed.

(** The whole function returns a result in every case. *)
Lemma mutationFn_cases (sq : SemanticSearchQuery) (t : Trace) :
  (exists res t', searchBody generateEmbedding db sq t = (Ok res, t') /\
                  mutationFn generateEmbedding db sq t = (Ok res, t'))
  \/
  (exists e t1, searchBody generateEmbedding db sq t = (Throw e, t1) /\
                mutationFn generateEmbedding db sq t =
                  (Ok emptyResult,
                   {| sent := sent t1; logged := e :: logged t1 |})).
Proof.
  unfold mutationFn, tryCatch.
  destruct (searchBody generateEmbedding db sq t) as [[res|e] t1].
  - left. exists res, t1. split; reflexivity.
  - right. exists e, t1. split; reflexivity.
Qed.

Lemma mutationFn_candidates (sq : SemanticSearchQuery) (t t' : Trace)
    (res : SearchResult) (c : CandidateMatch) :
  mutationFn generateEmbedding db sq t = (Ok res, t') ->
  In c (candidates res) ->
  searchBody generateEmbedding db sq t = (Ok res, t').
Proof.
  intros Hrun Hin.
  destruct (mutationFn_cases sq t) as [(r & t1 & Hb & Hm)|(e & t1 & Hb & Hm)];
    rewrite Hm in Hrun; injection Hrun as <- <-.
  - exact Hb.
  - destruct Hin.
Qed.

(** The three ways the [try] block can end. *)
Lemma searchBody_short (sq : SemanticSearchQuery) (t : Trace)
    (qe : list R) (sr : Response Skill) :
  generateEmbedding (query sq) = Ok qe ->
  skillTable db = Ok sr ->
  relevantSkillsOf qe (extractQueryResult sr) = Ok [] ->
  searchBody generateEmbedding db sq t =
    (Ok {| candidates := []; queryEmbedding := Some qe; totalMatches := 0 |},
     send SelectSkills t).
Proof.
  intros Hgen Hsk Hrel. unfold searchBody.
  unfold bind at 1, lift at 1. rewrite Hgen.
  unfold bind at 1, querySkills. rewrite Hsk.
  unfold bind at 1, lift at 1. rewrite Hrel. reflexivity.
Qed.

Lemma searchBody_full (sq : SemanticSearchQuery) (t t1 : Trace)
    (qe : list R) (sr : Response Skill) (rel : list RelevantSkill)
    (er : Response Employee) (found : Exc (list CandidateMatch)) :
  generateEmbedding (query sq) = Ok qe ->
  skillTable db = Ok sr ->
  relevantSkillsOf qe (extractQueryResult sr) = Ok rel ->
  rel <> [] ->
  employeeTable db (departmentParam (filters sq)) = Ok er ->
  scoreEmployees db qe rel (extractQueryResult er) []
    (send (SelectEmployees (departmentParam (filters sq))) (send SelectSkills t))
    = (found, t1) ->
  searchBody generateEmbedding db sq t =
    (match found with
     | Ok l =>
         Ok {| candidates :=
                 JSArray.slice0 (JSArray.sort byMatchScore l)
                   (match limit sq with Some n => n | None => 10%Z end);
               queryEmbedding := Some qe;
               totalMatches := List.length (JSArray.sort byMatchScore l) |}
     | Throw e => Throw e
     end, t1).
Proof.
  intros Hgen Hsk Hrel Hne Hemp Hscore. unfold searchBody.
  unfold bind at 1, lift at 1. rewrite Hgen.
  unfold bind at 1, querySkills. rewrite Hsk.
  unfold bind at 1, lift at 1. rewrite Hrel.
  destruct rel as [|rs rel]; [contradiction|].
  change (List.length (rs :: rel) =? 0)%nat with false. cbv iota.
  unfold bind at 1, queryEmployees. rewrite Hemp.
  unfold bind at 1. rewrite Hscore.
  destruct found; reflexivity.
Qed.

Lemma mutationFn_of_body (sq : SemanticSearchQuery) (t t1 : Trace)
    (r : Exc SearchResult) :
  searchBody generateEmbedding db sq t = (r, t1) ->
  mutationFn generateEmbedding db sq t =
    match r with
    | Ok res => (Ok res, t1)
    | Throw e => (Ok emptyResult, {| sent := sent t1; logged := e :: logged t1 |})
    end.
Proof.
  intros Hb. unfold mutationFn, tryCatch. rewrite Hb.
  destruct r; reflexivity.
Qed.

End SearchFacts.

(** ** The small store, evaluated *)

Section ExampleFacts.

Import Embedding Search Example.
Open Scope R_scope.

Lemma norm_unit_x : norm [1; 0] = 1.
Proof.
  unfold norm. simpl. replace (1 * 1 + (0 * 0 + 0)) with 1 by lra.
  apply sqrt_1.
Qed.

Lemma norm_unit_y : norm [0; 1] = 1.
Proof.
  unfold norm. simpl. replace (0 * 0 + (1 * 1 + 0)) with 1 by lra.
  apply sqrt_1.
Qed.

Lemma norm_unit_neg : norm [-1; 0] = 1.
Proof.
  unfold norm. simpl. replace (-1 * -1 + (0 * 0 + 0)) with 1 by lra.
  apply sqrt_1.
Qed.

Lemma cosine_same : cosineSimilarity [1; 0] [1; 0] = Ok 1.
Proof.
  rewrite cosineSimilarity_equal_length by reflexivity.
  rewrite norm_unit_x. simpl dot. f_equal. decide_reals. lra.
Qed.

Lemma cosine_orthogonal : cosineSimilarity [1; 0] [0; 1] = Ok 0.
Proof.
  rewrite cosineSimilarity_equal_length by reflexivity.
  rewrite norm_unit_x, norm_unit_y. simpl dot. f_equal. decide_reals. lra.
Qed.

Lemma cosine_opposite : cosineSimilarity [1; 0] [-1; 0] = Ok (-1).
Proof.
  rewrite cosineSimilarity_equal_length by reflexivity.
  rewrite norm_unit_x, norm_unit_neg. simpl dot. f_equal. decide_reals. lra.
Qed.

Lemma cosine_mismatch :
  cosineSimilarity [1; 0] [1; 0; 0] = Throw (DimensionMismatch 2 3).
Proof. reflexivity. Qed.

Lemma relevantSkills_example :
  relevantSkillsOf [1; 0] [sql; python; cooking; ml] = Ok relevantExample.
Proof.
  unfold relevantSkillsOf. cbn [mapExc].
  unfold skillRelevance. cbn [skill_embedding sql python cooking ml].
  rewrite cosine_same, cosine_orthogonal. cbv iota beta.
  cbn [filter relevance]. unfold Rgtb, relevanceFloor, defaultRelevance.
  decide_reals.
  cbn [JSArray.sort fold_right JSArray.insertSorted].
  unfold byRelevance. cbn [relevance]. decide_reals.
  rewrite slice0_firstn by lia. reflexivity.
Qed.

Lemma graphScore_alice :
  specGraphScore relevantExample (edgesFor "employee:alice") = 2.1.
Proof.
  change (specGraphScore relevantExample (edgesFor "employee:alice"))
    with (5 / 5 * 1 + 0.1 + (5 / 5 * 1 + 0 + 0)).
  lra.
Qed.

Lemma graphScore_bob :
  specGraphScore relevantExample (edgesFor "employee:bob") = 0.2.
Proof.
  change (specGraphScore relevantExample (edgesFor "employee:bob"))
    with (1 / 5 * 1 + 0 + 0).
  lra.
Qed.

Lemma matched_alice :
  JSArray.sort byMatchedRelevance
    (matchedOf relevantExample (edgesFor "employee:alice")) =
  matchedSkills aliceMatch.
Proof.
  change (matchedOf relevantExample (edgesFor "employee:alice"))
    with (matchedSkills aliceMatch).
  cbn [matchedSkills aliceMatch JSArray.sort fold_right JSArray.insertSorted].
  unfold byMatchedRelevance. cbn [ms_relevance]. decide_reals. reflexivity.
Qed.

Lemma matched_bob :
  JSArray.sort byMatchedRelevance
    (matchedOf relevantExample (edgesFor "employee:bob")) =
  matchedSkills bobMatch.
Proof. reflexivity. Qed.

Lemma scoreEmployees_example (t : Trace) :
  scoreEmployees db [1; 0] relevantExample [bob; carol; alice] [] t =
    (Ok [bobMatch; aliceMatch],
     send (SelectHasSkill "employee:alice")
       (send (SelectHasSkill "employee:carol")
          (send (SelectHasSkill "employee:bob") t))).
Proof.
  rewrite (scoreEmployees_step db [1; 0] relevantExample bob _ _ _
             (resp := Items [Rows (edgesFor "employee:bob")]) eq_refl).
  change (existsb (inRelevantSet relevantExample)
            (extractQueryResult (Items [Rows (edgesFor "employee:bob")])))
    with true.
  cbv iota. unfold bind at 1, lift.
  change (employee_embedding bob) with (Some [-1; 0]). cbv iota.
  rewrite cosine_opposite.
  rewrite (scoreEmployees_step db [1; 0] relevantExample carol _ _ _
             (resp := Items [Rows (edgesFor "employee:carol")]) eq_refl).
  change (existsb (inRelevantSet relevantExample)
            (extractQueryResult (Items [Rows (edgesFor "employee:carol")])))
    with false.
  cbv iota.
  rewrite (scoreEmployees_step db [1; 0] relevantExample alice _ _ _
             (resp := Items [Rows (edgesFor "employee:alice")]) eq_refl).
  change (existsb (inRelevantSet relevantExample)
            (extractQueryResult (Items [Rows (edgesFor "employee:alice")])))
    with true.
  cbv iota. unfold bind at 1, lift.
  change (employee_embedding alice) with (@None (list R)). cbv iota.
  change (extractQueryResult (Items [Rows (edgesFor "employee:bob")]))
    with (edgesFor "employee:bob").
  change (extractQueryResult (Items [Rows (edgesFor "employee:alice")]))
    with (edgesFor "employee:alice").
  rewrite graphScore_alice, graphScore_bob, matched_alice, matched_bob.
  cbn [scoreEmployees]. unfold ret. f_equal.
  unfold bobMatch, aliceMatch, defaultSemanticScore. cbn [app matchedSkills].
  f_equal. f_equal; [f_equal; lra|]. f_equal. f_equal; lra.
Qed.

End ExampleFacts.

(** ** The results of the search *)

Section SearchResults.

Import Embedding Search.
Open Scope R_scope.

Variable generateEmbedding : jsstring -> Exc (list R).
Variable db : Store.

Lemma Forall2_In_r (A B : Type) (P : A -> B -> Prop) (l1 : list A) (l2 : list B) (b : B) :
  Forall2 P l1 l2 -> In b l2 -> exists a, In a l1 /\ P a b.
Proof.
  induction 1 as [|a0 b0 l1 l2 Hab _ IH]; intros Hin; [destruct Hin|].
  destruct Hin as [<-|Hin].
  - exists a0. split; [now left | exact Hab].
  - destruct (IH Hin) as (a & Ha & HP). exists a. split; [now right | exact HP].
Qed.


(** The records found by a completed search, before sorting. *)
Lemma searchBody_candidates (sq : SemanticSearchQuery) (t t' : Trace)
    (res : SearchResult) (c : CandidateMatch) :
  searchBody generateEmbedding db sq t = (Ok res, t') ->
  In c (candidates res) ->
  exists qe sr rel er,
    generateEmbedding (query sq) = Ok qe /\
    skillTable db = Ok sr /\
    relevantSkillsOf qe (extractQueryResult sr) = Ok rel /\
    employeeTable db (departmentParam (filters sq)) = Ok er /\
    In (employee c) (extractQueryResult er) /\
    hasMatch db rel (employee c) = true /\
    candidateFor db qe rel (employee c) c.
Proof.
  intros Hrun Hin.
  destruct (searchBody_ok _ _ _ _ Hrun)
    as (qe & sr & rel & Hgen & Hsk & Hrel &
        [(-> & -> & _)|(Hne & er & found & Hemp & Hall & ->)]).
  - destruct Hin.
  - simpl in Hin. apply slice0_incl in Hin.
    change byMatchScore with (JSArray.byKey matchScore) in Hin.
    apply sort_In in Hin.
    destruct (@Forall2_In_r _ _ _ _ _ c Hall Hin) as (emp & Hemp_in & Hc).
    assert (Heq : employee c = emp) by (destruct Hc as [H _]; exact H).
    subst emp. apply filter_In in Hemp_in. destruct Hemp_in as [Hfetched Hmatch].
    exists qe, sr, rel, er.
    split; [|split; [|split; [|split; [|split; [|split]]]]]; assumption.
Qed.

(** C2. For every candidate of a search result, the graph score is the
    sum, over the edges of the employee whose skill is in the relevant
    set, of proficiency over five times the relevance of the skill, plus
    a tenth for each certified one; the semantic score is the cosine
    similarity of the query and the employee embeddings, or one half
    without an employee embedding; and the match score is the graph
    score times 0.6 plus the semantic score times 0.4. *)
Theorem candidate_scores (sq : SemanticSearchQuery) (t t' : Trace)
    (res : SearchResult) (c : CandidateMatch) :
  mutationFn generateEmbedding db sq t = (Ok res, t') ->
  In c (candidates res) ->
  exists qe sr rel,
    generateEmbedding (query sq) = Ok qe /\
    skillTable db = Ok sr /\
    relevantSkillsOf qe (extractQueryResult sr) = Ok rel /\
    graphScore c =
      sumR (map (fun e => proficiency e / 5 * relevanceOfSkill rel (edge_out e)
                          + (if certified e then 0.1 else 0))
                (filter (inRelevantSet rel) (edgesOf db (employee c)))) /\
    match employee_embedding (employee c) with
    | Some e => cosineSimilarity qe e = Ok (semanticScore c)
    | None => semanticScore c = 0.5
    end /\
    matchScore c = graphScore c * 0.6 + semanticScore c * 0.4.
Proof.
  intros Hrun Hin.
  assert (Hbody : searchBody generateEmbedding db sq t = (Ok res, t'))
    by (eapply mutationFn_candidates; eassumption).
  destruct (@searchBody_candidates sq t t' res c Hbody Hin)
    as (qe & sr & rel & er & Hgen & Hsk & Hrel & _ & _ & _ & Hc).
  destruct Hc as (_ & Hg & _ & Hs & Hm).
  exists qe, sr, rel.
  split; [|split; [|split; [|split; [|split]]]]; assumption.
Qed.


(** C7. When no skill is relevant, the search returns no candidate and
    a total of zero after the single query on the skills: the employee
    table and the edge table are not queried, and stores with the same
    skill table give the same result. *)
Theorem empty_relevant_short_circuit (sq : SemanticSearchQuery) (t : Trace)
    (qe : list R) (sr : Response Skill) :
  generateEmbedding (query sq) = Ok qe ->
  skillTable db = Ok sr ->
  relevantSkillsOf qe (extractQueryResult sr) = Ok [] ->
  mutationFn generateEmbedding db sq t =
    (Ok {| candidates := []; queryEmbedding := Some qe; totalMatches := 0 |},
     {| sent := SelectSkills :: sent t; logged := logged t |}) /\
  forall db' : Store,
    skillTable db' = skillTable db ->
    mutationFn generateEmbedding db' sq t = mutationFn generateEmbedding db sq t.
Proof.
  intros Hgen Hsk Hrel.
  assert (Hshort : forall d : Store,
            skillTable d = Ok sr ->
            mutationFn generateEmbedding d sq t =
              (Ok {| candidates := []; queryEmbedding := Some qe; totalMatches := 0 |},
               {| sent := SelectSkills :: sent t; logged := logged t |})).
  { intros d Hd.
    rewrite (@mutationFn_of_body generateEmbedding d sq t _ _
               (@searchBody_short generateEmbedding d sq t qe sr Hgen Hd Hrel)).
    reflexivity. }
  split; [apply Hshort, Hsk|].
  intros db' Hsame. rewrite (Hshort db Hsk). apply Hshort.
  rewrite Hsame. exact Hsk.
Qed.

(** C5. The search returns a result on every input and in every state:
    whatever the [try] block throws, from the embedding call, from a
    query or from the scoring, is caught; the result is then the empty
    one, with no candidate and a total of zero, and the error is written
    to the console. *)
Theorem search_never_throws (sq : SemanticSearchQuery) (t : Trace) :
  exists res t',
    mutationFn generateEmbedding db sq t = (Ok res, t') /\
    forall e t1,
      searchBody generateEmbedding db sq t = (Throw e, t1) ->
      candidates res = [] /\ totalMatches res = 0%nat /\
      queryEmbedding res = None /\
      sent t' = sent t1 /\ logged t' = e :: logged t1.
Proof.
  destruct (searchBody generateEmbedding db sq t) as [r t1] eqn:Hb.
  rewrite (@mutationFn_of_body generateEmbedding db sq t t1 r Hb).
  destruct r as [res|e0].
  - exists res, t1. split; [reflexivity|]. intros e t2 H. discriminate.
  - eexists _, _. split; [reflexivity|].
    intros e t2 H. injection H as <- <-. repeat split.
Qed.

End SearchResults.

Section ExampleRuns.

Import Embedding Search Example.
Open Scope R_scope.

Lemma sort_example :
  JSArray.sort byMatchScore [bobMatch; aliceMatch] = [aliceMatch; bobMatch].
Proof.
  cbn [JSArray.sort fold_right JSArray.insertSorted].
  unfold byMatchScore. cbn [matchScore aliceMatch bobMatch].
  decide_reals. reflexivity.
Qed.

Lemma searchBody_example : searchBody provider db request start = (Ok result, finish).
Proof.
  rewrite (@searchBody_full provider db request start _ [1; 0]
             (Items [Rows [sql; python; cooking; ml]]) relevantExample
             (Items [Rows [bob; carol; alice]]) _
             eq_refl eq_refl relevantSkills_example
             ltac:(discriminate) eq_refl
             (scoreEmployees_example _)).
  rewrite sort_example. reflexivity.
Qed.

Lemma mutationFn_example : mutationFn provider db request start = (Ok result, finish).
Proof.
  rewrite (@mutationFn_of_body provider db request start _ _ searchBody_example).
  reflexivity.
Qed.

Lemma candidate_scores_witness :
  exists qe sr rel,
    provider (query request) = Ok qe /\
    skillTable db = Ok sr /\
    relevantSkillsOf qe (extractQueryResult sr) = Ok rel /\
    graphScore aliceMatch =
      sumR (map (fun e => proficiency e / 5 * relevanceOfSkill rel (edge_out e)
                          + (if certified e then 0.1 else 0))
                (filter (inRelevantSet rel) (edgesOf db (employee aliceMatch)))) /\
    match employee_embedding (employee aliceMatch) with
    | Some e => cosineSimilarity qe e = Ok (semanticScore aliceMatch)
    | None => semanticScore aliceMatch = 0.5
    end /\
    matchScore aliceMatch =
      graphScore aliceMatch * 0.6 + semanticScore aliceMatch * 0.4.
Proof.
  apply (@candidate_scores provider db request start finish result aliceMatch).
  - exact mutationFn_example.
  - simpl. left. reflexivity.
Defined.


Lemma relevantSkills_none :
  relevantSkillsOf [1; 0] [sql; cooking] = Ok [].
Proof.
  unfold relevantSkillsOf. cbn [mapExc].
  unfold skillRelevance. cbn [skill_embedding sql cooking].
  rewrite cosine_orthogonal. cbv iota beta.
  cbn [filter relevance]. unfold Rgtb, relevanceFloor, defaultRelevance.
  decide_reals. reflexivity.
Qed.

Lemma empty_relevant_short_circuit_witness :
  mutationFn provider (skillsOnly [sql; cooking]) request start =
    (Ok {| candidates := []; queryEmbedding := Some [1; 0]; totalMatches := 0 |},
     {| sent := [SelectSkills]; logged := [] |}) /\
  forall db' : Store,
    skillTable db' = skillTable (skillsOnly [sql; cooking]) ->
    mutationFn provider db' request start =
    mutationFn provider (skillsOnly [sql; cooking]) request start.
Proof.
  apply (@empty_relevant_short_circuit provider (skillsOnly [sql; cooking])
           request start [1; 0] (Items [Rows [sql; cooking]])).
  - reflexivity.
  - reflexivity.
  - exact relevantSkills_none.
Defined.

End ExampleRuns.

Section ExampleFailures.

Import Embedding Search Example.
Open Scope R_scope.

(** The embedding call fails. *)
Lemma searchBody_provider_failure (db0 : Store) (sq : SemanticSearchQuery)
    (t : Trace) (e : Error) (gen : jsstring -> Exc (list R)) :
  gen (query sq) = Throw e ->
  searchBody gen db0 sq t = (Throw e, t).
Proof.
  intros H. unfold searchBody, bind at 1, lift at 1. rewrite H. reflexivity.
Qed.

(** The query on the skills fails. *)
Lemma searchBody_skill_failure (db0 : Store) (sq : SemanticSearchQuery)
    (t : Trace) (e : Error) (gen : jsstring -> Exc (list R)) (qe : list R) :
  gen (query sq) = Ok qe ->
  skillTable db0 = Throw e ->
  searchBody gen db0 sq t = (Throw e, send SelectSkills t).
Proof.
  intros Hgen H. unfold searchBody, bind at 1, lift at 1. rewrite Hgen.
  unfold bind at 1, querySkills. rewrite H. reflexivity.
Qed.

(** The query on the employees fails. *)
Lemma searchBody_employee_failure :
  searchBody provider (skillsOnly [sql; python; cooking; ml]) request start =
    (Throw (StoreFailure "employee"),
     {| sent := [SelectEmployees None; SelectSkills]; logged := [] |}).
Proof.
  unfold searchBody, bind at 1, lift at 1.
  change (provider (query request)) with (Ok [1; 0]). cbv iota beta.
  unfold bind at 1, querySkills.
  change (skillTable (skillsOnly [sql; python; cooking; ml]))
    with (Ok (Items [Rows [sql; python; cooking; ml]])).
  cbv iota beta. unfold bind at 1, lift at 1.
  change (extractQueryResult (Items [Rows [sql; python; cooking; ml]]))
    with [sql; python; cooking; ml].
  rewrite relevantSkills_example. reflexivity.
Qed.

(** The scoring fails: an employee embedding of another dimension. *)
Lemma scoreEmployees_mixed (t : Trace) :
  scoreEmployees dbMixed [1; 0] relevantExample [bob; dave; alice] [] t =
    (Throw (DimensionMismatch 2 3),
     send (SelectHasSkill "employee:dave")
       (send (SelectHasSkill "employee:bob") t)).
Proof.
  rewrite (@scoreEmployees_step dbMixed [1; 0] relevantExample bob _ _ _
             (Items [Rows (edgesFor "employee:bob")]) eq_refl).
  change (existsb (inRelevantSet relevantExample)
            (extractQueryResult (Items [Rows (edgesFor "employee:bob")])))
    with true.
  cbv iota. unfold bind at 1, lift.
  change (employee_embedding bob) with (Some [-1; 0]). cbv iota.
  rewrite cosine_opposite.
  rewrite (@scoreEmployees_step dbMixed [1; 0] relevantExample dave _ _ _
             (Items [Rows (edgesFor "employee:dave")]) eq_refl).
  change (existsb (inRelevantSet relevantExample)
            (extractQueryResult (Items [Rows (edgesFor "employee:dave")])))
    with true.
  cbv iota. unfold bind at 1, lift.
  change (employee_embedding dave) with (Some [1; 0; 0]). cbv iota.
  rewrite cosine_mismatch. reflexivity.
Qed.

Lemma searchBody_mixed :
  searchBody provider dbMixed request start =
    (Throw (DimensionMismatch 2 3),
     {| sent := [ SelectHasSkill "employee:dave"; SelectHasSkill "employee:bob";
                  SelectEmployees None; SelectSkills ];
        logged := [] |}).
Proof.
  rewrite (@searchBody_full provider dbMixed request start _ [1; 0]
             (Items [Rows [sql; python; cooking; ml]]) relevantExample
             (Items [Rows [bob; dave; alice]]) _
             eq_refl eq_refl relevantSkills_example
             ltac:(discriminate) eq_refl
             (scoreEmployees_mixed _)).
  reflexivity.
Qed.

(** The three kinds of failure end in the empty result. *)
Lemma mutationFn_provider_failure :
  mutationFn failingProvider db request start =
    (Ok emptyResult,
     {| sent := []; logged := [ProviderFailure "embedding"] |}).
Proof.
  rewrite (@mutationFn_of_body failingProvider db request start _ _
             (@searchBody_provider_failure db request start _ failingProvider eq_refl)).
  reflexivity.
Qed.

Lemma mutationFn_store_failure :
  mutationFn provider (skillsOnly [sql; python; cooking; ml]) request start =
    (Ok emptyResult,
     {| sent := [SelectEmployees None; SelectSkills];
        logged := [StoreFailure "employee"] |}).
Proof.
  rewrite (@mutationFn_of_body provider _ request start _ _
             searchBody_employee_failure).
  reflexivity.
Qed.

Lemma mutationFn_scoring_failure :
  mutationFn provider dbMixed request start =
    (Ok emptyResult,
     {| sent := [ SelectHasSkill "employee:dave"; SelectHasSkill "employee:bob";
                  SelectEmployees None; SelectSkills ];
        logged := [DimensionMismatch 2 3] |}).
Proof.
  rewrite (@mutationFn_of_body provider dbMixed request start _ _ searchBody_mixed).
  reflexivity.
Qed.

Lemma search_never_throws_witness :
  exists res t',
    mutationFn provider dbMixed request start = (Ok res, t') /\
    candidates res = [] /\ totalMatches res = 0%nat /\
    logged t' = [DimensionMismatch 2 3].
Proof.
  destruct (search_never_throws provider dbMixed request start)
    as (res & t' & Hrun & Hcaught).
  exists res, t'. split; [exact Hrun|].
  destruct (Hcaught _ _ searchBody_mixed) as (Hc & Ht & _ & _ & Hl).
  split; [exact Hc|]. split; [exact Ht|]. exact Hl.
Defined.

End ExampleFailures.

(** ** The relevant skills *)

Section RelevantSkills.

Import Embedding Search.
Open Scope R_scope.

Lemma Rgtb_true (a b : R) : Rgtb a b = true <-> b < a.
Proof.
  unfold Rgtb. destruct (Rlt_dec b a); split; intros H;
    try reflexivity; try assumption; try discriminate; contradiction.
Qed.

Lemma relevantSkillsOf_ok (qe : list R) (allSkills : list Skill)
    (rel : list RelevantSkill) :
  relevantSkillsOf qe allSkills = Ok rel ->
  exists scored,
    Forall2 (fun s rs => skillRelevance qe s = Ok rs) allSkills scored /\
    rel = firstn 15
            (JSArray.sort (JSArray.byKey relevance)
               (filter (fun rs => Rgtb (relevance rs) relevanceFloor) scored)).
Proof.
  unfold relevantSkillsOf.
  destruct (mapExc (skillRelevance qe) allSkills) as [scored|e] eqn:Hmap;
    [|discriminate].
  intros H. injection H as <-. exists scored. split.
  - apply mapExc_ok, Hmap.
  - apply (slice0_firstn _ (stop := 15)). lia.
Qed.

(** A relevant skill has an embedding, and its relevance is a cosine
    above the floor. *)
Lemma relevant_entry (qe : list R) (allSkills : list Skill)
    (rel : list RelevantSkill) (rs : RelevantSkill) :
  relevantSkillsOf qe allSkills = Ok rel ->
  In rs rel ->
  In (rs_skill rs) allSkills /\
  relevanceFloor < relevance rs <= 1 /\
  exists e, skill_embedding (rs_skill rs) = Some e /\
            cosineSimilarity qe e = Ok (relevance rs).
Proof.
  intros Hrel Hin.
  destruct (relevantSkillsOf_ok _ _ Hrel) as (scored & Hall & ->).
  assert (Hsorted : In rs (JSArray.sort (JSArray.byKey relevance)
                             (filter (fun rs => Rgtb (relevance rs) relevanceFloor)
                                scored))).
  { rewrite <- (firstn_skipn 15). apply in_or_app. left. exact Hin. }
  apply sort_In, filter_In in Hsorted. destruct Hsorted as [Hsc Hgt].
  apply Rgtb_true in Hgt.
  assert (Hsrc : exists s, In s allSkills /\ skillRelevance qe s = Ok rs).
  { clear Hin Hgt Hrel. induction Hall as [|s r l1 l2 Hsr _ IH]; [destruct Hsc|].
    destruct Hsc as [<-|Hsc].
    - exists s. split; [now left | exact Hsr].
    - destruct (IH Hsc) as (s' & Hs' & Hr'). exists s'. split; [now right|exact Hr']. }
  destruct Hsrc as (s & Hs & Hsr).
  destruct (skillRelevance_ok _ _ Hsr) as [Heq Hval]. subst s.
  split; [exact Hs|].
  destruct (skill_embedding (rs_skill rs)) as [e|].
  - pose proof (cosineSimilarity_range _ _ Hval) as Hrange.
    split; [lra|]. exists e. split; [reflexivity | exact Hval].
  - exfalso. unfold relevanceFloor, defaultRelevance in *. lra.
Qed.

(** C3 (amended). The relevance of a fetched skill is the cosine
    similarity of the query embedding and its embedding, or 0.3 without an
    embedding.  The relevant set is made of the skills whose relevance
    exceeds 0.4, sorted by descending relevance, skills of equal relevance
    keeping their order, and cut to the first 15.  A skill without
    embedding is never in it, 0.3 being under the floor. *)
Theorem relevant_skills_selection (qe : list R) (allSkills : list Skill)
    (rel : list RelevantSkill) :
  relevantSkillsOf qe allSkills = Ok rel ->
  exists scored ordered,
    Forall2
      (fun s rs =>
         rs_skill rs = s /\
         match skill_embedding s with
         | Some e => cosineSimilarity qe e = Ok (relevance rs)
         | None => relevance rs = 0.3
         end)
      allSkills scored /\
    Permutation ordered (filter (fun rs => Rgtb (relevance rs) 0.4) scored) /\
    StronglySorted (JSArray.descending relevance) ordered /\
    (forall k, filter (JSArray.hasKey relevance k) ordered =
               filter (JSArray.hasKey relevance k)
                 (filter (fun rs => Rgtb (relevance rs) 0.4) scored)) /\
    rel = firstn 15 ordered /\
    (forall rs, In rs rel ->
                0.4 < relevance rs /\ skill_embedding (rs_skill rs) <> None).
Proof.
  intros Hrel.
  destruct (relevantSkillsOf_ok _ _ Hrel) as (scored & Hall & Heq).
  exists scored,
    (JSArray.sort (JSArray.byKey relevance)
       (filter (fun rs => Rgtb (relevance rs) relevanceFloor) scored)).
  split.
  { eapply Forall2_impl; [|exact Hall].
    intros s rs Hsr. apply skillRelevance_ok, Hsr. }
  split; [apply sort_perm|]. split; [apply sort_sorted|].
  split; [intros k; apply sort_stable|]. split; [exact Heq|].
  intros rs Hin.
  destruct (relevant_entry _ _ rs Hrel Hin) as (_ & [Hlt _] & e & He & _).
  split; [exact Hlt|]. rewrite He. discriminate.
Qed.

End RelevantSkills.

Section RelevanceExamples.

Import Embedding Search Example.
Open Scope R_scope.

Lemma relevant_skills_selection_witness :
  exists scored ordered,
    Forall2
      (fun s rs =>
         rs_skill rs = s /\
         match skill_embedding s with
         | Some e => cosineSimilarity [1; 0] e = Ok (relevance rs)
         | None => relevance rs = 0.3
         end)
      [sql; python; cooking; ml] scored /\
    Permutation ordered (filter (fun rs => Rgtb (relevance rs) 0.4) scored) /\
    StronglySorted (JSArray.descending relevance) ordered /\
    (forall k, filter (JSArray.hasKey relevance k) ordered =
               filter (JSArray.hasKey relevance k)
                 (filter (fun rs => Rgtb (relevance rs) 0.4) scored)) /\
    relevantExample = firstn 15 ordered /\
    (forall rs, In rs relevantExample ->
                0.4 < relevance rs /\ skill_embedding (rs_skill rs) <> None).
Proof.
  apply (@relevant_skills_selection [1; 0] [sql; python; cooking; ml] relevantExample).
  exact relevantSkills_example.
Defined.

(** C3 as the specification words it: the default gives a skill without
    embedding a chance to match.  It has none: alone in the store, such a
    skill leaves the relevant set empty, and no store puts one in the
    set. *)
Lemma default_relevance_counterexample :
  relevantSkillsOf [1; 0] [cooking] = Ok [] /\
  ~ (exists qe allSkills rel rs,
       relevantSkillsOf qe allSkills = Ok rel /\
       In rs rel /\
       skill_embedding (rs_skill rs) = None).
Proof.
  split.
  - unfold relevantSkillsOf. cbn [mapExc].
    unfold skillRelevance. cbn [skill_embedding cooking].
    cbn [filter relevance]. unfold Rgtb, relevanceFloor, defaultRelevance.
    decide_reals. reflexivity.
  - intros (qe & allSkills & rel & rs & Hrel & Hin & Hnone).
    destruct (relevant_entry _ _ rs Hrel Hin) as (_ & _ & e & He & _).
    rewrite He in Hnone. discriminate.
Qed.

End RelevanceExamples.

(** ** The range of the scores *)

Section ScoreRange.

Import Embedding Search.
Open Scope R_scope.

Variable generateEmbedding : jsstring -> Exc (list R).
Variable db : Store.

Lemma relevanceOfSkill_bounds (rel : list RelevantSkill) (e : HasSkillEdge) :
  Forall (fun rs => relevanceFloor < relevance rs <= 1) rel ->
  inRelevantSet rel e = true ->
  relevanceFloor < relevanceOfSkill rel (edge_out e) <= 1.
Proof.
  intros Hall Hin. rewrite inRelevantSet_entry in Hin.
  unfold relevanceOfSkill.
  destruct (relevantEntry rel (edge_out e)) as [rs|] eqn:Hfind; [|discriminate].
  apply find_some in Hfind. destruct Hfind as [Hrs _].
  rewrite Forall_forall in Hall. apply Hall, Hrs.
Qed.

(** Each matched edge adds between 0.08 and 1.1 to the graph score. *)
Lemma specGraphScore_bounds (rel : list RelevantSkill) (edges : list HasSkillEdge) :
  Forall (fun rs => relevanceFloor < relevance rs <= 1) rel ->
  (forall e, In e edges -> 1 <= proficiency e <= 5) ->
  0.08 * INR (List.length (filter (inRelevantSet rel) edges))
    <= specGraphScore rel edges
    <= 1.1 * INR (List.length (filter (inRelevantSet rel) edges)).
Proof.
  intros Hrel. induction edges as [|e edges IH]; intros Hp.
  - unfold specGraphScore. simpl. lra.
  - rewrite specGraphScore_cons. simpl filter.
    assert (IH' := IH (fun e' He' => Hp e' (or_intror He'))). clear IH.
    destruct (inRelevantSet rel e) eqn:Hin.
    + pose proof (relevanceOfSkill_bounds e Hrel Hin) as Hr.
      pose proof (Hp e (or_introl eq_refl)) as Hpe.
      unfold relevanceFloor in Hr.
      change (List.length (e :: filter (inRelevantSet rel) edges))
        with (S (List.length (filter (inRelevantSet rel) edges))).
      rewrite S_INR. unfold edgeScore.
      set (r := relevanceOfSkill rel (edge_out e)) in *.
      set (p := proficiency e) in *.
      assert (Hprod : 0.08 <= p / 5 * r <= 1) by (split; nra).
      destruct (certified e); lra.
    + lra.
Qed.

Lemma existsb_filter_length (A : Type) (f : A -> bool) (l : list A) :
  existsb f l = true -> (1 <= List.length (filter f l))%nat.
Proof.
  induction l as [|a l IH]; simpl; [discriminate|].
  destruct (f a); simpl; [lia | exact IH].
Qed.

(** How far the scores go, in the arithmetic of real numbers.  For every
    candidate of a search result, with proficiencies between 1 and 5: the
    graph score is positive and at most 1.1 times the number of matched
    skills, which is at least one; the semantic score lies between -1
    and 1; the match score is 0.6 times the graph score plus 0.4 times
    the semantic score, above -0.4 and at most 0.66 times that number
    plus 0.4. *)
Lemma candidate_score_bounds (sq : SemanticSearchQuery) (t t' : Trace)
    (res : SearchResult) (c : CandidateMatch) :
  (forall emp e, In e (edgesOf db emp) -> 1 <= proficiency e <= 5) ->
  mutationFn generateEmbedding db sq t = (Ok res, t') ->
  In c (candidates res) ->
  let k := INR (List.length (matchedSkills c)) in
  1 <= k /\
  0 < graphScore c <= 1.1 * k /\
  -1 <= semanticScore c <= 1 /\
  matchScore c = graphScore c * 0.6 + semanticScore c * 0.4 /\
  -0.4 < matchScore c <= 0.66 * k + 0.4.
Proof.
  intros Hprof Hrun Hin k.
  assert (Hbody : searchBody generateEmbedding db sq t = (Ok res, t'))
    by (eapply mutationFn_candidates; eassumption).
  destruct (@searchBody_candidates generateEmbedding db sq t t' res c Hbody Hin)
    as (qe & sr & rel & er & Hgen & Hsk & Hrel & _ & _ & Hmatch & Hc).
  destruct Hc as (_ & Hg & Hms & Hs & Hm).
  assert (Hbounds : Forall (fun rs => relevanceFloor < relevance rs <= 1) rel).
  { apply Forall_forall. intros rs Hrs.
    destruct (relevant_entry _ _ rs Hrel Hrs) as (_ & H & _). exact H. }
  pose proof (specGraphScore_bounds (edgesOf db (employee c)) Hbounds
                (Hprof (employee c))) as Hgb.
  rewrite <- Hg in Hgb.
  assert (Hk : k = INR (List.length
                          (filter (inRelevantSet rel) (edgesOf db (employee c))))).
  { unfold k. rewrite Hms.
    change byMatchedRelevance with (JSArray.byKey ms_relevance).
    rewrite sort_length, matchedOf_length. reflexivity. }
  rewrite <- Hk in Hgb.
  assert (Hk1 : 1 <= k).
  { rewrite Hk. change 1 with (INR 1). apply le_INR.
    apply existsb_filter_length. exact Hmatch. }
  assert (Hsem : -1 <= semanticScore c <= 1).
  { destruct (employee_embedding (employee c)) as [e|].
    - apply (cosineSimilarity_range _ _ Hs).
    - rewrite Hs. unfold defaultSemanticScore. lra. }
  split; [exact Hk1|]. split; [lra|]. split; [exact Hsem|].
  split; [exact Hm|]. lra.
Qed.

End ScoreRange.

Section ScoreRangeExamples.

Import Embedding Search Example.
Open Scope R_scope.

Lemma example_proficiencies (emp : Employee) (e : HasSkillEdge) :
  In e (edgesOf db emp) -> 1 <= proficiency e <= 5.
Proof.
  unfold edgesOf.
  change (hasSkillTable db (employee_id emp))
    with (Ok (Items [Rows (edgesFor (employee_id emp))])).
  change (extractQueryResult (Items [Rows (edgesFor (employee_id emp))]))
    with (edgesFor (employee_id emp)).
  unfold edgesFor.
  repeat match goal with
         | |- context [String.eqb ?a ?b] => destruct (String.eqb a b)
         end;
    simpl; intros H;
    repeat match goal with
           | H : _ \/ _ |- _ => destruct H as [H|H]
           | H : False |- _ => destruct H
           end;
    subst e; simpl; lra.
Qed.

(** C1, on a store whose proficiencies lie between 1 and 5 and whose
    embeddings are unit vectors: the search returns two candidates.  The
    first one holds two matched skills of relevance 1 at proficiency 5,
    one of them certified: its graph score is 2.1 and its match score
    1.46, both above 1.  The second one has an embedding opposite to the
    query: its semantic score is -1 and its match score -0.28, both
    below 0.  No score of the three stays within [0,1]. *)
Theorem scores_leave_unit_interval :
  (forall emp e, In e (edgesOf db emp) -> 1 <= proficiency e <= 5) /\
  mutationFn provider db request start = (Ok result, finish) /\
  candidates result = [aliceMatch; bobMatch] /\
  graphScore aliceMatch = 2.1 /\ matchScore aliceMatch = 1.46 /\
  semanticScore bobMatch = -1 /\ matchScore bobMatch = -0.28 /\
  ~ (0 <= graphScore aliceMatch <= 1) /\
  ~ (0 <= matchScore aliceMatch <= 1) /\
  ~ (0 <= semanticScore bobMatch <= 1) /\
  ~ (0 <= matchScore bobMatch <= 1).
Proof.
  split; [exact example_proficiencies|].
  split; [exact mutationFn_example|].
  split; [reflexivity|].
  repeat (split; [reflexivity|]).
  simpl. repeat split; intros [H1 H2]; lra.
Qed.

End ScoreRangeExamples.

(** ** The mock provider *)

Section MockProviderFacts.

Import Embedding.
Open Scope R_scope.

Lemma fillEmbedding_length (n : nat) :
  forall (state : Z) (embedding : list R),
    List.length (fillEmbedding n state embedding) = (List.length embedding + n)%nat.
Proof.
  induction n as [|n IH]; intros state embedding; simpl.
  - lia.
  - rewrite IH, length_app. simpl. lia.
Qed.

(** A draw is an integer over the odd number 2^31 - 1: twice the draw
    is never 1. *)
Lemma draw_nonzero (state : Z) : fst (random state) * 2 - 1 <> 0.
Proof.
  unfold random. simpl fst. intros H.
  assert (Heq : IZR (nextState state * 2) = IZR 2147483647).
  { rewrite mult_IZR. lra. }
  apply eq_IZR in Heq. lia.
Qed.

Lemma fillEmbedding_nonzero (n : nat) :
  forall (state : Z) (embedding : list R),
    Forall (fun v => v <> 0) embedding ->
    Forall (fun v => v <> 0) (fillEmbedding n state embedding).
Proof.
  induction n as [|n IH]; intros state embedding Hall; simpl; [exact Hall|].
  apply IH. apply Forall_app. split; [exact Hall|].
  constructor; [|constructor]. exact (@draw_nonzero state).
Qed.

Lemma sum_squares_dot (l : list R) :
  forall acc : R, fold_left (fun sum val => sum + val * val) l acc = acc + dot l l.
Proof.
  induction l as [|v l IH]; intros acc; simpl; [lra|].
  rewrite IH. lra.
Qed.

Lemma dot_self_pos (l : list R) :
  l <> [] -> Forall (fun v => v <> 0) l -> 0 < dot l l.
Proof.
  intros Hne Hall. destruct l as [|v l]; [contradiction|].
  inversion Hall as [|? ? Hv _]; subst. simpl.
  pose proof (dot_self_nonneg l) as Hl.
  assert (0 < v * v) by nra. lra.
Qed.

Lemma dot_scaled (m : R) (l : list R) :
  m <> 0 ->
  dot (map (fun val => val / m) l) (map (fun val => val / m) l) = dot l l / (m * m).
Proof.
  intros Hm. induction l as [|v l IH]; simpl.
  - unfold Rdiv. lra.
  - rewrite IH. field. exact Hm.
Qed.

Lemma norm_normalised (l : list R) :
  0 < dot l l ->
  norm (map (fun val => val / R_sqrt.sqrt (dot l l)) l) = 1.
Proof.
  intros Hpos. unfold norm.
  assert (Hm : R_sqrt.sqrt (dot l l) <> 0).
  { apply Rgt_not_eq, sqrt_lt_R0, Hpos. }
  rewrite dot_scaled by exact Hm.
  rewrite sqrt_sqrt by lra.
  replace (dot l l / dot l l) with 1 by (field; lra).
  apply sqrt_1.
Qed.

(** C10. The mock provider is a function of the lowercased and trimmed
    text: two texts equal after lowercasing and trimming get the same
    vector.  Every vector it returns has 384 components and Euclidean
    norm 1. *)
Theorem mock_provider_deterministic (toLowerCase : jsstring -> jsstring) :
  (forall t1 t2 : jsstring,
      trim (toLowerCase t1) = trim (toLowerCase t2) ->
      generate toLowerCase t1 = generate toLowerCase t2) /\
  (forall text : jsstring,
      List.length (generate toLowerCase text) = 384%nat /\
      norm (generate toLowerCase text) = 1).
Proof.
  split.
  - intros t1 t2 Heq. unfold generate. rewrite Heq. reflexivity.
  - intros text. unfold generate.
    set (seed := hashString (trim (toLowerCase text))).
    set (embedding := fillEmbedding dimensions seed []).
    assert (Hlen : List.length embedding = 384%nat).
    { unfold embedding. rewrite fillEmbedding_length. reflexivity. }
    split.
    + rewrite length_map. exact Hlen.
    + rewrite sum_squares_dot, Rplus_0_l.
      apply norm_normalised. apply dot_self_pos.
      * intros Hnil. rewrite Hnil in Hlen. discriminate.
      * apply fillEmbedding_nonzero. constructor.
Qed.

Lemma mock_provider_deterministic_witness :
  generate asciiToLowerCase [32; 82; 117; 115; 116]%Z =
  generate asciiToLowerCase [114; 117; 115; 116; 32]%Z /\
  List.length (generate asciiToLowerCase [32; 82; 117; 115; 116]%Z) = 384%nat /\
  norm (generate asciiToLowerCase [32; 82; 117; 115; 116]%Z) = 1.
Proof.
  split.
  - apply (proj1 (mock_provider_deterministic asciiToLowerCase)).
    reflexivity.
  - apply (proj2 (mock_provider_deterministic asciiToLowerCase)).
Defined.

End MockProviderFacts.

(** ** Repulsion between two nodes *)

Section RepulsionFacts.

Import JSNum Graph.
Open Scope R_scope.

Lemma add_nan_r (a : num) : add a NaN = NaN.
Proof. destruct a; reflexivity. Qed.

Lemma add_nan_l (a : num) : add NaN a = NaN.
Proof. destruct a; reflexivity. Qed.

Lemma mul_nan_l (a : num) : mul NaN a = NaN.
Proof. destruct a; reflexivity. Qed.

Lemma sqrt_fin (s : R) : 0 <= s -> JSNum.sqrt (Fin s) = Fin (R_sqrt.sqrt s).
Proof.
  intros Hs. unfold JSNum.sqrt. destruct (Rlt_dec s 0); [exfalso; lra | reflexivity].
Qed.

Lemma orElse_nonzero (r : R) (b : num) : r <> 0 -> orElse (Fin r) b = Fin r.
Proof.
  intros Hr. unfold orElse, truthy.
  destruct (Req_dec_T r 0); [contradiction | reflexivity].
Qed.

Lemma orElse_zero (b : num) : orElse (Fin 0) b = b.
Proof.
  unfold orElse, truthy. destruct (Req_dec_T 0 0) as [_|H]; [reflexivity|].
  exfalso. apply H. reflexivity.
Qed.

Lemma div_fin (a b : R) : b <> 0 -> div (Fin a) (Fin b) = Fin (a / b).
Proof.
  intros Hb. unfold div. destruct (Req_dec_T b 0); [contradiction | reflexivity].
Qed.

Lemma div_zero_pos (a : R) : 0 < a -> div (Fin a) (Fin 0) = PInf.
Proof.
  intros Ha. unfold div, infTimes.
  destruct (Req_dec_T 0 0) as [_|H]; [|exfalso; apply H; reflexivity].
  destruct (Req_dec_T a 0); [exfalso; lra|].
  destruct (Rlt_dec 0 a); [reflexivity | exfalso; lra].
Qed.

Lemma mul_zero_inf : mul (Fin 0) PInf = NaN.
Proof.
  unfold mul, infTimes. destruct (Req_dec_T 0 0) as [_|H]; [reflexivity|].
  exfalso. apply H. reflexivity.
Qed.

Lemma distSq_fin (node other : GraphNode) (nx ny ox oy : R) :
  x node = Fin nx -> y node = Fin ny -> x other = Fin ox -> y other = Fin oy ->
  distSq node other = Fin ((nx - ox) * (nx - ox) + (ny - oy) * (ny - oy)).
Proof.
  intros Hnx Hny Hox Hoy. unfold distSq. rewrite Hnx, Hny, Hox, Hoy.
  reflexivity.
Qed.

Lemma repulsionStrength_value (node other : GraphNode) :
  repulsionStrength node other =
    Fin (if sameType (type node) (type other) then 2500 else 1500).
Proof. unfold repulsionStrength. destruct (sameType _ _); reflexivity. Qed.

Lemma repulsionForce_value (node other : GraphNode) (nx ny ox oy : R) :
  x node = Fin nx -> y node = Fin ny -> x other = Fin ox -> y other = Fin oy ->
  (nx - ox) * (nx - ox) + (ny - oy) * (ny - oy) <> 0 ->
  repulsionForce node other =
    Fin ((if sameType (type node) (type other) then 2500 else 1500)
         / ((nx - ox) * (nx - ox) + (ny - oy) * (ny - oy))).
Proof.
  intros Hnx Hny Hox Hoy Hs. unfold repulsionForce.
  rewrite repulsionStrength_value, (distSq_fin _ _ Hnx Hny Hox Hoy).
  apply div_fin. exact Hs.
Qed.

(** C8 (amended). Between two nodes at finite positions a non-zero
    distance apart, the repulsion force is the strength divided by the
    squared distance, 2500 for two nodes of one type and 1500 otherwise,
    applied along the unit vector from the other node.  The fallback to 1
    replaces an exactly zero distance in that unit vector only: the force
    is at most the strength when the distance is at least 1, and exceeds
    it when the distance is under 1. *)
Theorem repulsion_inverse_square (node other : GraphNode) (nx ny ox oy : R) :
  x node = Fin nx -> y node = Fin ny -> x other = Fin ox -> y other = Fin oy ->
  let dx := nx - ox in
  let dy := ny - oy in
  let s := dx * dx + dy * dy in
  let k := if sameType (type node) (type other) then 2500 else 1500 in
  s <> 0 ->
  repulsionForce node other = Fin (k / s) /\
  (forall fx fy : R,
      repulsion node other (Fin fx, Fin fy) =
        (Fin (fx + dx / R_sqrt.sqrt s * (k / s)),
         Fin (fy + dy / R_sqrt.sqrt s * (k / s)))) /\
  (dx / R_sqrt.sqrt s) * (dx / R_sqrt.sqrt s)
    + (dy / R_sqrt.sqrt s) * (dy / R_sqrt.sqrt s) = 1 /\
  (1 <= s -> k / s <= k) /\
  (s < 1 -> k < k / s).
Proof.
  intros Hnx Hny Hox Hoy dx dy s k Hs.
  assert (Hs0 : 0 < s).
  { assert (0 <= s) by (unfold s; nra). lra. }
  assert (Hk : 0 < k) by (unfold k; destruct (sameType _ _); lra).
  assert (Hroot : R_sqrt.sqrt s <> 0) by (apply Rgt_not_eq, sqrt_lt_R0, Hs0).
  assert (Hforce : repulsionForce node other = Fin (k / s)).
  { apply (repulsionForce_value _ _ Hnx Hny Hox Hoy). exact Hs. }
  split; [exact Hforce|]. split; [|split; [|split]].
  - intros fx fy. unfold repulsion. rewrite Hforce.
    rewrite (distSq_fin _ _ Hnx Hny Hox Hoy). fold dx dy s.
    rewrite sqrt_fin by lra. rewrite orElse_nonzero by exact Hroot.
    rewrite Hnx, Hny, Hox, Hoy.
    change (sub (Fin nx) (Fin ox)) with (Fin dx).
    change (sub (Fin ny) (Fin oy)) with (Fin dy).
    rewrite !div_fin by exact Hroot. reflexivity.
  - pose proof (sqrt_sqrt s (Rlt_le _ _ Hs0)) as Hsq.
    replace (dx / R_sqrt.sqrt s * (dx / R_sqrt.sqrt s)
             + dy / R_sqrt.sqrt s * (dy / R_sqrt.sqrt s))
      with (s / (R_sqrt.sqrt s * R_sqrt.sqrt s)) by (unfold s; field; exact Hroot).
    rewrite Hsq. field. exact Hs.
  - intros H1. apply Rmult_le_reg_r with (r := s); [exact Hs0|].
    unfold Rdiv. rewrite Rmult_assoc, Rinv_l by exact Hs. nra.
  - intros H1. apply Rmult_lt_reg_r with (r := s); [exact Hs0|].
    unfold Rdiv. rewrite Rmult_assoc, Rinv_l by exact Hs. nra.
Qed.

(** The inner loop applies the repulsion of every other node, in the
    order of the array. *)
Lemma repulsionLoop_fold (i : nat) (node : GraphNode) (others : list GraphNode) :
  forall (j : nat) (f : num * num),
    repulsionLoop i j node others f =
      fold_left (fun acc p => repulsion node (snd p) acc)
        (filter (fun p => negb (Nat.eqb i (fst p)))
           (combine (seq j (List.length others)) others))
        f.
Proof.
  induction others as [|other others IH]; intros j f; simpl; [reflexivity|].
  rewrite IH. destruct (Nat.eqb i j); reflexivity.
Qed.

End RepulsionFacts.

Section RepulsionExamples.

Import JSNum Graph GraphExample.
Open Scope R_scope.

Lemma repulsion_inverse_square_witness :
  let dx := 103 - 100 in
  let dy := 104 - 100 in
  let s := dx * dx + dy * dy in
  let k := if sameType (type farA) (type farB) then 2500 else 1500 in
  repulsionForce farA farB = Fin (k / s) /\
  (forall fx fy : R,
      repulsion farA farB (Fin fx, Fin fy) =
        (Fin (fx + dx / R_sqrt.sqrt s * (k / s)),
         Fin (fy + dy / R_sqrt.sqrt s * (k / s)))) /\
  (dx / R_sqrt.sqrt s) * (dx / R_sqrt.sqrt s)
    + (dy / R_sqrt.sqrt s) * (dy / R_sqrt.sqrt s) = 1 /\
  (1 <= s -> k / s <= k) /\
  (s < 1 -> k < k / s).
Proof.
  apply (@repulsion_inverse_square farA farB 103 104 100 100);
    try reflexivity.
  lra.
Defined.

(** C8 as the specification words it, a force bounded by the strength,
    fails: two employees a tenth of a unit apart repel each other with a
    force of 250000, a hundred times the strength. *)
Lemma repulsion_floor_counterexample :
  repulsionForce nearA nearB = Fin (2500 / 0.01) /\
  ~ (forall node other : GraphNode,
       exists f k : R,
         repulsionForce node other = Fin f /\
         repulsionStrength node other = Fin k /\
         f <= k).
Proof.
  assert (Hforce : repulsionForce nearA nearB = Fin (2500 / 0.01)).
  { rewrite (@repulsionForce_value nearA nearB 100.1 100 100 100
               eq_refl eq_refl eq_refl eq_refl) by lra.
    simpl. f_equal. lra. }
  split; [exact Hforce|].
  intros H. destruct (H nearA nearB) as (f & k & Hf & Hk & Hle).
  rewrite Hforce in Hf. injection Hf as <-.
  rewrite repulsionStrength_value in Hk. simpl in Hk. injection Hk as <-.
  lra.
Qed.

End RepulsionExamples.

(** ** Coincident nodes *)

Section CoincidentNodes.

Import JSNum Graph.
Open Scope R_scope.

Lemma ltb_nan_l (a : num) : ltb NaN a = false.
Proof. destruct a; reflexivity. Qed.

Lemma ltb_nan_r (a : num) : ltb a NaN = false.
Proof. destruct a; reflexivity. Qed.

(** The repulsion of a node from a node on the same spot: an infinite
    force along a zero vector. *)
Lemma repulsion_coincident (node other : GraphNode) (f : num * num) (px py : R) :
  x node = Fin px -> y node = Fin py -> x other = Fin px -> y other = Fin py ->
  repulsion node other f = (NaN, NaN).
Proof.
  intros Hnx Hny Hox Hoy. unfold repulsion, repulsionForce.
  rewrite repulsionStrength_value, (distSq_fin _ _ Hnx Hny Hox Hoy).
  replace ((px - px) * (px - px) + (py - py) * (py - py)) with 0 by lra.
  rewrite sqrt_fin by lra. rewrite sqrt_0, orElse_zero.
  rewrite div_zero_pos by (destruct (sameType _ _); lra).
  rewrite Hnx, Hny, Hox, Hoy.
  change (sub (Fin px) (Fin px)) with (Fin (px - px)).
  change (sub (Fin py) (Fin py)) with (Fin (py - py)).
  rewrite !div_fin by lra.
  replace ((px - px) / 1) with 0 by lra.
  replace ((py - py) / 1) with 0 by lra.
  rewrite mul_zero_inf, !add_nan_r. reflexivity.
Qed.

Lemma repulsion_nan (node other : GraphNode) :
  repulsion node other (NaN, NaN) = (NaN, NaN).
Proof. unfold repulsion. simpl fst. simpl snd. now rewrite !add_nan_l. Qed.

Lemma repulsionLoop_nan (i : nat) (node : GraphNode) (others : list GraphNode) :
  forall j, repulsionLoop i j node others (NaN, NaN) = (NaN, NaN).
Proof.
  induction others as [|other others IH]; intros j; simpl; [reflexivity|].
  destruct (Nat.eqb i j); [apply IH|]. rewrite repulsion_nan. apply IH.
Qed.

Lemma repulsionLoop_coincident (i : nat) (node other : GraphNode) (px py : R)
    (others : list GraphNode) :
  x node = Fin px -> y node = Fin py -> x other = Fin px -> y other = Fin py ->
  forall (k j : nat) (f : num * num),
    nth_error others k = Some other ->
    i <> (j + k)%nat ->
    repulsionLoop i j node others f = (NaN, NaN).
Proof.
  intros Hnx Hny Hox Hoy.
  induction others as [|o others IH]; intros k j f Hk Hne.
  - destruct k; discriminate.
  - simpl. destruct k as [|k].
    + injection Hk as ->.
      destruct (Nat.eqb i j) eqn:Hij; [apply Nat.eqb_eq in Hij; lia|].
      rewrite (repulsion_coincident _ _ f Hnx Hny Hox Hoy).
      apply repulsionLoop_nan.
    + apply (IH k); [exact Hk | lia].
Qed.

Lemma attraction_nan (nodes : list GraphNode) (node : GraphNode) (edge : GraphEdge) :
  attraction nodes node edge (NaN, NaN) = (NaN, NaN).
Proof.
  unfold attraction.
  destruct (String.eqb (source edge) (id node)
            || String.eqb (target edge) (id node))%bool;
    [|reflexivity].
  destruct (findNode nodes _); [|reflexivity].
  simpl fst. simpl snd. now rewrite !add_nan_l.
Qed.

Lemma attractions_nan (nodes : list GraphNode) (node : GraphNode)
    (edges : list GraphEdge) :
  fold_left (fun f edge => attraction nodes node edge f) edges (NaN, NaN)
  = (NaN, NaN).
Proof.
  induction edges as [|edge edges IH]; simpl; [reflexivity|].
  rewrite attraction_nan. exact IH.
Qed.

Lemma bounceHigh_nan (hi v : num) : bounceHigh hi (NaN, v) = (NaN, v).
Proof. unfold bounceHigh, gtb. simpl fst. now rewrite ltb_nan_r. Qed.

(** A free node that shares its spot with another node leaves the turn
    of the loop without a position. *)
Lemma stepNode_coincident (canvas : Canvas) (nodes : list GraphNode)
    (edges : list GraphEdge) (i j : nat) (node other : GraphNode) (px py : R) :
  nth_error nodes j = Some other ->
  i <> j ->
  x node = Fin px -> y node = Fin py -> x other = Fin px -> y other = Fin py ->
  x (stepNode canvas nodes edges i node) = NaN /\
  y (stepNode canvas nodes edges i node) = NaN.
Proof.
  intros Hj Hij Hnx Hny Hox Hoy. unfold stepNode.
  rewrite (@repulsionLoop_coincident i node other px py nodes
             Hnx Hny Hox Hoy j 0%nat _ Hj) by lia.
  rewrite attractions_nan. simpl fst. simpl snd.
  rewrite !add_nan_r, !mul_nan_l.
  change (gtb (JSNum.sqrt NaN) maxVel) with false. cbv iota.
  change (bounceLow margin (NaN, NaN)) with (NaN, NaN).
  rewrite !bounceHigh_nan. simpl. split; reflexivity.
Qed.

End CoincidentNodes.

(** ** The boundary rule *)

Section BoundaryFacts.

Import JSNum Graph.
Open Scope R_scope.

(** A coordinate under the margin is set to the margin and its velocity
    is multiplied by -0.5; above the far margin likewise. *)
Lemma bounceLow_crossing (lo c : R) (v : num) :
  c < lo -> bounceLow (Fin lo) (Fin c, v) = (Fin lo, mul v (Fin (-0.5))).
Proof.
  intros H. unfold bounceLow. simpl.
  destruct (Rlt_dec c lo); [reflexivity | contradiction].
Qed.

Lemma bounceHigh_crossing (hi c : R) (v : num) :
  hi < c -> bounceHigh (Fin hi) (Fin c, v) = (Fin hi, mul v (Fin (-0.5))).
Proof.
  intros H. unfold bounceHigh, gtb. simpl.
  destruct (Rlt_dec hi c); [reflexivity | contradiction].
Qed.

(** After the two tests, a coordinate is between the margins unless it
    is not a number. *)
Lemma bounce_range (lo hi : R) (cv : num * num) :
  lo <= hi ->
  fst (bounceHigh (Fin hi) (bounceLow (Fin lo) cv)) = NaN \/
  exists r, fst (bounceHigh (Fin hi) (bounceLow (Fin lo) cv)) = Fin r /\
            lo <= r <= hi.
Proof.
  intros Hle. destruct cv as [c v]. unfold bounceLow, bounceHigh, gtb.
  destruct c as [r| | |]; simpl.
  - destruct (Rlt_dec r lo) as [Hlow|Hlow]; simpl.
    + destruct (Rlt_dec hi lo); [exfalso; lra|].
      right. exists lo. simpl. split; [reflexivity | lra].
    + destruct (Rlt_dec hi r) as [Hhigh|Hhigh]; simpl.
      * right. exists hi. split; [reflexivity | lra].
      * right. exists r. split; [reflexivity | lra].
  - right. exists hi. split; [reflexivity | lra].
  - destruct (Rlt_dec hi lo); [exfalso; lra|].
    right. exists lo. simpl. split; [reflexivity | lra].
  - left. reflexivity.
Qed.

Lemma canvasWidth_fin (canvas : Canvas) : exists w, canvasWidth canvas = Fin w.
Proof.
  destruct canvas as [[w h]|]; simpl; [|eauto].
  unfold orElse, truthy. destruct (Req_dec_T w 0); eauto.
Qed.

Lemma canvasHeight_fin (canvas : Canvas) : exists h, canvasHeight canvas = Fin h.
Proof.
  destruct canvas as [[w h]|]; simpl; [|eauto].
  unfold orElse, truthy. destruct (Req_dec_T h 0); eauto.
Qed.

Lemma stepNode_x (canvas : Canvas) (nodes : list GraphNode)
    (edges : list GraphEdge) (i : nat) (node : GraphNode) :
  exists cv, x (stepNode canvas nodes edges i node) =
             fst (bounceHigh (sub (canvasWidth canvas) margin) (bounceLow margin cv)).
Proof.
  unfold stepNode.
  match goal with
  | |- context [bounceHigh (sub (canvasWidth canvas) margin) (bounceLow margin ?cv)] =>
      exists cv;
      destruct (bounceHigh (sub (canvasWidth canvas) margin) (bounceLow margin cv))
  end.
  match goal with
  | |- context [bounceHigh (sub (canvasHeight canvas) margin) ?cv] =>
      destruct (bounceHigh (sub (canvasHeight canvas) margin) cv)
  end.
  reflexivity.
Qed.

Lemma stepNode_y (canvas : Canvas) (nodes : list GraphNode)
    (edges : list GraphEdge) (i : nat) (node : GraphNode) :
  exists cv, y (stepNode canvas nodes edges i node) =
             fst (bounceHigh (sub (canvasHeight canvas) margin) (bounceLow margin cv)).
Proof.
  unfold stepNode.
  match goal with
  | |- context [bounceHigh (sub (canvasHeight canvas) margin) (bounceLow margin ?cv)] =>
      exists cv
  end.
  match goal with
  | |- context [bounceHigh (sub (canvasWidth canvas) margin) ?cv] =>
      destruct (bounceHigh (sub (canvasWidth canvas) margin) cv)
  end.
  match goal with
  | |- context [bounceHigh (sub (canvasHeight canvas) margin) ?cv] =>
      destruct (bounceHigh (sub (canvasHeight canvas) margin) cv)
  end.
  reflexivity.
Qed.

Lemma stepNode_id (canvas : Canvas) (nodes : list GraphNode)
    (edges : list GraphEdge) (i : nat) (node : GraphNode) :
  id (stepNode canvas nodes edges i node) = id node.
Proof.
  unfold stepNode.
  repeat match goal with
         | |- context [let '(a, b) := ?p in _] => destruct p
         end.
  reflexivity.
Qed.

End BoundaryFacts.

(** ** A whole tick *)

Section TickFacts.

Import JSNum Graph.
Open Scope R_scope.

Variable canvas : Canvas.
Variable draggingNode : option string.
Variable edges : list GraphEdge.

Lemma update_length (i : nat) (v : GraphNode) (nodes : list GraphNode) :
  List.length (update i v nodes) = List.length nodes.
Proof.
  revert i. induction nodes as [|n nodes IH]; intros [|i]; simpl;
    try reflexivity. now rewrite IH.
Qed.

Lemma nth_error_update_same (i : nat) (v : GraphNode) (nodes : list GraphNode) :
  (i < List.length nodes)%nat -> nth_error (update i v nodes) i = Some v.
Proof.
  revert i. induction nodes as [|n nodes IH]; intros [|i] Hi; simpl in *;
    try lia; [reflexivity|]. apply IH. lia.
Qed.

Lemma nth_error_update_other (i j : nat) (v : GraphNode) (nodes : list GraphNode) :
  i <> j -> nth_error (update i v nodes) j = nth_error nodes j.
Proof.
  revert i j. induction nodes as [|n nodes IH]; intros [|i] [|j] Hij; simpl;
    try reflexivity; try lia. apply IH. lia.
Qed.

Lemma stepAt_length (nodes : list GraphNode) (i : nat) :
  List.length (stepAt canvas draggingNode edges nodes i) = List.length nodes.
Proof.
  unfold stepAt. destruct (nth_error nodes i) as [node|]; [|reflexivity].
  destruct (isDragged draggingNode node); [reflexivity | apply update_length].
Qed.

Lemma stepAt_other (nodes : list GraphNode) (i j : nat) :
  i <> j ->
  nth_error (stepAt canvas draggingNode edges nodes i) j = nth_error nodes j.
Proof.
  intros Hij. unfold stepAt.
  destruct (nth_error nodes i) as [node|]; [|reflexivity].
  destruct (isDragged draggingNode node); [reflexivity|].
  apply nth_error_update_other, Hij.
Qed.

Lemma stepAt_self (nodes : list GraphNode) (i : nat) (node : GraphNode) :
  nth_error nodes i = Some node ->
  nth_error (stepAt canvas draggingNode edges nodes i) i =
    Some (if isDragged draggingNode node then node
          else stepNode canvas nodes edges i node).
Proof.
  intros Hi. unfold stepAt. rewrite Hi.
  destruct (isDragged draggingNode node); [exact Hi|].
  apply nth_error_update_same. apply nth_error_Some. rewrite Hi. discriminate.
Qed.

(** A node that is not dragged is either between the margins or without
    a position after its turn. *)
Lemma stepNode_bounds (nodes : list GraphNode) (i : nat) (node : GraphNode)
    (w h : R) :
  canvasWidth canvas = Fin w -> canvasHeight canvas = Fin h ->
  80 <= w -> 80 <= h ->
  inBounds canvas (stepNode canvas nodes edges i node) \/
  x (stepNode canvas nodes edges i node) = NaN \/
  y (stepNode canvas nodes edges i node) = NaN.
Proof.
  intros Hw Hh Hw80 Hh80.
  destruct (stepNode_x canvas nodes edges i node) as [cx Hx].
  destruct (stepNode_y canvas nodes edges i node) as [cy Hy].
  unfold inBounds. rewrite Hx, Hy, Hw, Hh. unfold margin.
  change (sub (Fin w) (Fin 40)) with (Fin (w - 40)).
  change (sub (Fin h) (Fin 40)) with (Fin (h - 40)).
  destruct (@bounce_range 40 (w - 40) cx ltac:(lra)) as [->|(rx & -> & Hrx)];
    [right; left; reflexivity|].
  destruct (@bounce_range 40 (h - 40) cy ltac:(lra)) as [->|(ry & -> & Hry)];
    [right; right; reflexivity|].
  left. split; assumption.
Qed.

Lemma tick_invariant (w h : R) :
  canvasWidth canvas = Fin w -> canvasHeight canvas = Fin h ->
  80 <= w -> 80 <= h ->
  forall (count start : nat) (nodes : list GraphNode),
    let after :=
      fold_left (stepAt canvas draggingNode edges) (seq start count) nodes in
    List.length after = List.length nodes /\
    (forall j, (j < start)%nat -> nth_error after j = nth_error nodes j) /\
    (forall j node,
        (start <= j < start + count)%nat ->
        nth_error after j = Some node ->
        isDragged draggingNode node = false ->
        inBounds canvas node \/ x node = NaN \/ y node = NaN).
Proof.
  intros Hw Hh Hw80 Hh80.
  induction count as [|count IH]; intros start nodes; simpl.
  - split; [reflexivity|]. split; [reflexivity|]. intros j node Hj. lia.
  - destruct (IH (S start) (stepAt canvas draggingNode edges nodes start))
      as (Hlen & Hbefore & Hafter).
    split; [rewrite Hlen; apply stepAt_length|].
    split.
    + intros j Hj. rewrite Hbefore by lia. apply stepAt_other. lia.
    + intros j node Hj Hnode Hfree.
      destruct (Nat.eq_dec j start) as [->|Hne].
      * rewrite Hbefore in Hnode by lia.
        destruct (nth_error nodes start) as [node0|] eqn:Hstart.
        -- rewrite (stepAt_self _ _ Hstart) in Hnode. injection Hnode as <-.
           destruct (isDragged draggingNode node0) eqn:Hd; [congruence|].
           apply (stepNode_bounds _ _ _ Hw Hh Hw80 Hh80).
        -- unfold stepAt in Hnode. rewrite Hstart in Hnode. congruence.
      * apply (Hafter j node); [lia | exact Hnode | exact Hfree].
Qed.

Lemma simulateStep_fold (nodes : list GraphNode) :
  simulateStep canvas draggingNode edges nodes =
    fold_left (stepAt canvas draggingNode edges) (seq 0 (List.length nodes)) nodes.
Proof. destruct nodes; reflexivity. Qed.

(** After a tick on a canvas at least 80 units wide and high, a node
    that is not dragged lies in the rectangle inset by the margin, unless
    one of its coordinates is not a number. *)
Lemma simulateStep_bounds (nodes : list GraphNode) (w h : R) (j : nat)
    (node : GraphNode) :
  canvasWidth canvas = Fin w -> canvasHeight canvas = Fin h ->
  80 <= w -> 80 <= h ->
  nth_error (simulateStep canvas draggingNode edges nodes) j = Some node ->
  isDragged draggingNode node = false ->
  inBounds canvas node \/ x node = NaN \/ y node = NaN.
Proof.
  intros Hw Hh Hw80 Hh80 Hnode Hfree.
  rewrite simulateStep_fold in Hnode.
  destruct (tick_invariant Hw Hh Hw80 Hh80 (List.length nodes) 0 nodes)
    as (Hlen & _ & Hafter).
  apply (Hafter j node); [|exact Hnode|exact Hfree].
  assert (Hj : (j < List.length
                      (fold_left (stepAt canvas draggingNode edges)
                         (seq 0 (List.length nodes)) nodes))%nat).
  { apply nth_error_Some. rewrite Hnode. discriminate. }
  rewrite Hlen in Hj. lia.
Qed.

End TickFacts.

Section TickExamples.

Import JSNum Graph GraphExample.
Open Scope R_scope.

(** C9, on two free nodes that share the corner of the margins: after
    the tick the first one has no position, so it is not inside the
    rectangle inset by the margin. *)
Theorem coincident_nodes_leave_bounds :
  exists a' b',
    simulateStep viewport None [] [cornerA; cornerB] = [a'; b'] /\
    isDragged None a' = false /\
    x a' = NaN /\ y a' = NaN /\
    ~ inBounds viewport a'.
Proof.
  exists (stepNode viewport [cornerA; cornerB] [] 0 cornerA).
  eexists. split; [reflexivity|]. split; [reflexivity|].
  destruct (@stepNode_coincident viewport [cornerA; cornerB] [] 0 1
              cornerA cornerB 40 40 eq_refl ltac:(lia)
              eq_refl eq_refl eq_refl eq_refl) as [Hx Hy].
  split; [exact Hx|]. split; [exact Hy|].
  unfold inBounds. rewrite Hx. intros H. exact H.
Qed.

(** The canvas of the component, 800 by 600, is wide and high enough for
    the bound of a tick. *)
Lemma simulateStep_bounds_example (j : nat) (node : GraphNode) :
  nth_error (simulateStep viewport None [] [farA; farB]) j = Some node ->
  inBounds viewport node \/ x node = NaN \/ y node = NaN.
Proof.
  intros Hnode.
  apply (@simulateStep_bounds viewport None [] [farA; farB] 800 600 j node);
    try assumption; try reflexivity; try lra.
  - unfold viewport, canvasWidth. apply orElse_nonzero. lra.
  - unfold viewport, canvasHeight. apply orElse_nonzero. lra.
Qed.

End TickExamples.

(** * Further properties *)

(** ** Cosine similarity as a measure *)

Section CosineMeasure.

Import Embedding.
Open Scope R_scope.

Lemma dot_comm (a : list R) : forall b : list R, dot a b = dot b a.
Proof.
  induction a as [|x a IH]; intros [|y b]; simpl; try reflexivity.
  rewrite IH. lra.
Qed.

(** The similarity does not depend on the order of its arguments: the
    two calls throw together or return the same number. *)
Theorem cosineSimilarity_symmetric (a b : list R) :
  match cosineSimilarity a b, cosineSimilarity b a with
  | Ok r, Ok r' => r = r' /\ List.length a = List.length b
  | Throw _, Throw _ => List.length a <> List.length b
  | _, _ => False
  end.
Proof.
  destruct (Nat.eq_dec (List.length a) (List.length b)) as [Hlen|Hlen].
  - rewrite (cosineSimilarity_equal_length _ _ Hlen).
    rewrite (cosineSimilarity_equal_length _ _ (eq_sym Hlen)).
    split; [|exact Hlen].
    rewrite (dot_comm a b), (Rmult_comm (norm a) (norm b)). reflexivity.
  - unfold cosineSimilarity.
    destruct (Nat.eqb (List.length a) (List.length b)) eqn:Hab;
      [apply Nat.eqb_eq in Hab; contradiction|].
    destruct (Nat.eqb (List.length b) (List.length a)) eqn:Hba;
      [apply Nat.eqb_eq in Hba; congruence|].
    simpl. exact Hlen.
Qed.

End CosineMeasure.

(** ** The values of the mock provider *)

Section MockProviderValues.

Import Embedding.
Open Scope R_scope.

Variable toLowerCase : jsstring -> jsstring.

Lemma toInt32_range (z : Z) : (-2147483648 <= toInt32 z < 2147483648)%Z.
Proof.
  unfold toInt32.
  pose proof (Z.mod_pos_bound (z + 2147483648) 4294967296 ltac:(lia)). lia.
Qed.

Lemma hashString_from (str : jsstring) :
  forall hash : Z,
    (-2147483648 <= hash < 2147483648)%Z ->
    (-2147483648 <= fold_left hashStep str hash < 2147483648)%Z.
Proof.
  induction str as [|c str IH]; intros hash Hh; simpl; [exact Hh|].
  apply IH. unfold hashStep. apply toInt32_range.
Qed.

Lemma nextState_range (state : Z) : (0 <= nextState state <= 2147483647)%Z.
Proof.
  unfold nextState. change 2147483647%Z with (Z.ones 31).
  rewrite Z.land_ones by lia.
  pose proof (Z.mod_pos_bound
                (toInt32 (roundToDouble (roundToDouble (state * 1103515245) + 12345)))
                (2 ^ 31) ltac:(lia)) as H.
  change (2 ^ 31)%Z with 2147483648%Z in *. change (Z.ones 31) with 2147483647%Z.
  lia.
Qed.

Lemma generate_length (text : jsstring) :
  List.length (generate toLowerCase text) = 384%nat.
Proof.
  unfold generate. rewrite length_map, fillEmbedding_length. reflexivity.
Qed.

Lemma generate_norm (text : jsstring) : norm (generate toLowerCase text) = 1.
Proof.
  unfold generate. rewrite sum_squares_dot, Rplus_0_l.
  apply norm_normalised. apply dot_self_pos.
  - intros Hnil.
    pose proof (fillEmbedding_length dimensions
                  (hashString (trim (toLowerCase text))) []) as Hlen.
    rewrite Hnil in Hlen. discriminate.
  - apply fillEmbedding_nonzero. constructor.
Qed.

Lemma component_le_norm (l : list R) (v : R) : In v l -> v * v <= dot l l.
Proof.
  induction l as [|x l IH]; intros Hin; [destruct Hin|].
  simpl. pose proof (dot_self_nonneg l) as Hl.
  destruct Hin as [->|Hin].
  - lra.
  - specialize (IH Hin). pose proof (Rle_0_sqr x) as Hx. unfold Rsqr in Hx. lra.
Qed.

(** The hash of a string is a signed 32-bit integer; the generator keeps
    its state between 0 and 2^31 - 1 and draws numbers between 0 and 1;
    every component of a vector of the mock provider lies between -1
    and 1. *)
Theorem mock_provider_ranges :
  (forall str : jsstring, (-2147483648 <= hashString str < 2147483648)%Z) /\
  (forall state : Z,
      (0 <= snd (random state) <= 2147483647)%Z /\
      0 <= fst (random state) <= 1) /\
  (forall (text : jsstring) (v : R),
      In v (generate toLowerCase text) -> -1 <= v <= 1).
Proof.
  split; [|split].
  - intros str. unfold hashString. apply hashString_from. lia.
  - intros state. unfold random. simpl.
    pose proof (nextState_range state) as Hs. split; [exact Hs|].
    destruct Hs as [Hlo Hhi]. apply IZR_le in Hlo. apply IZR_le in Hhi.
    split.
    + apply Rmult_le_reg_r with (r := 2147483647); [lra|].
      unfold Rdiv. rewrite Rmult_assoc, Rinv_l by lra. lra.
    + apply Rmult_le_reg_r with (r := 2147483647); [lra|].
      unfold Rdiv. rewrite Rmult_assoc, Rinv_l by lra. lra.
  - intros text v Hin.
    pose proof (component_le_norm _ _ Hin) as Hv.
    pose proof (generate_norm text) as Hn. unfold norm in Hn.
    assert (Hd : dot (generate toLowerCase text) (generate toLowerCase text) = 1).
    { pose proof (dot_self_nonneg (generate toLowerCase text)) as Hnn.
      rewrite <- (sqrt_sqrt _ Hnn). rewrite Hn. lra. }
    rewrite Hd in Hv. nra.
Qed.

End MockProviderValues.

(** ** The providers and their fallback *)

Section ProviderFacts.

Import Embedding Providers.
Open Scope string_scope.

Variable host : Host.

Lemma getEmbeddingProvider_known (config : EmbeddingConfig) :
  match getEmbeddingProvider config with
  | Own p =>
      (provider config = Some "mock" /\ p = MockProvider) \/
      (provider config = Some "local" /\ p = LocalProvider) \/
      (provider config = Some "openai" /\ p = OpenAIProvider) \/
      (provider config = Some "ollama" /\ p = OllamaProvider)
  | Inherited member =>
      provider config = Some member /\ In member inheritedMembers /\
      forall p, In p knownProviders -> member <> p
  | Absent =>
      forall p, In p knownProviders \/ In p inheritedMembers ->
                provider config <> Some p
  end.
Proof.
  unfold getEmbeddingProvider.
  destruct (provider config) as [p|].
  - destruct (String.eqb p "mock") eqn:H1;
      [apply String.eqb_eq in H1; subst; auto|].
    destruct (String.eqb p "local") eqn:H2;
      [apply String.eqb_eq in H2; subst; auto|].
    destruct (String.eqb p "openai") eqn:H3;
      [apply String.eqb_eq in H3; subst; auto 6|].
    destruct (String.eqb p "ollama") eqn:H4;
      [apply String.eqb_eq in H4; subst; auto 6|].
    apply String.eqb_neq in H1, H2, H3, H4.
    assert (Hunknown : forall q, In q knownProviders -> p <> q).
    { intros q Hq ->. simpl in Hq. intuition congruence. }
    destruct (existsb (String.eqb p) inheritedMembers) eqn:H5.
    + split; [reflexivity|]. split; [|exact Hunknown].
      apply existsb_exists in H5. destruct H5 as (m & Hm & Heq).
      apply String.eqb_eq in Heq. subst m. exact Hm.
    + intros q [Hq|Hq] Heq; injection Heq as ->.
      * exact (Hunknown _ Hq eq_refl).
      * assert (Hex : existsb (String.eqb q) inheritedMembers = true).
        { apply existsb_exists. exists q. split; [exact Hq | apply String.eqb_refl]. }
        congruence.
  - intros q _. discriminate.
Qed.


(** A fallen-back call shows in the console only.  Under the two remote
    providers its vector has the 384 components of the mock provider, not
    the 1536 or 1024 that [getEmbeddingDimensions] announces: comparing it
    with a vector of the announced dimension throws. *)
Theorem fallback_dimension_gap (config : EmbeddingConfig) (text : jsstring)
    (r : Embedded) (log : list string) (d : nat) (w : list R) :
  provider config = Some "openai" \/ provider config = Some "ollama" ->
  generateEmbedding host config text = Ok (r, log) ->
  log <> [] ->
  getEmbeddingDimensions config = Ok (Some d) ->
  List.length w = d ->
  r = Some (Embedding.generate (toLowerCase host) text) /\
  (d = 1536%nat \/ d = 1024%nat) /\
  cosineSimilarity (Embedding.generate (toLowerCase host) text) w
  = Throw (DimensionMismatch 384 d).
Proof.
  intros Hp Hgen Hlog Hdim Hw.
  unfold generateEmbedding in Hgen. unfold getEmbeddingDimensions in Hdim.
  assert (Hv : r = Some (Embedding.generate (toLowerCase host) text) /\
               (d = 1536%nat \/ d = 1024%nat)).
  { unfold getEmbeddingProvider in *.
    destruct Hp as [Hp|Hp]; rewrite Hp in *; simpl in Hgen, Hdim;
      injection Hdim as <-.
    - destruct (hasKey config) as [key|].
      + destruct (openaiSingle host key _ text) as [u|e];
          injection Hgen as <- <-; [contradiction | auto].
      + injection Hgen as <- <-. auto.
    - unfold ollamaGenerate in Hgen.
      destruct (ollamaSingle host config text) as [u|e];
        injection Hgen as <- <-; [contradiction | auto]. }
  destruct Hv as [Hv Hd]. split; [exact Hv|]. split; [exact Hd|].
  unfold cosineSimilarity. rewrite generate_length, Hw.
  destruct Hd as [->| ->]; reflexivity.
Qed.

End ProviderFacts.

(** An answer of the second service without an embedding comes back as
    [undefined], with no line on the console. *)
Lemma bare_reply_returns_undefined :
  Providers.generateEmbedding ProviderExample.bare
    (ProviderExample.configOf "ollama" None) ProviderExample.rust
  = Ok (None, []).
Proof. reflexivity. Qed.

Lemma fallback_dimension_gap_witness :
  Some (Embedding.generate (Providers.toLowerCase ProviderExample.offline)
          ProviderExample.rust)
  = Some (Embedding.generate (Providers.toLowerCase ProviderExample.offline)
            ProviderExample.rust) /\
  (1536 = 1536 \/ 1536 = 1024)%nat /\
  Embedding.cosineSimilarity
    (Embedding.generate (Providers.toLowerCase ProviderExample.offline)
       ProviderExample.rust)
    (repeat 0%R 1536)
  = Throw (DimensionMismatch 384 1536).
Proof.
  apply (@fallback_dimension_gap ProviderExample.offline
           (ProviderExample.configOf "openai" None) ProviderExample.rust
           _ ["OpenAI API key not configured, falling back to mock"%string]
           1536%nat (repeat 0%R 1536)).
  - left. reflexivity.
  - reflexivity.
  - discriminate.
  - reflexivity.
  - apply repeat_length.
Defined.

(** ** The order of a batch *)

Section BatchOrder.

Import Embedding Providers.
Open Scope R_scope.

Lemma sort_ext (A : Type) (c1 c2 : A -> A -> R) (l : list A) :
  (forall a b, c1 a b = c2 a b) -> JSArray.sort c1 l = JSArray.sort c2 l.
Proof.
  intros Hext. induction l as [|x l IH]; [reflexivity|].
  change (JSArray.sort c1 (x :: l)) with (JSArray.insertSorted c1 x (JSArray.sort c1 l)).
  change (JSArray.sort c2 (x :: l)) with (JSArray.insertSorted c2 x (JSArray.sort c2 l)).
  rewrite IH. generalize (JSArray.sort c2 l) as s.
  induction s as [|y s IHs]; simpl; [reflexivity|].
  rewrite Hext, IHs. reflexivity.
Qed.

(** A list has one descending arrangement when its keys are distinct. *)
Lemma sorted_perm_unique (A : Type) (key : A -> R) (l1 : list A) :
  forall l2 : list A,
    StronglySorted (JSArray.descending key) l1 ->
    StronglySorted (JSArray.descending key) l2 ->
    Permutation l1 l2 ->
    NoDup (map key l1) ->
    l1 = l2.
Proof.
  induction l1 as [|a l1 IH]; intros l2 Hs1 Hs2 Hperm Hnd.
  - apply Permutation_nil in Hperm. now subst.
  - destruct l2 as [|b l2];
      [apply Permutation_sym, Permutation_nil in Hperm; discriminate|].
    inversion Hs1 as [|? ? Hs1' Ha]; subst.
    inversion Hs2 as [|? ? Hs2' Hb]; subst.
    inversion Hnd as [|? ? Hnotin Hnd']; subst.
    rewrite Forall_forall in Ha, Hb.
    assert (Hab : a = b).
    { assert (Hin_b : In b (a :: l1))
        by (eapply Permutation_in; [symmetry; exact Hperm | now left]).
      destruct Hin_b as [Heq|Hin_b]; [exact Heq|].
      assert (Hin_a : In a (b :: l2))
        by (eapply Permutation_in; [exact Hperm | now left]).
      destruct Hin_a as [Heq|Hin_a]; [now symmetry|].
      pose proof (Ha b Hin_b) as H1. pose proof (Hb a Hin_a) as H2.
      unfold JSArray.descending in H1, H2.
      exfalso. apply Hnotin.
      replace (key a) with (key b) by lra. apply in_map, Hin_b. }
    subst b. f_equal. apply IH; try assumption.
    eapply Permutation_cons_inv. exact Hperm.
Qed.

Lemma indexed_sorted (vs : list Embedded) :
  forall start : nat,
    StronglySorted (JSArray.descending indexKey)
      (combine (map Z.of_nat (seq start (List.length vs))) vs).
Proof.
  induction vs as [|v vs IH]; intros start; simpl; [constructor|].
  constructor; [apply IH|].
  apply Forall_forall. intros [i u] Hin.
  apply in_combine_l in Hin. apply in_map_iff in Hin.
  destruct Hin as (k & <- & Hk). apply in_seq in Hk.
  unfold JSArray.descending, indexKey. simpl.
  apply Ropp_le_contravar. apply IZR_le. lia.
Qed.

Lemma indexed_keys (vs : list Embedded) :
  forall start : nat,
    NoDup (map indexKey (combine (map Z.of_nat (seq start (List.length vs))) vs)).
Proof.
  induction vs as [|v vs IH]; intros start; simpl; [constructor|].
  constructor; [|apply IH].
  intros Hin. apply in_map_iff in Hin. destruct Hin as ([i u] & Hkey & Hin).
  apply in_combine_l in Hin. apply in_map_iff in Hin.
  destruct Hin as (k & <- & Hk). apply in_seq in Hk.
  unfold indexKey in Hkey. simpl in Hkey.
  assert (Heq : IZR (Z.of_nat k) = IZR (Z.of_nat start)) by lra.
  apply eq_IZR in Heq. lia.
Qed.

Lemma indexed_values (vs : list Embedded) :
  forall start : nat,
    map (fun item : Z * Embedded => snd item)
      (combine (map Z.of_nat (seq start (List.length vs))) vs) = vs.
Proof.
  induction vs as [|v vs IH]; intros start; simpl; [reflexivity|].
  now rewrite IH.
Qed.

(** A batch call answered with one item for each index from 0 on returns
    the vectors in the order of the indices, in whatever order the service
    lists the items. *)
Theorem openaiBatch_order (host : Host) (key model : string)
    (texts : list jsstring) (response : HttpResponse (list (Z * Embedded)))
    (data : list (Z * Embedded)) (vs : list Embedded) :
  openaiFetch host key model (Many texts) = Ok response ->
  ok response = true ->
  json response = Ok data ->
  Permutation data (combine (map Z.of_nat (seq 0 (List.length vs))) vs) ->
  openaiBatch host key model texts = Ok vs.
Proof.
  intros Hfetch Hok Hjson Hperm.
  unfold openaiBatch. rewrite Hfetch, Hok, Hjson. simpl. f_equal.
  rewrite (@sort_ext _ _ (JSArray.byKey indexKey) data)
    by (intros a b; unfold JSArray.byKey, indexKey; lra).
  rewrite (@sorted_perm_unique _ indexKey
             (JSArray.sort (JSArray.byKey indexKey) data)
             (combine (map Z.of_nat (seq 0 (List.length vs))) vs)).
  - apply indexed_values.
  - apply sort_sorted.
  - apply indexed_sorted.
  - rewrite sort_perm. exact Hperm.
  - eapply Permutation_NoDup; [|apply (indexed_keys vs 0)].
    apply Permutation_map. symmetry. rewrite sort_perm. exact Hperm.
Qed.

End BatchOrder.

Lemma openaiBatch_order_witness :
  Providers.openaiBatch ProviderExample.shuffled "key" "model"
    [ProviderExample.rust; ProviderExample.rust]
  = Ok [Some [1%R; 0%R]; Some [0%R; 1%R]].
Proof.
  apply (@openaiBatch_order ProviderExample.shuffled "key" "model"
           [ProviderExample.rust; ProviderExample.rust]
           {| Providers.ok := true; Providers.statusText := "OK";
              Providers.json :=
                Ok [ (1%Z, Some [0%R; 1%R]); (0%Z, Some [1%R; 0%R]) ] |}
           [ (1%Z, Some [0%R; 1%R]); (0%Z, Some [1%R; 0%R]) ]
           [Some [1%R; 0%R]; Some [0%R; 1%R]]).
  - reflexivity.
  - reflexivity.
  - reflexivity.
  - simpl. apply perm_swap.
Defined.

(** ** The semantic search on skills *)

Section SemanticSearchFacts.

Import Embedding Search Hooks.
Open Scope R_scope.

Variable generateEmbedding : jsstring -> Exc (list R).
Variable db : Db.

(** The four ways a search on a non-empty text ends. *)
Lemma semanticSkillSearch_cases (c : Z) (text : jsstring) (limit : option Z)
    (l : Log) :
  let lim := match limit with Some n => n | None => 10%Z end in
  semanticSkillSearch generateEmbedding db (Some (c :: text)) limit l =
    match generateEmbedding (c :: text) with
    | Throw e => (Ok [], logError e (logEmbed (c :: text) l))
    | Ok qe =>
        match skillsWithEmbedding db with
        | Throw e =>
            (Ok [], logError e (logAsk SkillsWithEmbedding (logEmbed (c :: text) l)))
        | Ok rows =>
            match mapExc (scoreSkill qe)
                    (filter hasEmbedding (extractQueryResult rows)) with
            | Throw e =>
                (Ok [],
                 logError e (logAsk SkillsWithEmbedding (logEmbed (c :: text) l)))
            | Ok scored =>
                (Ok (JSArray.slice0
                       (JSArray.sort byScore
                          (filter (fun s => Rgtb (snd s) 0.5) scored))
                       lim),
                 logAsk SkillsWithEmbedding (logEmbed (c :: text) l))
            end
        end
    end.
Proof.
  intros lim. unfold semanticSkillSearch, catch, andThen, embed, ask, fromExc.
  destruct (generateEmbedding (c :: text)) as [qe|e]; [|reflexivity].
  destruct (skillsWithEmbedding db) as [rows|e]; [|reflexivity].
  destruct (mapExc (scoreSkill qe) (filter hasEmbedding (extractQueryResult rows)))
    as [scored|e]; reflexivity.
Qed.

Lemma firstn_sorted (A : Type) (P : A -> A -> Prop) (l : list A) :
  forall n, StronglySorted P l -> StronglySorted P (firstn n l).
Proof.
  induction l as [|a l IH]; intros [|n] Hs; simpl; try constructor.
  - inversion Hs; subst. apply IH. assumption.
  - inversion Hs as [|? ? _ Hall]; subst.
    rewrite Forall_forall in *. intros x Hx. apply Hall.
    rewrite <- (firstn_skipn n l). apply in_or_app. now left.
Qed.

Lemma scoreSkill_ok (qe : list R) (s : Skill) (p : Skill * R) :
  scoreSkill qe s = Ok p ->
  fst p = s /\
  exists e, skill_embedding s = Some e /\ cosineSimilarity qe e = Ok (snd p).
Proof.
  unfold scoreSkill. destruct (skill_embedding s) as [e|]; [|discriminate].
  destruct (cosineSimilarity qe e) as [r|err] eqn:Hcos; [|discriminate].
  intros H. injection H as <-. split; [reflexivity|].
  exists e. split; [reflexivity | exact Hcos].
Qed.

Lemma Forall2_In_right (A B : Type) (P : A -> B -> Prop) (l1 : list A)
    (l2 : list B) (b : B) :
  Forall2 P l1 l2 -> In b l2 -> exists a, In a l1 /\ P a b.
Proof.
  induction 1 as [|a0 b0 l1 l2 Hab _ IH]; intros Hin; [destruct Hin|].
  destruct Hin as [<-|Hin].
  - exists a0. split; [now left | exact Hab].
  - destruct (IH Hin) as (a & Ha & HP). exists a. split; [now right | exact HP].
Qed.

(** The search on skills returns a list in every case.  The list is
    sorted by descending score and, for a limit that is not negative, no
    longer than the limit; each entry is a row of the store with a
    non-empty embedding, scored above 0.5 by its cosine similarity with
    the query.  Without a query text the list is empty and neither the
    provider nor the store is called. *)
Theorem semanticSkillSearch_sound (query : option jsstring) (limit : option Z)
    (l : Log) :
  let lim := match limit with Some n => n | None => 10%Z end in
  exists res l',
    semanticSkillSearch generateEmbedding db query limit l = (Ok res, l') /\
    StronglySorted (JSArray.descending snd) res /\
    ((0 <= lim)%Z -> (List.length res <= Z.to_nat lim)%nat) /\
    (forall s r,
        In (s, r) res ->
        0.5 < r /\ hasEmbedding s = true /\
        exists text qe rows e,
          query = Some text /\
          generateEmbedding text = Ok qe /\
          skillsWithEmbedding db = Ok rows /\
          In s (extractQueryResult rows) /\
          skill_embedding s = Some e /\
          cosineSimilarity qe e = Ok r) /\
    (query = None \/ query = Some [] -> res = [] /\ l' = l).
Proof.
  intros lim.
  assert (Hempty : forall l' : Log,
            StronglySorted (JSArray.descending (@snd Skill R)) [] /\
            ((0 <= lim)%Z -> (@List.length (Skill * R) [] <= Z.to_nat lim)%nat) /\
            (forall s r, In (s, r) (@nil (Skill * R)) ->
               0.5 < r /\ hasEmbedding s = true /\
               exists text qe rows e,
                 query = Some text /\ generateEmbedding text = Ok qe /\
                 skillsWithEmbedding db = Ok rows /\
                 In s (extractQueryResult rows) /\
                 skill_embedding s = Some e /\ cosineSimilarity qe e = Ok r)).
  { intros l'. split; [constructor|]. split; [simpl; lia|]. intros s r []. }
  destruct query as [[|c text]|].
  - exists [], l. split; [reflexivity|].
    destruct (Hempty l) as (H1 & H2 & H3).
    split; [exact H1|]. split; [exact H2|]. split; [exact H3|].
    intros _. split; reflexivity.
  - pose proof (semanticSkillSearch_cases c text limit l) as Hrun.
    fold lim in Hrun. cbv zeta in Hrun.
    destruct (generateEmbedding (c :: text)) as [qe|e] eqn:Hgen.
    2:{ eexists _, _. split; [exact Hrun|].
        destruct (Hempty l) as (H1 & H2 & H3).
        split; [exact H1|]. split; [exact H2|]. split; [exact H3|].
        intros [H|H]; discriminate. }
    destruct (skillsWithEmbedding db) as [rows|e] eqn:Hrows.
    2:{ eexists _, _. split; [exact Hrun|].
        destruct (Hempty l) as (H1 & H2 & H3).
        split; [exact H1|]. split; [exact H2|]. split; [exact H3|].
        intros [H|H]; discriminate. }
    destruct (mapExc (scoreSkill qe) (filter hasEmbedding (extractQueryResult rows)))
      as [scored|e] eqn:Hmap.
    2:{ eexists _, _. split; [exact Hrun|].
        destruct (Hempty l) as (H1 & H2 & H3).
        split; [exact H1|]. split; [exact H2|]. split; [exact H3|].
        intros [H|H]; discriminate. }
    eexists _, _. split; [exact Hrun|].
    change byScore with (JSArray.byKey (@snd Skill R)).
    split; [|split; [|split]].
    + unfold JSArray.slice0. apply firstn_sorted, sort_sorted.
    + intros Hlim. rewrite slice0_length by exact Hlim. apply Nat.le_min_l.
    + intros s r Hin. apply slice0_incl, sort_In, filter_In in Hin.
      destruct Hin as [Hin Hgt]. simpl in Hgt. apply Rgtb_true in Hgt.
      apply mapExc_ok in Hmap.
      destruct (@Forall2_In_right _ _ _ _ _ (s, r) Hmap Hin) as (s0 & Hs0 & Hsc).
      apply filter_In in Hs0. destruct Hs0 as [Hrow Hemb].
      destruct (scoreSkill_ok _ _ Hsc) as [Hfst (e & He & Hcos)].
      simpl in Hfst, Hcos. subst s0.
      split; [exact Hgt|]. split; [exact Hemb|].
      exists (c :: text), qe, rows, e. repeat split; assumption.
    + intros [H|H]; discriminate.
  - exists [], l. split; [reflexivity|].
    destruct (Hempty l) as (H1 & H2 & H3).
    split; [exact H1|]. split; [exact H2|]. split; [exact H3|].
    intros _. split; reflexivity.
Qed.

End SemanticSearchFacts.

Section EmptyEmbeddings.

Import Embedding Search Hooks.
Open Scope R_scope.

Lemma mapExc_total (A B : Type) (f : A -> Exc B) (l : list A) :
  (forall a, In a l -> exists b, f a = Ok b) -> exists bs, mapExc f l = Ok bs.
Proof.
  induction l as [|a l IH]; intros Hall; simpl; [eauto|].
  destruct (Hall a (or_introl eq_refl)) as [b Hb]. rewrite Hb.
  destruct (IH (fun x Hx => Hall x (or_intror Hx))) as [bs Hbs]. rewrite Hbs.
  eauto.
Qed.

Lemma mapExc_throws (A B : Type) (f : A -> Exc B) (l : list A) (a : A) (e : Error) :
  In a l -> f a = Throw e -> exists e', mapExc f l = Throw e'.
Proof.
  induction l as [|x l IH]; intros Hin Hfa; [destruct Hin|].
  simpl. destruct Hin as [->|Hin].
  - rewrite Hfa. eauto.
  - destruct (f x); [|eauto].
    destruct (IH Hin Hfa) as [e' He']. rewrite He'. eauto.
Qed.

(** The search on skills passes over the skills whose embedding is the
    empty array: when every other embedding has the dimension of the
    query embedding, nothing is written to the console, each remaining
    skill is scored by its cosine similarity, and the result is made of
    the scores above 0.5 in descending order, cut to the limit. *)
Theorem semanticSkillSearch_skips_empty
    (generateEmbedding : jsstring -> Exc (list R)) (db : Db)
    (text : jsstring) (limit : option Z) (l : Log)
    (qe : list R) (rows : Response Skill) :
  let lim := match limit with Some n => n | None => 10%Z end in
  text <> [] ->
  generateEmbedding text = Ok qe ->
  skillsWithEmbedding db = Ok rows ->
  (forall s e, In s (extractQueryResult rows) -> skill_embedding s = Some e ->
               e <> [] -> List.length e = List.length qe) ->
  (0 <= lim)%Z ->
  exists scored ordered res l',
    semanticSkillSearch generateEmbedding db (Some text) limit l = (Ok res, l') /\
    errors l' = errors l /\
    Forall2
      (fun s p =>
         fst p = s /\
         exists e, skill_embedding s = Some e /\
                   cosineSimilarity qe e = Ok (snd p))
      (filter hasEmbedding (extractQueryResult rows)) scored /\
    Permutation ordered (filter (fun p => Rgtb (snd p) 0.5) scored) /\
    StronglySorted (JSArray.descending snd) ordered /\
    res = firstn (Z.to_nat lim) ordered.
Proof.
  intros lim Htext Hgen Hrows Hdims Hlim.
  destruct text as [|c text]; [contradiction|].
  pose proof (semanticSkillSearch_cases generateEmbedding db c text limit l) as Hrun.
  fold lim in Hrun. cbv zeta in Hrun. rewrite Hgen, Hrows in Hrun.
  destruct (@mapExc_total _ _ (scoreSkill qe)
              (filter hasEmbedding (extractQueryResult rows))) as [scored Hmap].
  { intros s Hs. apply filter_In in Hs. destruct Hs as [Hrow Hemb].
    unfold hasEmbedding in Hemb. unfold scoreSkill.
    destruct (skill_embedding s) as [[|x e]|] eqn:He; try discriminate.
    assert (Hlen : List.length qe = List.length (x :: e)).
    { symmetry. apply (Hdims s); [exact Hrow | exact He | discriminate]. }
    rewrite (cosineSimilarity_equal_length _ _ Hlen). eauto. }
  rewrite Hmap in Hrun.
  exists scored,
    (JSArray.sort (JSArray.byKey snd) (filter (fun p => Rgtb (snd p) 0.5) scored)).
  eexists _, _. split; [exact Hrun|]. split; [reflexivity|].
  split.
  { eapply Forall2_impl; [|apply mapExc_ok, Hmap].
    intros s p Hsp. apply scoreSkill_ok, Hsp. }
  split; [apply sort_perm|]. split; [apply sort_sorted|].
  apply slice0_firstn. exact Hlim.
Qed.

(** In the candidate search, one skill of the store whose embedding is
    the empty array stops the whole search: the similarity throws on it
    and the result is the empty one, whatever the other skills and the
    employees are. *)
Theorem empty_embedding_stops_candidate_search
    (generateEmbedding : jsstring -> Exc (list R)) (db : Store)
    (sq : SemanticSearchQuery) (t : Trace) (qe : list R)
    (sr : Response Skill) (s : Skill) :
  generateEmbedding (query sq) = Ok qe ->
  qe <> [] ->
  skillTable db = Ok sr ->
  In s (extractQueryResult sr) ->
  skill_embedding s = Some [] ->
  exists e,
    mutationFn generateEmbedding db sq t =
      (Ok emptyResult,
       {| sent := SelectSkills :: sent t; logged := e :: logged t |}).
Proof.
  intros Hgen Hqe Hsk Hin Hemb.
  assert (Hthrow : skillRelevance qe s
                   = Throw (DimensionMismatch (List.length qe) 0)).
  { unfold skillRelevance. rewrite Hemb. unfold cosineSimilarity.
    destruct qe as [|x qe]; [contradiction|]. reflexivity. }
  destruct (mapExc_throws _ _ _ Hin Hthrow) as [e He].
  exists e.
  assert (Hbody : searchBody generateEmbedding db sq t
                  = (Throw e, send SelectSkills t)).
  { unfold searchBody, bind at 1, lift at 1. rewrite Hgen.
    unfold bind at 1, querySkills. rewrite Hsk.
    unfold bind at 1, lift at 1. unfold relevantSkillsOf. rewrite He.
    reflexivity. }
  rewrite (@mutationFn_of_body generateEmbedding db sq t _ _ Hbody).
  reflexivity.
Qed.

End EmptyEmbeddings.

Section EmptyEmbeddingExamples.

Import Embedding Search Hooks.
Open Scope R_scope.

Lemma semanticSkillSearch_skips_empty_witness :
  exists scored ordered res l',
    semanticSkillSearch Example.provider HookExample.db
      (Some (query Example.request)) None HookExample.empty = (Ok res, l') /\
    errors l' = errors HookExample.empty /\
    Forall2
      (fun s p =>
         fst p = s /\
         exists e, skill_embedding s = Some e /\
                   cosineSimilarity [1; 0] e = Ok (snd p))
      (filter hasEmbedding (extractQueryResult HookExample.rows)) scored /\
    Permutation ordered (filter (fun p => Rgtb (snd p) 0.5) scored) /\
    StronglySorted (JSArray.descending snd) ordered /\
    res = firstn (Z.to_nat 10) ordered.
Proof.
  apply (@semanticSkillSearch_skips_empty Example.provider HookExample.db
           (query Example.request) None HookExample.empty [1; 0] HookExample.rows).
  - discriminate.
  - reflexivity.
  - reflexivity.
  - intros s e Hin He Hne. simpl in Hin.
    destruct Hin as [<-|[<-|[<-|[]]]]; simpl in He; injection He as <-;
      try reflexivity. contradiction.
  - lia.
Defined.

Lemma empty_embedding_stops_candidate_search_witness :
  exists e,
    mutationFn Example.provider HookExample.blankStore Example.request Example.start =
      (Ok emptyResult,
       {| sent := SelectSkills :: sent Example.start;
          logged := e :: logged Example.start |}).
Proof.
  apply (@empty_embedding_stops_candidate_search Example.provider
           HookExample.blankStore Example.request Example.start [1; 0]
           (Items [Rows [Example.python; HookExample.blank; Example.ml]])
           HookExample.blank).
  - reflexivity.
  - discriminate.
  - reflexivity.
  - simpl. right. left. reflexivity.
  - reflexivity.
Defined.

End EmptyEmbeddingExamples.

(** ** The candidates of a project *)

Section ProjectCandidates.

Import Embedding Search Hooks.
Open Scope R_scope.

Variable db : Db.



End ProjectCandidates.


(** ** What a tick keeps *)

Section TickShape.

Import JSNum Graph.
Open Scope R_scope.

Variable canvas : Canvas.
Variable draggingNode : option string.
Variable edges : list GraphEdge.

Lemma stepNode_type (nodes : list GraphNode) (i : nat) (node : GraphNode) :
  type (stepNode canvas nodes edges i node) = type node.
Proof.
  unfold stepNode.
  repeat match goal with
         | |- context [let '(a, b) := ?p in _] => destruct p
         end.
  reflexivity.
Qed.

Lemma update_map (A : Type) (f : GraphNode -> A) (i : nat) (v : GraphNode)
    (nodes : list GraphNode) (old : GraphNode) :
  nth_error nodes i = Some old -> f v = f old ->
  map f (update i v nodes) = map f nodes.
Proof.
  revert i. induction nodes as [|n nodes IH]; intros [|i] Hold Hf; simpl in *;
    try discriminate.
  - injection Hold as ->. now rewrite Hf.
  - f_equal. apply IH; assumption.
Qed.

Lemma stepAt_map (A : Type) (f : GraphNode -> A) (nodes : list GraphNode) (i : nat) :
  (forall ns k n, f (stepNode canvas ns edges k n) = f n) ->
  map f (stepAt canvas draggingNode edges nodes i) = map f nodes.
Proof.
  intros Hf. unfold stepAt.
  destruct (nth_error nodes i) as [node|] eqn:Hi; [|reflexivity].
  destruct (isDragged draggingNode node); [reflexivity|].
  apply (@update_map A f i _ nodes node Hi). apply Hf.
Qed.

Lemma fold_stepAt_map (A : Type) (f : GraphNode -> A) (indices : list nat) :
  (forall ns k n, f (stepNode canvas ns edges k n) = f n) ->
  forall nodes,
    map f (fold_left (stepAt canvas draggingNode edges) indices nodes) = map f nodes.
Proof.
  intros Hf. induction indices as [|i indices IH]; intros nodes; simpl;
    [reflexivity|].
  rewrite IH. apply stepAt_map, Hf.
Qed.

(** A tick neither adds nor removes a node, and keeps the identifier and
    the type of the node at each index. *)
Theorem simulateStep_shape (nodes : list GraphNode) :
  List.length (simulateStep canvas draggingNode edges nodes) = List.length nodes /\
  map id (simulateStep canvas draggingNode edges nodes) = map id nodes /\
  map type (simulateStep canvas draggingNode edges nodes) = map type nodes.
Proof.
  rewrite simulateStep_fold.
  assert (Hid : map id (fold_left (stepAt canvas draggingNode edges)
                          (seq 0 (List.length nodes)) nodes) = map id nodes).
  { apply fold_stepAt_map. intros. apply stepNode_id. }
  split; [|split].
  - rewrite <- (length_map id), Hid. apply length_map.
  - exact Hid.
  - apply fold_stepAt_map. intros. apply stepNode_type.
Qed.

Lemma fold_stepAt_dragged (indices : list nat) :
  forall (nodes : list GraphNode) (j : nat) (node : GraphNode),
    nth_error nodes j = Some node ->
    isDragged draggingNode node = true ->
    nth_error (fold_left (stepAt canvas draggingNode edges) indices nodes) j
    = Some node.
Proof.
  induction indices as [|i indices IH]; intros nodes j node Hj Hd; simpl;
    [exact Hj|].
  apply IH; [|exact Hd].
  destruct (Nat.eq_dec i j) as [->|Hij].
  - rewrite (@stepAt_self canvas draggingNode edges nodes j node Hj).
    now rewrite Hd.
  - rewrite stepAt_other by exact Hij. exact Hj.
Qed.

(** A tick leaves the dragged node as it is: position and velocity of
    every node that carries the dragged identifier are unchanged. *)
Theorem simulateStep_dragged_fixed (nodes : list GraphNode) (j : nat)
    (node : GraphNode) :
  nth_error nodes j = Some node ->
  isDragged draggingNode node = true ->
  nth_error (simulateStep canvas draggingNode edges nodes) j = Some node.
Proof.
  intros Hj Hd. rewrite simulateStep_fold. now apply fold_stepAt_dragged.
Qed.

End TickShape.

Lemma simulateStep_dragged_fixed_witness :
  nth_error
    (Graph.simulateStep GraphExample.viewport (Some "skill:b"%string) []
       [GraphExample.farA; GraphExample.farB]) 1
  = Some GraphExample.farB.
Proof.
  apply simulateStep_dragged_fixed; reflexivity.
Defined.

(** ** A turn on finite, separate nodes *)

Section FiniteTurn.

Import JSNum Graph.
Open Scope R_scope.











End FiniteTurn.

Section SafeTurn.

Import JSNum Graph.
Open Scope R_scope.


End SafeTurn.


(** ** The view: zoom, pointer and frames *)

Section ViewFacts.

Import JSNum Graph Viewer.
Open Scope R_scope.

(** Whatever buttons are pressed and wherever the pointer goes down, the
    zoom stays between 0.5 and 3 and the pan stays at the origin. *)
Theorem view_stays_in_range (v : View) :
  reachable v -> 0.5 <= zoom v <= 3 /\ pan v = (0, 0).
Proof.
  induction 1 as [|v _ IH|v _ IH|v _ IH|v _ IH|v _ IH|canvas rect nodes e v _ IH];
    simpl.
  - split; [lra | reflexivity].
  - exact IH.
  - destruct IH as [Hz Hp]. split; [|exact Hp].
    unfold Rmin. destruct (Rle_dec (zoom v * 1.2) 3); lra.
  - destruct IH as [Hz Hp]. split; [|exact Hp].
    unfold Rmax. destruct (Rle_dec (zoom v / 1.2) 0.5); lra.
  - split; [lra | reflexivity].
  - exact IH.
  - unfold handleMouseDown. destruct canvas as [[width height]|]; [|exact IH].
    destruct (JSArray.find _ nodes); exact IH.
Qed.

(** The pointer handlers undo the transform of [render]: for a zoom that
    is not zero, the world point computed for a point of the canvas is
    finite and is the one point that [render] draws there. *)
Theorem pointer_inverts_render (v : View) (width height : R) :
  zoom v <> 0 ->
  (forall cx cy,
      exists px py,
        worldPoint v width height (Fin cx, Fin cy) = (Fin px, Fin py) /\
        draw (renderTransform v width height) (px, py) = (cx, cy)) /\
  (forall px py,
      worldPoint v width height
        (Fin (fst (draw (renderTransform v width height) (px, py))),
         Fin (snd (draw (renderTransform v width height) (px, py))))
      = (Fin px, Fin py)).
Proof.
  intros Hz.
  assert (H2 : (2 : R) <> 0) by lra.
  split.
  - intros cx cy.
    exists ((cx - fst (pan v) - width / 2) / zoom v + width / 2),
           ((cy - snd (pan v) - height / 2) / zoom v + height / 2).
    split.
    + unfold worldPoint. simpl fst. simpl snd.
      rewrite !(div_fin _ H2). unfold sub. simpl neg. simpl add.
      unfold div. destruct (Req_dec_T (zoom v) 0) as [H0|_]; [contradiction|].
      simpl. f_equal; f_equal; lra.
    + unfold draw, renderTransform, translate, scale, identity. simpl.
      f_equal; field; exact Hz.
  - intros px py.
    unfold worldPoint, draw, renderTransform, translate, scale, identity.
    simpl fst. simpl snd. simpl sx. simpl sy. simpl tx. simpl ty.
    rewrite !(div_fin _ H2). unfold sub. simpl neg. simpl add.
    unfold div. destruct (Req_dec_T (zoom v) 0) as [H0|_]; [contradiction|].
    simpl. f_equal; f_equal; field; exact Hz.
Qed.

End ViewFacts.

Lemma view_stays_in_range_witness :
  (0.5 <= Viewer.zoom (Viewer.zoomIn (Viewer.zoomIn Viewer.initialView)) <= 3)%R /\
  Viewer.pan (Viewer.zoomIn (Viewer.zoomIn Viewer.initialView)) = (0, 0)%R.
Proof.
  apply view_stays_in_range. do 2 apply Viewer.reach_zoomIn.
  apply Viewer.reach_initial.
Defined.

Lemma pointer_inverts_render_witness :
  (forall cx cy,
      exists px py,
        Viewer.worldPoint Viewer.initialView 800 600 (JSNum.Fin cx, JSNum.Fin cy)
        = (JSNum.Fin px, JSNum.Fin py) /\
        Viewer.draw (Viewer.renderTransform Viewer.initialView 800 600) (px, py)
        = (cx, cy)) /\
  (forall px py,
      Viewer.worldPoint Viewer.initialView 800 600
        (JSNum.Fin (fst (Viewer.draw
                           (Viewer.renderTransform Viewer.initialView 800 600)
                           (px, py))),
         JSNum.Fin (snd (Viewer.draw
                           (Viewer.renderTransform Viewer.initialView 800 600)
                           (px, py))))
      = (JSNum.Fin px, JSNum.Fin py)).
Proof.
  apply pointer_inverts_render. simpl. lra.
Defined.

(** ** Dragging a node *)

Section DragFacts.

Import JSNum Graph Viewer.
Open Scope R_scope.

Lemma find_nth_error (A : Type) (p : A -> bool) (l : list A) (a : A) :
  JSArray.find p l = Some a -> exists j, nth_error l j = Some a /\ p a = true.
Proof.
  unfold JSArray.find. intros H. apply find_some in H. destruct H as [Hin Hp].
  apply In_nth_error in Hin. destruct Hin as [j Hj]. eauto.
Qed.

Lemma moveNode_nth (target : num * num) :
  forall (nodes : list GraphNode) (j : nat) (n : GraphNode),
    NoDup (map id nodes) ->
    nth_error nodes j = Some n ->
    forall k,
      nth_error (moveNode (id n) target nodes) k =
        if Nat.eqb k j
        then Some {| id := id n; type := type n; x := fst target; y := snd target;
                     vx := Fin 0; vy := Fin 0 |}
        else nth_error nodes k.
Proof.
  induction nodes as [|m rest IH]; intros j n Hnd Hj k.
  - destruct j; discriminate.
  - simpl in Hnd. inversion Hnd as [|i ids Hnotin Hrest]; subst.
    destruct j as [|j]; simpl in Hj.
    + injection Hj as ->. simpl. rewrite String.eqb_refl.
      destruct k; reflexivity.
    + assert (Hne : String.eqb (id m) (id n) = false).
      { apply String.eqb_neq. intros Heq. apply Hnotin. rewrite Heq.
        apply in_map. eapply nth_error_In, Hj. }
      simpl. rewrite Hne. destruct k as [|k]; [reflexivity|].
      simpl. apply IH; assumption.
Qed.

(** When the identifiers of the nodes are distinct, the node under the
    pointer at mouse down is selected and dragged; a move of the pointer
    then puts that node, and no other, on the world point of the pointer
    with a velocity of zero, and a tick leaves it there. *)
Theorem drag_follows_pointer (width height : R) (rect : Rect)
    (nodes : list GraphNode) (edges : list GraphEdge) (down move : MouseEvent)
    (v : View) (n : GraphNode) :
  NoDup (map id nodes) ->
  id n <> EmptyString ->
  JSArray.find (hit (worldPoint v width height (canvasPoint width height rect down)))
    nodes = Some n ->
  let canvas := Some (width, height) in
  let v' := handleMouseDown canvas rect nodes down v in
  let target := worldPoint v' width height (canvasPoint width height rect move) in
  let held := {| id := id n; type := type n; x := fst target; y := snd target;
                 vx := Fin 0; vy := Fin 0 |} in
  selectedNode v' = Some n /\ draggingNode v' = Some (id n) /\
  exists j,
    nth_error nodes j = Some n /\
    (forall k,
        nth_error (handleMouseMove canvas rect move v' nodes) k =
          if Nat.eqb k j then Some held else nth_error nodes k) /\
    nth_error
      (simulateStep canvas (draggingNode v') edges
         (handleMouseMove canvas rect move v' nodes)) j = Some held.
Proof.
  intros Hnd Hid Hfind canvas v' target held.
  assert (Hv' : v' = {| zoom := zoom v; pan := pan v; selectedNode := Some n;
                        draggingNode := Some (id n);
                        isSimulating := isSimulating v |}).
  { unfold v', canvas, handleMouseDown. rewrite Hfind. reflexivity. }
  clearbody v'. subst v'.
  split; [reflexivity|]. split; [reflexivity|].
  destruct (find_nth_error _ _ Hfind) as (j & Hj & _).
  exists j. split; [exact Hj|].
  assert (Hmove : handleMouseMove canvas rect move
                    {| zoom := zoom v; pan := pan v; selectedNode := Some n;
                       draggingNode := Some (id n);
                       isSimulating := isSimulating v |} nodes
                  = moveNode (id n) target nodes).
  { unfold handleMouseMove, canvas. simpl draggingNode. cbv iota beta.
    apply String.eqb_neq in Hid. rewrite Hid. reflexivity. }
  assert (Hnth : forall k,
             nth_error
               (handleMouseMove canvas rect move
                  {| zoom := zoom v; pan := pan v; selectedNode := Some n;
                     draggingNode := Some (id n);
                     isSimulating := isSimulating v |} nodes) k =
               if Nat.eqb k j then Some held else nth_error nodes k).
  { intros k. rewrite Hmove. apply (moveNode_nth target nodes j Hnd Hj). }
  split; [exact Hnth|].
  rewrite simulateStep_fold. apply fold_stepAt_dragged.
  - rewrite Hnth, Nat.eqb_refl. reflexivity.
  - simpl. apply String.eqb_refl.
Qed.

End DragFacts.

Lemma drag_follows_pointer_witness :
  let canvas := Some (800, 600)%R in
  let v' := Viewer.handleMouseDown canvas ViewerExample.page ViewerExample.scene
              (ViewerExample.pointer 98 99) Viewer.initialView in
  let target := Viewer.worldPoint v' 800 600
                  (Viewer.canvasPoint 800 600 ViewerExample.page
                     (ViewerExample.pointer 300 200)) in
  let held := {| Graph.id := Graph.id GraphExample.farA;
                 Graph.type := Graph.type GraphExample.farA;
                 Graph.x := fst target; Graph.y := snd target;
                 Graph.vx := JSNum.Fin 0; Graph.vy := JSNum.Fin 0 |} in
  Viewer.selectedNode v' = Some GraphExample.farA /\
  Viewer.draggingNode v' = Some (Graph.id GraphExample.farA) /\
  exists j,
    nth_error ViewerExample.scene j = Some GraphExample.farA /\
    (forall k,
        nth_error (Viewer.handleMouseMove canvas ViewerExample.page
                     (ViewerExample.pointer 300 200) v' ViewerExample.scene) k =
          if Nat.eqb k j then Some held else nth_error ViewerExample.scene k) /\
    nth_error
      (Graph.simulateStep canvas (Viewer.draggingNode v') []
         (Viewer.handleMouseMove canvas ViewerExample.page
            (ViewerExample.pointer 300 200) v' ViewerExample.scene)) j = Some held.
Proof.
  apply (@drag_follows_pointer 800 600 ViewerExample.page ViewerExample.scene []
           (ViewerExample.pointer 98 99) (ViewerExample.pointer 300 200)
           Viewer.initialView GraphExample.farA).
  - repeat constructor; simpl; intuition discriminate.
  - discriminate.
  - unfold ViewerExample.scene, JSArray.find, List.find.
    assert (HA : Viewer.hit
                   (Viewer.worldPoint Viewer.initialView 800 600
                      (Viewer.canvasPoint 800 600 ViewerExample.page
                         (ViewerExample.pointer 98 99))) GraphExample.farA = true).
    { unfold Viewer.hit, Viewer.worldPoint, Viewer.canvasPoint, Viewer.radius.
      simpl. unfold JSNum.div. decide_reals. simpl. unfold JSNum.div. decide_reals.
      simpl. decide_reals. reflexivity. }
    rewrite HA. reflexivity.
Defined.

(** ** The frames of the animation loop *)

Section FrameFacts.

Import JSNum Graph Viewer.
Open Scope R_scope.

Variable canvas : Canvas.
Variable dragged : option string.
Variable edges : list GraphEdge.

Lemma animate_spaced (l : Loop) (call : R * bool) :
  StronglySorted spaced (frames l) ->
  Forall (fun t => 16 <= t <= lastTime l) (frames l) ->
  16 * INR (List.length (frames l)) <= lastTime l ->
  let l' := animate canvas dragged edges l call in
  StronglySorted spaced (frames l') /\
  Forall (fun t => 16 <= t <= lastTime l') (frames l') /\
  16 * INR (List.length (frames l')) <= lastTime l'.
Proof.
  intros Hs Hf Hn. destruct call as [time simulating]. unfold animate.
  destruct (Rle_dec 16 (time - lastTime l)) as [Hgo|_]; [|auto].
  assert (H0 : 0 <= lastTime l).
  { pose proof (pos_INR (List.length (frames l))). lra. }
  cbv zeta. simpl frames. simpl lastTime. split; [|split].
  - constructor; [exact Hs|].
    eapply Forall_impl; [|exact Hf]. intros t [_ Ht]. unfold spaced. lra.
  - constructor; [lra|].
    eapply Forall_impl; [|exact Hf]. intros t [H1 H2]. lra.
  - change (List.length (time :: frames l)) with (S (List.length (frames l))).
    rewrite S_INR. lra.
Qed.

Lemma animate_paused (l : Loop) (time : R) :
  world (animate canvas dragged edges l (time, false)) = world l.
Proof.
  unfold animate. destruct (Rle_dec 16 (time - lastTime l)); reflexivity.
Qed.

Lemma animate_called (l : Loop) (call : R * bool) (t : R) :
  In t (frames (animate canvas dragged edges l call)) ->
  t = fst call \/ In t (frames l).
Proof.
  destruct call as [time simulating]. unfold animate.
  destruct (Rle_dec 16 (time - lastTime l)); simpl; [|auto].
  intros [<-|H]; auto.
Qed.

(** However often and whenever the host calls [animate], two frames of
    one run of the loop are at least 16 milliseconds apart and the first
    one is not before 16: at time [t] no more than [t / 16] frames have
    been drawn.  Each frame is drawn at the time of a call, and while the
    simulation is paused the frames leave the nodes as they are. *)
Theorem frames_spaced (calls : list (R * bool)) (nodes : list GraphNode) :
  let l := runLoop canvas dragged edges calls nodes in
  StronglySorted spaced (frames l) /\
  Forall (fun t => 16 <= t <= lastTime l) (frames l) /\
  16 * INR (List.length (frames l)) <= lastTime l /\
  (forall t, In t (frames l) -> In t (map fst calls)) /\
  (Forall (fun call => snd call = false) calls -> world l = nodes).
Proof.
  unfold runLoop.
  assert (Hgen : forall calls l0,
             StronglySorted spaced (frames l0) ->
             Forall (fun t => 16 <= t <= lastTime l0) (frames l0) ->
             16 * INR (List.length (frames l0)) <= lastTime l0 ->
             let l := fold_left (animate canvas dragged edges) calls l0 in
             StronglySorted spaced (frames l) /\
             Forall (fun t => 16 <= t <= lastTime l) (frames l) /\
             16 * INR (List.length (frames l)) <= lastTime l /\
             (forall t, In t (frames l) -> In t (map fst calls) \/ In t (frames l0)) /\
             (Forall (fun call => snd call = false) calls -> world l = world l0)).
  { clear calls. induction calls as [|call calls IH]; intros l0 Hs Hf Hn.
    - simpl. repeat split; auto.
    - destruct (animate_spaced l0 call Hs Hf Hn) as (Hs' & Hf' & Hn').
      destruct (IH _ Hs' Hf' Hn') as (H1 & H2 & H3 & H4 & H5).
      simpl. split; [exact H1|]. split; [exact H2|]. split; [exact H3|].
      split.
      + intros t Ht. destruct (H4 t Ht) as [H|H]; [left; right; exact H|].
        apply animate_called in H. destruct H as [->|H]; [left; left|right]; auto.
      + intros Hall. inversion Hall as [|c cs Hc Hcs]; subst.
        rewrite (H5 Hcs). destruct call as [time simulating]. simpl in Hc.
        subst simulating. apply animate_paused. }
  destruct (Hgen calls (startLoop nodes)) as (H1 & H2 & H3 & H4 & H5).
  - constructor.
  - constructor.
  - simpl. lra.
  - split; [exact H1|]. split; [exact H2|]. split; [exact H3|]. split.
    + intros t Ht. destruct (H4 t Ht) as [H|[]]. exact H.
    + exact H5.
Qed.

End FrameFacts.

(** ** The label of a node *)

Section LabelFacts.

Import Graph Viewer.

(** The label drawn in a node keeps the first 10 code units of the name
    of an employee, the first 8 of the name of a skill, and is never
    longer than that by more than the two dots; a name within the limit
    is drawn as it is, a longer one is drawn with exactly two more code
    units than the limit. *)
Theorem drawnLabel_length (kind : NodeType) (label : Embedding.jsstring) :
  let maxLen := match kind with employee => 10%nat | skill => 8%nat end in
  (List.length (drawnLabel kind label) <= maxLen + 2)%nat /\
  firstn maxLen (drawnLabel kind label) = firstn maxLen label /\
  ((List.length label <= maxLen)%nat -> drawnLabel kind label = label) /\
  ((maxLen < List.length label)%nat ->
   List.length (drawnLabel kind label) = (maxLen + 2)%nat).
Proof.
  intros maxLen. unfold drawnLabel. fold maxLen.
  destruct (Nat.ltb_spec maxLen (List.length label)) as [Hlong|Hshort].
  - assert (Hlen : List.length (firstn maxLen label) = maxLen).
    { rewrite length_firstn. lia. }
    split; [rewrite length_app, Hlen; simpl; lia|].
    split.
    + rewrite firstn_app, Hlen, Nat.sub_diag. simpl firstn at 2.
      rewrite app_nil_r. rewrite firstn_firstn. f_equal. lia.
    + split; [lia|]. intros _. rewrite length_app, Hlen. reflexivity.
  - split; [lia|]. split; [reflexivity|]. split; [reflexivity|lia].
Qed.

End LabelFacts.

(** ** The first layout *)

Section LayoutFacts.

Import JSNum Graph Viewer.
Open Scope R_scope.

Variables width height : R.
Variable random : nat -> R.
Hypothesis random_range : forall k, 0 <= random k < 1.

Lemma ring_bound (c base extra u : R) :
  -1 <= c <= 1 -> 0 <= base -> 0 <= extra -> 0 <= u < 1 ->
  - (base + extra) <= c * (base + u * extra) <= base + extra.
Proof.
  intros Hc Hb He Hu.
  assert (Hr : 0 <= base + u * extra <= base + extra) by nra.
  split; nra.
Qed.

Lemma placeNode_spec (kind : NodeType) (shift base extra : R) (n i first : nat)
    (nodeId : string) :
  0 <= base -> 0 <= extra ->
  exists px py a b,
    placeNode width height random kind shift base extra n i first nodeId =
      {| id := nodeId; type := kind; x := Fin px; y := Fin py;
         vx := Fin a; vy := Fin b |} /\
    width / 2 + shift - (base + extra) <= px <= width / 2 + shift + (base + extra) /\
    height / 2 - (base + extra) <= py <= height / 2 + (base + extra) /\
    -1 <= a < 1 /\ -1 <= b < 1.
Proof.
  intros Hb He. unfold placeNode. eexists _, _, _, _. split; [reflexivity|].
  set (angle := INR i / INR n * PI * 2 + random first * 0.5).
  pose proof (COS_bound angle) as Hcos. pose proof (SIN_bound angle) as Hsin.
  pose proof (ring_bound Hcos Hb He (random_range (first + 1))) as Hx.
  pose proof (ring_bound Hsin Hb He (random_range (first + 1))) as Hy.
  pose proof (random_range (first + 2)) as Ha.
  pose proof (random_range (first + 3)) as Hc.
  repeat split; lra.
Qed.

Lemma placeNodes_spec (kind : NodeType) (shift base extra : R) (n : nat) :
  0 <= base -> 0 <= extra ->
  forall (ids : list string) (i first : nat),
    map id (placeNodes width height random kind shift base extra n i first ids)
    = ids /\
    Forall
      (fun node =>
         type node = kind /\
         exists px py a b,
           x node = Fin px /\ y node = Fin py /\ vx node = Fin a /\ vy node = Fin b /\
           width / 2 + shift - (base + extra) <= px
             <= width / 2 + shift + (base + extra) /\
           height / 2 - (base + extra) <= py <= height / 2 + (base + extra) /\
           -1 <= a < 1 /\ -1 <= b < 1)
      (placeNodes width height random kind shift base extra n i first ids).
Proof.
  intros Hb He. induction ids as [|nodeId rest IH]; intros i first.
  - split; [reflexivity | constructor].
  - destruct (IH (S i) (first + 4)%nat) as [Hids Hall].
    destruct (placeNode_spec kind shift n i first nodeId Hb He)
      as (px & py & a & b & Hnode & Hx & Hy & Ha & Hc).
    simpl placeNodes. rewrite Hnode. split.
    + simpl. f_equal. exact Hids.
    + constructor; [|exact Hall]. simpl. split; [reflexivity|].
      exists px, py, a, b. repeat split; solve [reflexivity | lra].
Qed.

(** On a canvas at least 720 wide and 520 high, as the canvas of 800 by
    600 of the component, the effect that creates the nodes makes one
    node for each employee and then one for each skill, under their
    identifiers, every one at a finite position inside the rectangle
    inset by the margin and with a velocity in [-1, 1) on each axis,
    whatever numbers are drawn. *)
Theorem createNodes_in_bounds (employees : list Search.Employee)
    (skills : list Search.Skill) (current : list GraphNode) :
  720 <= width -> 520 <= height ->
  employees <> [] \/ skills <> [] ->
  let canvas := Some (width, height) in
  let nodes := createNodes canvas random employees skills current in
  map id nodes = map Search.employee_id employees ++ map Search.skill_id skills /\
  map type nodes
  = repeat employee (List.length employees) ++ repeat skill (List.length skills) /\
  forall node, In node nodes ->
    inBounds canvas node /\
    exists a b, vx node = Fin a /\ vy node = Fin b /\ -1 <= a < 1 /\ -1 <= b < 1.
Proof.
  intros Hw Hh Hsome canvas nodes.
  assert (Hnodes : nodes =
            placeNodes width height random employee (-100) 100 80
              (List.length employees) 0 0 (map Search.employee_id employees)
            ++ placeNodes width height random skill 100 120 100
                 (List.length skills) 0 (4 * List.length employees)
                 (map Search.skill_id skills)).
  { unfold nodes, createNodes, canvas.
    destruct employees as [|e es]; [|reflexivity].
    destruct skills as [|s ss]; [|reflexivity].
    destruct Hsome as [H|H]; contradiction. }
  clearbody nodes. subst nodes.
  destruct (@placeNodes_spec employee (-100) 100 80 (List.length employees)
              ltac:(lra) ltac:(lra) (map Search.employee_id employees) 0%nat 0%nat)
    as [Hide Halle].
  destruct (@placeNodes_spec skill 100 120 100 (List.length skills)
              ltac:(lra) ltac:(lra) (map Search.skill_id skills) 0%nat
              (4 * List.length employees)%nat)
    as [Hids Halls].
  assert (Htypes : forall (kind : NodeType) (l : list GraphNode),
             Forall (fun node => type node = kind) l ->
             map type l = repeat kind (List.length l)).
  { intros kind l Hl. induction Hl as [|node l Hnode _ IH]; [reflexivity|].
    simpl. rewrite Hnode, IH. reflexivity. }
  split; [rewrite map_app, Hide, Hids; reflexivity|].
  split.
  - rewrite map_app.
    rewrite (Htypes employee), (Htypes skill).
    + rewrite <- (length_map id), Hide, length_map.
      rewrite <- (length_map id), Hids, length_map. reflexivity.
    + eapply Forall_impl; [|exact Halls]. intros node [H _]. exact H.
    + eapply Forall_impl; [|exact Halle]. intros node [H _]. exact H.
  - assert (Hcw : canvasWidth canvas = Fin width).
    { unfold canvas, canvasWidth. apply orElse_nonzero. lra. }
    assert (Hch : canvasHeight canvas = Fin height).
    { unfold canvas, canvasHeight. apply orElse_nonzero. lra. }
    intros node Hin. apply in_app_or in Hin.
    assert (Hnode : exists px py a b,
               x node = Fin px /\ y node = Fin py /\
               vx node = Fin a /\ vy node = Fin b /\
               40 <= px <= width - 40 /\ 40 <= py <= height - 40 /\
               -1 <= a < 1 /\ -1 <= b < 1).
    { destruct Hin as [Hin|Hin].
      - rewrite Forall_forall in Halle.
        destruct (Halle node Hin)
          as (_ & px & py & a & b & H1 & H2 & H3 & H4 & Hx & Hy & Ha & Hb).
        exists px, py, a, b. repeat split; solve [assumption | lra].
      - rewrite Forall_forall in Halls.
        destruct (Halls node Hin)
          as (_ & px & py & a & b & H1 & H2 & H3 & H4 & Hx & Hy & Ha & Hb).
        exists px, py, a, b. repeat split; solve [assumption | lra]. }
    destruct Hnode as (px & py & a & b & H1 & H2 & H3 & H4 & Hx & Hy & Ha & Hb).
    split.
    + unfold inBounds. rewrite H1, H2, Hcw, Hch. split; assumption.
    + exists a, b. repeat split; solve [assumption | lra].
Qed.

End LayoutFacts.

Lemma createNodes_in_bounds_witness :
  let canvas := Some (800, 600)%R in
  let nodes := Viewer.createNodes canvas (fun _ => 0%R) [Example.alice]
                 [Example.python] [] in
  map Graph.id nodes
  = map Search.employee_id [Example.alice] ++ map Search.skill_id [Example.python] /\
  map Graph.type nodes
  = repeat Graph.employee (List.length [Example.alice])
    ++ repeat Graph.skill (List.length [Example.python]) /\
  forall node, In node nodes ->
    Graph.inBounds canvas node /\
    exists a b, Graph.vx node = JSNum.Fin a /\ Graph.vy node = JSNum.Fin b /\
                (-1 <= a < 1)%R /\ (-1 <= b < 1)%R.
Proof.
  apply (@createNodes_in_bounds 800 600 (fun _ => 0%R)).
  - intros k. lra.
  - lra.
  - lra.
  - left. discriminate.
Defined.

(** ** Edges that name no node *)

Section EdgeFacts.

Import JSNum Graph Viewer.
Open Scope R_scope.

Lemma present_ext (nodeId : string) :
  forall nodes nodes' : list GraphNode,
    map id nodes = map id nodes' -> present nodes nodeId = present nodes' nodeId.
Proof.
  induction nodes as [|n nodes IH]; intros [|n' nodes'] Hids; try discriminate;
    [reflexivity|].
  simpl in Hids. injection Hids as Hid Hrest.
  unfold present. simpl. rewrite Hid. f_equal. apply IH, Hrest.
Qed.

Lemma present_in (nodes : list GraphNode) (node : GraphNode) :
  In node nodes -> present nodes (id node) = true.
Proof.
  intros Hin. unfold present. apply existsb_exists. exists node.
  split; [exact Hin | apply String.eqb_refl].
Qed.

Lemma findNode_absent (nodes : list GraphNode) (nodeId : string) :
  present nodes nodeId = false -> findNode nodes nodeId = None.
Proof.
  unfold present, findNode, JSArray.find.
  induction nodes as [|n nodes IH]; [reflexivity|].
  simpl. destruct (String.eqb (id n) nodeId); [discriminate | exact IH].
Qed.

Lemma attraction_dangling (nodes : list GraphNode) (node : GraphNode)
    (edge : GraphEdge) (f : num * num) :
  In node nodes -> attached nodes edge = false -> attraction nodes node edge f = f.
Proof.
  intros Hin Hdangling. pose proof (present_in nodes node Hin) as Hnode.
  unfold attached in Hdangling. unfold attraction.
  destruct (String.eqb (source edge) (id node)) eqn:Hs.
  - apply String.eqb_eq in Hs. rewrite Hs, Hnode in Hdangling.
    simpl in Hdangling. simpl. rewrite (findNode_absent _ _ Hdangling).
    reflexivity.
  - destruct (String.eqb (target edge) (id node)) eqn:Ht; [|reflexivity].
    apply String.eqb_eq in Ht. rewrite Ht, Hnode, andb_true_r in Hdangling.
    simpl. rewrite (findNode_absent _ _ Hdangling). reflexivity.
Qed.

Lemma attractions_attached (nodes0 nodes : list GraphNode) (node : GraphNode) :
  map id nodes = map id nodes0 -> In node nodes ->
  forall (edges : list GraphEdge) (f : num * num),
    fold_left (fun f edge => attraction nodes node edge f) edges f
    = fold_left (fun f edge => attraction nodes node edge f)
        (filter (attached nodes0) edges) f.
Proof.
  intros Hids Hin. induction edges as [|edge edges IH]; intros f; [reflexivity|].
  simpl. destruct (attached nodes0 edge) eqn:Hatt.
  - simpl. apply IH.
  - rewrite attraction_dangling; [apply IH | exact Hin|].
    unfold attached in *.
    rewrite (present_ext (source edge) _ _ Hids),
            (present_ext (target edge) _ _ Hids).
    exact Hatt.
Qed.

Lemma stepAt_attached (canvas : Canvas) (dragged : option string)
    (edges : list GraphEdge) (nodes0 nodes : list GraphNode) (i : nat) :
  map id nodes = map id nodes0 ->
  stepAt canvas dragged edges nodes i
  = stepAt canvas dragged (filter (attached nodes0) edges) nodes i.
Proof.
  intros Hids. unfold stepAt.
  destruct (nth_error nodes i) as [node|] eqn:Hi; [|reflexivity].
  destruct (isDragged dragged node); [reflexivity|].
  f_equal. unfold stepNode.
  rewrite (@attractions_attached nodes0 nodes node Hids (nth_error_In _ _ Hi)).
  reflexivity.
Qed.

(** An edge with an end that no node carries has no part in a tick: the
    tick on all the edges is the tick on the edges whose two ends are
    among the nodes. *)
Theorem simulateStep_ignores_dangling_edges (canvas : Canvas)
    (dragged : option string) (edges : list GraphEdge) (nodes : list GraphNode) :
  simulateStep canvas dragged edges nodes
  = simulateStep canvas dragged (filter (attached nodes) edges) nodes.
Proof.
  rewrite !simulateStep_fold.
  generalize (seq 0 (List.length nodes)). intros indices.
  assert (Hgen : forall (indices : list nat) (current : list GraphNode),
             map id current = map id nodes ->
             fold_left (stepAt canvas dragged edges) indices current
             = fold_left (stepAt canvas dragged (filter (attached nodes) edges))
                 indices current).
  { clear indices. induction indices as [|i indices IH]; intros current Hids;
      [reflexivity|].
    simpl. rewrite <- (@stepAt_attached canvas dragged edges nodes current i Hids).
    apply IH. rewrite <- Hids. apply stepAt_map. intros. apply stepNode_id. }
  apply Hgen. reflexivity.
Qed.

End EdgeFacts.

(** ** Batches of texts *)

Section BatchFacts.

Import Embedding Providers.
Open Scope string_scope.

Variable host : Host.
Variable config : EmbeddingConfig.

Lemma ollamaBatch_map (texts : list jsstring) :
  forall (embeddings : list Embedded) (log : list string),
    fst (ollamaBatch host config texts embeddings log)
    = (embeddings ++ map (fun t => fst (ollamaGenerate host config t)) texts)%list.
Proof.
  induction texts as [|t texts IH]; intros embeddings log; simpl.
  - now rewrite app_nil_r.
  - destruct (ollamaGenerate host config t) as [embedding lines] eqn:Hgen.
    rewrite IH, <- app_assoc. reflexivity.
Qed.

Lemma Forall2_map_right (A B : Type) (P : A -> B -> Prop) (f : A -> B)
    (l : list A) :
  (forall a, In a l -> P a (f a)) -> Forall2 P l (map f l).
Proof.
  induction l as [|a l IH]; intros H; simpl; constructor.
  - apply H. now left.
  - apply IH. intros b Hb. apply H. now right.
Qed.

(** Under the mock, the local and the ollama provider, and under the
    openai provider without a key, [generateEmbeddings] returns one vector
    for each text, in the order of the texts: the vector that
    [generateEmbedding] returns for that text. *)
Theorem generateEmbeddings_one_per_text (texts : list jsstring) :
  provider config = Some "mock" \/ provider config = Some "local" \/
  provider config = Some "ollama" \/
  (provider config = Some "openai" /\ hasKey config = None) ->
  exists vs log,
    generateEmbeddings host config texts = Ok (vs, log) /\
    Forall2
      (fun t v => exists lines, generateEmbedding host config t = Ok (v, lines))
      texts vs.
Proof.
  intros Hp. unfold generateEmbeddings, generateEmbedding, getEmbeddingProvider.
  destruct Hp as [Hp|[Hp|[Hp|[Hp Hkey]]]]; rewrite Hp; simpl.
  - eexists _, _. split; [reflexivity|].
    unfold Embedding.generateBatch. rewrite map_map.
    apply Forall2_map_right. intros t _. eauto.
  - eexists _, _. split; [reflexivity|].
    unfold Embedding.generateBatch. rewrite map_map.
    apply Forall2_map_right. intros t _. eauto.
  - destruct (ollamaBatch host config texts [] []) as [vs log] eqn:Hbatch.
    exists vs, log. split; [reflexivity|].
    pose proof (ollamaBatch_map texts [] []) as Hmap.
    rewrite Hbatch in Hmap. simpl in Hmap. subst vs.
    apply Forall2_map_right. intros t _.
    destruct (ollamaGenerate host config t) as [v lines]. simpl. eauto.
  - rewrite Hkey. simpl. eexists _, _. split; [reflexivity|].
    unfold Embedding.generateBatch. rewrite map_map.
    apply Forall2_map_right. intros t _. eauto.
Qed.

End BatchFacts.

Lemma generateEmbeddings_one_per_text_witness :
  exists vs log,
    Providers.generateEmbeddings ProviderExample.offline
      (ProviderExample.configOf "ollama" None)
      [ProviderExample.rust; ProviderExample.rust] = Ok (vs, log) /\
    Forall2
      (fun t v =>
         exists lines,
           Providers.generateEmbedding ProviderExample.offline
             (ProviderExample.configOf "ollama" None) t = Ok (v, lines))
      [ProviderExample.rust; ProviderExample.rust] vs.
Proof.
  apply generateEmbeddings_one_per_text. right. right. left. reflexivity.
Defined.

(** ** The route that serves embeddings *)

Section EmbedApiFacts.

Import Embedding Providers EmbedApi.
Open Scope string_scope.

Variable host : Host.

Lemma mapExc_pure (A B : Type) (g : A -> B) (l : list A) :
  Search.mapExc (fun a => Ok (g a)) l = Ok (map g l).
Proof.
  induction l as [|a l IH]; simpl; [reflexivity|]. rewrite IH. reflexivity.
Qed.

Lemma respond_known (config : EmbeddingConfig) (b : EmbedRequest)
    (prov : EmbeddingProvider) :
  getEmbeddingProvider config = Own prov ->
  respond host config b =
    Ok (match inputTexts b with
        | [] =>
            {| status := 400; embeddings := None;
               res_provider := Some (name prov);
               res_dimensions := Some (dimensions prov);
               error := Some (Literal noTextProvided) |}
        | _ :: _ =>
            {| status := 200;
               embeddings :=
                 Some (map (fun t => fst (generate prov host config t))
                         (inputTexts b));
               res_provider := Some (name prov);
               res_dimensions := Some (dimensions prov);
               error := None |}
        end).
Proof.
  intros Hprov. unfold respond, generateEmbedding. rewrite Hprov.
  simpl nameOf. simpl dimensionsOf.
  destruct (inputTexts b) as [|t ts]; [reflexivity|].
  change (List.length (t :: ts) =? 0)%nat with false. cbv iota.
  rewrite (mapExc_pure (fun t => generate prov host config t)).
  rewrite map_map. reflexivity.
Qed.

Lemma respond_inherited (config : EmbeddingConfig) (b : EmbedRequest)
    (member : string) :
  getEmbeddingProvider config = Inherited member ->
  respond host config b =
    match inputTexts b with
    | [] =>
        Ok {| status := 400; embeddings := None;
              res_provider := memberName member;
              res_dimensions := None;
              error := Some (Literal noTextProvided) |}
    | _ :: _ => Throw (ProviderFailure "TypeError")
    end.
Proof.
  intros Hprov. unfold respond, generateEmbedding. rewrite Hprov.
  simpl nameOf. simpl dimensionsOf.
  destruct (inputTexts b) as [|t ts]; reflexivity.
Qed.

Lemma respond_absent (config : EmbeddingConfig) (b : EmbedRequest) :
  getEmbeddingProvider config = Absent ->
  respond host config b = Throw (ProviderFailure "TypeError").
Proof.
  intros Hprov. unfold respond, generateEmbedding. rewrite Hprov.
  simpl nameOf.
  destruct (inputTexts b) as [|t ts]; reflexivity.
Qed.

Lemma configure_named (key : option string) (b : EmbedRequest)
    (config : EmbeddingConfig) (p : string) :
  req_provider b = Some p -> p <> "" ->
  provider (configure key b config) = Some p /\
  openaiApiKey (configure key b config) = orOption (req_openaiApiKey b) key.
Proof.
  intros Hp Hne. unfold configure. rewrite Hp.
  apply String.eqb_neq in Hne. rewrite Hne. split; reflexivity.
Qed.

Lemma configure_unnamed (key : option string) (b : EmbedRequest)
    (config : EmbeddingConfig) :
  req_provider b = None \/ req_provider b = Some "" ->
  configure key b config = config.
Proof.
  intros [H|H]; unfold configure; rewrite H; reflexivity.
Qed.

(** The provider that a request names answers the later requests that
    name none, whatever the configuration was before, and any name is
    stored.  Under one of the four providers a later request is answered
    with status 400 when it brings no text and with status 200 and one
    result for each text when it brings some, always with the name and
    the dimensions of that provider.  Under the name of a member that
    the object of the providers inherits, such as [constructor], a later
    request without text is answered with status 400, the name of that
    member and no dimensions, and one with texts with status 500.  Under
    any other name the request that brought it and every later request
    without a name are answered with status 500. *)
Theorem handler_provider_sticks (key : option string) (first later : Request)
    (config : EmbeddingConfig) (p : string) :
  method first = "POST" -> req_provider (body first) = Some p -> p <> "" ->
  method later = "POST" ->
  req_provider (body later) = None \/ req_provider (body later) = Some "" ->
  let c1 := snd (handler host key first config) in
  let r2 := fst (handler host key later c1) in
  provider c1 = Some p /\
  snd (handler host key later c1) = c1 /\
  match getEmbeddingProvider c1 with
  | Own prov =>
      In p knownProviders /\
      res_provider r2 = Some (name prov) /\
      res_dimensions r2 = Some (dimensions prov) /\
      match inputTexts (body later) with
      | [] => status r2 = 400%nat /\ embeddings r2 = None
      | _ :: _ =>
          status r2 = 200%nat /\
          exists vs,
            embeddings r2 = Some vs /\
            Forall2
              (fun t v => exists lines, generateEmbedding host c1 t = Ok (v, lines))
              (inputTexts (body later)) vs
      end
  | Inherited member =>
      member = p /\ In p inheritedMembers /\
      match inputTexts (body later) with
      | [] =>
          status r2 = 400%nat /\ embeddings r2 = None /\
          res_provider r2 = memberName p /\ res_dimensions r2 = None
      | _ :: _ => status r2 = 500%nat
      end
  | Absent =>
      (forall q, In q knownProviders \/ In q inheritedMembers -> p <> q) /\
      status (fst (handler host key first config)) = 500%nat /\
      status r2 = 500%nat
  end.
Proof.
  intros Hm1 Hp Hne Hm2 Hnone c1 r2.
  destruct (configure_named key (body first) config Hp Hne) as [Hprov _].
  assert (Hc1 : c1 = configure key (body first) config).
  { unfold c1, handler. rewrite Hm1. simpl negb. cbv iota.
    destruct (respond host _ (body first)); reflexivity. }
  assert (Hlater : handler host key later c1 =
            match respond host c1 (body later) with
            | Ok response => (response, c1)
            | Throw e =>
                ({| status := 500; embeddings := None; res_provider := Some "";
                    res_dimensions := Some 0%nat; error := Some (MessageOf e) |},
                 c1)
            end).
  { unfold handler. rewrite Hm2. simpl negb. cbv iota zeta.
    rewrite (configure_unnamed key (body later) c1 Hnone). reflexivity. }
  split; [rewrite Hc1; exact Hprov|].
  split; [rewrite Hlater; destruct (respond host c1 (body later)); reflexivity|].
  pose proof (getEmbeddingProvider_known c1) as Hknown.
  destruct (getEmbeddingProvider c1) as [prov|member|] eqn:Hget.
  - assert (Hin : In p knownProviders).
    { rewrite Hc1, Hprov in Hknown. simpl.
      destruct Hknown as [[H _]|[[H _]|[[H _]|[H _]]]]; injection H as ->; auto. }
    split; [exact Hin|].
    unfold r2. rewrite Hlater, (@respond_known c1 (body later) prov Hget).
    destruct (inputTexts (body later)) as [|t ts] eqn:Hin2; simpl.
    + repeat split; reflexivity.
    + split; [reflexivity|]. split; [reflexivity|]. split; [reflexivity|].
      eexists. split; [reflexivity|].
      constructor.
      * unfold generateEmbedding. rewrite Hget.
        destruct (generate prov host c1 t) as [v lines]. simpl. eauto.
      * apply Forall2_map_right. intros u _.
        unfold generateEmbedding. rewrite Hget.
        destruct (generate prov host c1 u) as [v lines]. simpl. eauto.
  - destruct Hknown as (Hmember & Hin & _).
    rewrite Hc1, Hprov in Hmember. injection Hmember as <-.
    split; [reflexivity|]. split; [exact Hin|].
    unfold r2. rewrite Hlater, (@respond_inherited c1 (body later) p Hget).
    destruct (inputTexts (body later)) as [|t ts]; simpl.
    + repeat split; reflexivity.
    + reflexivity.
  - split.
    { intros q Hq Heq. apply (Hknown q Hq). rewrite Hc1, Hprov, Heq. reflexivity. }
    split.
    + unfold handler. rewrite Hm1. simpl negb. cbv iota zeta.
      rewrite <- Hc1, (@respond_absent c1 (body first) Hget). reflexivity.
    + unfold r2. rewrite Hlater, (@respond_absent c1 (body later) Hget). reflexivity.
Qed.

(** A request that names the openai provider without a key, on a server
    without a key of its own, puts aside the key that an earlier request
    stored.  Its texts are answered with status 200 under the name and
    the 1536 dimensions of the openai provider, by the vectors of the mock
    provider, of 384 numbers each. *)
Theorem handler_drops_stored_key (key : option string) (req : Request)
    (config : EmbeddingConfig) :
  method req = "POST" ->
  req_provider (body req) = Some "openai" ->
  req_openaiApiKey (body req) = None \/ req_openaiApiKey (body req) = Some "" ->
  key = None \/ key = Some "" ->
  inputTexts (body req) <> [] ->
  let r := fst (handler host key req config) in
  let c := snd (handler host key req config) in
  hasKey c = None /\
  status r = 200%nat /\
  res_provider r = Some "OpenAI Embeddings" /\ res_dimensions r = Some 1536%nat /\
  embeddings r
  = Some (map (fun t => Some (Embedding.generate (toLowerCase host) t))
            (inputTexts (body req))) /\
  forall rs r0, embeddings r = Some rs -> In r0 rs ->
    exists v, r0 = Some v /\ List.length v = 384%nat.
Proof.
  intros Hm Hp Hreq Hkey Hin r c.
  destruct (@configure_named key (body req) config "openai" Hp ltac:(discriminate))
    as [Hprov Hstored].
  assert (Hnokey : hasKey (configure key (body req) config) = None).
  { unfold hasKey. rewrite Hstored.
    destruct Hreq as [->| ->]; destruct Hkey as [->| ->]; reflexivity. }
  assert (Hget : getEmbeddingProvider (configure key (body req) config)
                 = Own OpenAIProvider).
  { unfold getEmbeddingProvider. rewrite Hprov. reflexivity. }
  assert (Hrun : handler host key req config =
            ({| status := 200;
                embeddings :=
                  Some (map (fun t => Some (Embedding.generate (toLowerCase host) t))
                          (inputTexts (body req)));
                res_provider := Some "OpenAI Embeddings";
                res_dimensions := Some 1536%nat;
                error := None |},
             configure key (body req) config)).
  { unfold handler. rewrite Hm. simpl negb. cbv iota zeta.
    rewrite (@respond_known _ (body req) _ Hget).
    destruct (inputTexts (body req)) as [|t ts]; [contradiction|].
    f_equal. f_equal. f_equal. apply map_ext. intros u.
    simpl. rewrite Hnokey. reflexivity. }
  unfold r, c. rewrite Hrun. simpl.
  split; [exact Hnokey|]. repeat split.
  intros rs r0 Hrs Hr0. injection Hrs as <-. apply in_map_iff in Hr0.
  destruct Hr0 as (t & <- & _). eexists. split; [reflexivity|].
  apply generate_length.
Qed.

End EmbedApiFacts.

Lemma handler_provider_sticks_witness :
  let c1 := snd (EmbedApi.handler ProviderExample.offline None
                   (EmbedApiExample.naming "constructor")
                   (ProviderExample.configOf "mock" None)) in
  let r2 := fst (EmbedApi.handler ProviderExample.offline None
                   EmbedApiExample.silent c1) in
  Providers.provider c1 = Some "constructor"%string /\
  snd (EmbedApi.handler ProviderExample.offline None EmbedApiExample.silent c1) = c1 /\
  match Providers.getEmbeddingProvider c1 with
  | Providers.Own prov =>
      In "constructor"%string Providers.knownProviders /\
      EmbedApi.res_provider r2 = Some (Providers.name prov) /\
      EmbedApi.res_dimensions r2 = Some (Providers.dimensions prov) /\
      match EmbedApi.inputTexts (EmbedApi.body EmbedApiExample.silent) with
      | [] => EmbedApi.status r2 = 400%nat /\ EmbedApi.embeddings r2 = None
      | _ :: _ =>
          EmbedApi.status r2 = 200%nat /\
          exists vs,
            EmbedApi.embeddings r2 = Some vs /\
            Forall2
              (fun t v =>
                 exists lines,
                   Providers.generateEmbedding ProviderExample.offline c1 t
                   = Ok (v, lines))
              (EmbedApi.inputTexts (EmbedApi.body EmbedApiExample.silent)) vs
      end
  | Providers.Inherited member =>
      member = "constructor"%string /\
      In "constructor"%string Providers.inheritedMembers /\
      match EmbedApi.inputTexts (EmbedApi.body EmbedApiExample.silent) with
      | [] =>
          EmbedApi.status r2 = 400%nat /\ EmbedApi.embeddings r2 = None /\
          EmbedApi.res_provider r2 = Providers.memberName "constructor" /\
          EmbedApi.res_dimensions r2 = None
      | _ :: _ => EmbedApi.status r2 = 500%nat
      end
  | Providers.Absent =>
      (forall q,
          In q Providers.knownProviders \/ In q Providers.inheritedMembers ->
          "constructor"%string <> q) /\
      EmbedApi.status
        (fst (EmbedApi.handler ProviderExample.offline None
                (EmbedApiExample.naming "constructor")
                (ProviderExample.configOf "mock" None))) = 500%nat /\
      EmbedApi.status r2 = 500%nat
  end.
Proof.
  apply (@handler_provider_sticks ProviderExample.offline None
           (EmbedApiExample.naming "constructor") EmbedApiExample.silent
           (ProviderExample.configOf "mock" None) "constructor").
  - reflexivity.
  - reflexivity.
  - discriminate.
  - reflexivity.
  - left. reflexivity.
Defined.

Lemma handler_drops_stored_key_witness :
  let r := fst (EmbedApi.handler ProviderExample.offline None
                  (EmbedApiExample.naming "openai")
                  (ProviderExample.configOf "openai" (Some "sk-stored"%string))) in
  let c := snd (EmbedApi.handler ProviderExample.offline None
                  (EmbedApiExample.naming "openai")
                  (ProviderExample.configOf "openai" (Some "sk-stored"%string))) in
  Providers.hasKey c = None /\
  EmbedApi.status r = 200%nat /\
  EmbedApi.res_provider r = Some "OpenAI Embeddings"%string /\
  EmbedApi.res_dimensions r = Some 1536%nat /\
  EmbedApi.embeddings r
  = Some (map (fun t =>
                 Some (Embedding.generate
                         (Providers.toLowerCase ProviderExample.offline) t))
            (EmbedApi.inputTexts (EmbedApi.body (EmbedApiExample.naming "openai")))) /\
  forall rs r0, EmbedApi.embeddings r = Some rs -> In r0 rs ->
    exists v, r0 = Some v /\ List.length v = 384%nat.
Proof.
  apply (@handler_drops_stored_key ProviderExample.offline None
           (EmbedApiExample.naming "openai")
           (ProviderExample.configOf "openai" (Some "sk-stored"%string))).
  - reflexivity.
  - reflexivity.
  - left. reflexivity.
  - left. reflexivity.
  - discriminate.
Defined.

(** ** The settings of the embeddings *)

Section SettingsFacts.

Import Embedding Providers.
Open Scope string_scope.

(** Saving the form as it was loaded changes nothing that the providers
    read: the provider, the usable key and every other setting are the
    same, an empty key only becomes an absent one, and each text gets the
    embedding and the console lines it got before. *)
Theorem settings_round_trip (config : EmbeddingConfig) :
  let saved := EmbeddingSettings.handleSave (EmbeddingSettings.load config) config in
  provider saved = provider config /\
  hasKey saved = hasKey config /\
  (openaiApiKey saved = openaiApiKey config \/
   (openaiApiKey config = Some "" /\ openaiApiKey saved = None)) /\
  (forall host text,
      generateEmbedding host saved text = generateEmbedding host config text) /\
  (forall host texts,
      generateEmbeddings host saved texts = generateEmbeddings host config texts) /\
  EmbeddingSettings.load saved = EmbeddingSettings.load config.
Proof.
  intros saved.
  assert (Hsaved : saved =
            {| provider := provider config;
               openaiApiKey := hasKey config;
               openaiModel := openaiModel config;
               localModelPath := localModelPath config;
               ollamaHost := ollamaHost config;
               ollamaModel := ollamaModel config;
               ollamaDimensions := ollamaDimensions config;
               ollamaTimeout := ollamaTimeout config |}).
  { unfold saved, EmbeddingSettings.handleSave, EmbeddingSettings.load,
      setEmbeddingConfig, getEmbeddingConfig, hasKey, orString. simpl.
    f_equal. destruct (openaiApiKey config) as [k|]; [|reflexivity].
    destruct (String.eqb k "") eqn:Hk; [reflexivity|]. rewrite Hk. reflexivity. }
  clearbody saved. subst saved.
  assert (Hkey : hasKey
                   {| provider := provider config;
                      openaiApiKey := hasKey config;
                      openaiModel := openaiModel config;
                      localModelPath := localModelPath config;
                      ollamaHost := ollamaHost config;
                      ollamaModel := ollamaModel config;
                      ollamaDimensions := ollamaDimensions config;
                      ollamaTimeout := ollamaTimeout config |} = hasKey config).
  { unfold hasKey. simpl. destruct (openaiApiKey config) as [k|]; [|reflexivity].
    destruct (String.eqb k "") eqn:Hk; [reflexivity|]. rewrite Hk. reflexivity. }
  split; [reflexivity|]. split; [exact Hkey|]. split.
  { simpl. unfold hasKey. destruct (openaiApiKey config) as [k|]; [|now left].
    destruct (String.eqb k "") eqn:Hk; [|now left].
    apply String.eqb_eq in Hk. subst k. right. split; reflexivity. }
  assert (Hollama : forall host text,
            ollamaGenerate host
              {| provider := provider config;
                 openaiApiKey := hasKey config;
                 openaiModel := openaiModel config;
                 localModelPath := localModelPath config;
                 ollamaHost := ollamaHost config;
                 ollamaModel := ollamaModel config;
                 ollamaDimensions := ollamaDimensions config;
                 ollamaTimeout := ollamaTimeout config |} text
            = ollamaGenerate host config text).
  { intros host text. reflexivity. }
  split; [|split].
  - intros host text. unfold generateEmbedding, getEmbeddingProvider. simpl provider.
    destruct (provider config) as [p|]; [|reflexivity].
    destruct (String.eqb p "mock"); [reflexivity|].
    destruct (String.eqb p "local"); [reflexivity|].
    destruct (String.eqb p "openai").
    + simpl generate. rewrite Hkey. reflexivity.
    + destruct (String.eqb p "ollama"); [reflexivity|].
      destruct (existsb (String.eqb p) inheritedMembers); reflexivity.
  - intros host texts. unfold generateEmbeddings, getEmbeddingProvider.
    simpl provider.
    destruct (provider config) as [p|]; [|reflexivity].
    destruct (String.eqb p "mock"); [reflexivity|].
    destruct (String.eqb p "local"); [reflexivity|].
    destruct (String.eqb p "openai").
    + simpl generateBatch. rewrite Hkey. reflexivity.
    + destruct (String.eqb p "ollama");
        [|destruct (existsb (String.eqb p) inheritedMembers); reflexivity].
      simpl generateBatch. f_equal.
      generalize (@nil Embedded) (@nil string).
      induction texts as [|t texts IH]; intros acc log; [reflexivity|].
      simpl. rewrite Hollama. destruct (ollamaGenerate host config t). apply IH.
  - unfold EmbeddingSettings.load, getEmbeddingConfig. simpl. f_equal.
    unfold hasKey, orString. destruct (openaiApiKey config) as [k|]; [|reflexivity].
    destruct (String.eqb k "") eqn:Hk; [reflexivity|]. rewrite Hk. reflexivity.
Qed.

End SettingsFacts.
